(** * akbootimg: the boot image codec of [akbootimg.c], embedded in Rocq

    The development follows the C source function by function.  Values of
    type [unsigned] are integers in [0, 2^32) with the wrap-around written
    out ([u32]); a C [char] is an [ascii]; a C string is the list of its
    characters up to (not including) the terminating NUL; the FILE streams
    and the files behind them are an explicit state threaded through a
    small state-and-abort monad.  Files are regular files; writes to a
    stream take effect in program order (the stdio buffer is not
    modelled).  The width of [long] and [size_t] is a parameter
    ([c_abi]); what the absent [bootimg.h] declares is another
    ([bootimg_h]). *)

From Stdlib Require Import ZArith List Ascii String Bool Lia.
Import ListNotations.
Local Open Scope Z_scope.

(** ** Machine arithmetic *)

(** [unsigned] is 32 bits wide on every target of the tool. *)
Definition u32 (z : Z) : Z := z mod 2 ^ 32.

Definition is_u32 (z : Z) : Prop := 0 <= z < 2 ^ 32.

(** The expression [(sz + page_size - 1) / page_size], evaluated in
    [unsigned] arithmetic: the sum wraps before it is divided. *)
Definition npages (sz page_size : Z) : Z := u32 (sz + page_size - 1) / page_size.

(** ** [bootimg.h]: the header record *)

(** Modelled from the spec: [bootimg.h], which declares [boot_img_hdr], is
    not among the sources.  The record has the fields that [akbootimg.c]
    names, in the order the specification lists them, and the remaining
    bytes of the record, which the tool carries through unmodified. *)
Record boot_img_hdr : Type := mk_hdr {
  magic        : list ascii;
  kernel_size  : Z;
  kernel_addr  : Z;
  ramdisk_size : Z;
  ramdisk_addr : Z;
  second_size  : Z;
  second_addr  : Z;
  tags_addr    : Z;
  page_size    : Z;
  cmdline      : list ascii;
  reserved     : list ascii
}.

Definition set_kernel_size (h : boot_img_hdr) (v : Z) : boot_img_hdr :=
  mk_hdr (magic h) v (kernel_addr h) (ramdisk_size h) (ramdisk_addr h)
         (second_size h) (second_addr h) (tags_addr h) (page_size h)
         (cmdline h) (reserved h).

Definition set_kernel_addr (h : boot_img_hdr) (v : Z) : boot_img_hdr :=
  mk_hdr (magic h) (kernel_size h) v (ramdisk_size h) (ramdisk_addr h)
         (second_size h) (second_addr h) (tags_addr h) (page_size h)
         (cmdline h) (reserved h).

Definition set_ramdisk_size (h : boot_img_hdr) (v : Z) : boot_img_hdr :=
  mk_hdr (magic h) (kernel_size h) (kernel_addr h) v (ramdisk_addr h)
         (second_size h) (second_addr h) (tags_addr h) (page_size h)
         (cmdline h) (reserved h).

Definition set_ramdisk_addr (h : boot_img_hdr) (v : Z) : boot_img_hdr :=
  mk_hdr (magic h) (kernel_size h) (kernel_addr h) (ramdisk_size h) v
         (second_size h) (second_addr h) (tags_addr h) (page_size h)
         (cmdline h) (reserved h).

Definition set_second_size (h : boot_img_hdr) (v : Z) : boot_img_hdr :=
  mk_hdr (magic h) (kernel_size h) (kernel_addr h) (ramdisk_size h)
         (ramdisk_addr h) v (second_addr h) (tags_addr h) (page_size h)
         (cmdline h) (reserved h).

Definition set_second_addr (h : boot_img_hdr) (v : Z) : boot_img_hdr :=
  mk_hdr (magic h) (kernel_size h) (kernel_addr h) (ramdisk_size h)
         (ramdisk_addr h) (second_size h) v (tags_addr h) (page_size h)
         (cmdline h) (reserved h).

Definition set_tags_addr (h : boot_img_hdr) (v : Z) : boot_img_hdr :=
  mk_hdr (magic h) (kernel_size h) (kernel_addr h) (ramdisk_size h)
         (ramdisk_addr h) (second_size h) (second_addr h) v (page_size h)
         (cmdline h) (reserved h).

Definition set_page_size (h : boot_img_hdr) (v : Z) : boot_img_hdr :=
  mk_hdr (magic h) (kernel_size h) (kernel_addr h) (ramdisk_size h)
         (ramdisk_addr h) (second_size h) (second_addr h) (tags_addr h) v
         (cmdline h) (reserved h).

Definition set_cmdline (h : boot_img_hdr) (v : list ascii) : boot_img_hdr :=
  mk_hdr (magic h) (kernel_size h) (kernel_addr h) (ramdisk_size h)
         (ramdisk_addr h) (second_size h) (second_addr h) (tags_addr h)
         (page_size h) v (reserved h).

Definition set_magic (h : boot_img_hdr) (v : list ascii) : boot_img_hdr :=
  mk_hdr v (kernel_size h) (kernel_addr h) (ramdisk_size h)
         (ramdisk_addr h) (second_size h) (second_addr h) (tags_addr h)
         (page_size h) (cmdline h) (reserved h).

(** The numeric fields of a header are [unsigned]. *)
Definition hdr_u32 (h : boot_img_hdr) : Prop :=
  is_u32 (kernel_size h) /\ is_u32 (kernel_addr h) /\
  is_u32 (ramdisk_size h) /\ is_u32 (ramdisk_addr h) /\
  is_u32 (second_size h) /\ is_u32 (second_addr h) /\
  is_u32 (tags_addr h) /\ is_u32 (page_size h).

(** ** Segment offsets and the total size, as each function computes them *)

(** [check_boot_img_header], lines 226-230, and [update_images],
    lines 528-531: [n], [m], [o] and [total_size]. *)
Definition total_size (psize ksize rsize ssize : Z) : Z :=
  let n := npages ksize psize in
  let m := npages rsize psize in
  let o := npages ssize psize in
  u32 ((1 + n + m + o) * psize).

Definition hdr_total_size (h : boot_img_hdr) : Z :=
  total_size (page_size h) (kernel_size h) (ramdisk_size h) (second_size h).

(** [update_images], lines 427-432. *)
Definition update_images_roffset (h : boot_img_hdr) : Z :=
  let n := npages (kernel_size h) (page_size h) in
  u32 ((1 + n) * page_size h).

Definition update_images_soffset (h : boot_img_hdr) : Z :=
  let n := npages (kernel_size h) (page_size h) in
  let m := npages (ramdisk_size h) (page_size h) in
  u32 ((1 + n + m) * page_size h).

(** [write_bootimg], lines 551-552, 577 and 590. *)
Definition write_bootimg_roffset (h : boot_img_hdr) : Z :=
  let n := npages (kernel_size h) (page_size h) in
  u32 ((1 + n) * page_size h).

Definition write_bootimg_soffset (h : boot_img_hdr) : Z :=
  let n := npages (kernel_size h) (page_size h) in
  let m := npages (ramdisk_size h) (page_size h) in
  u32 ((1 + n + m) * page_size h).

(** [extract_ramdisk], lines 664-665. *)
Definition extract_ramdisk_roffset (h : boot_img_hdr) : Z :=
  let n := npages (kernel_size h) (page_size h) in
  u32 ((1 + n) * page_size h).

(** [extract_second], lines 702-703: one page count for the sum
    [rsize + ksize], not one per segment. *)
Definition extract_second_soffset (h : boot_img_hdr) : Z :=
  let psize := page_size h in
  let n := u32 (ramdisk_size h + kernel_size h + psize - 1) / psize in
  u32 ((1 + n) * psize).

(** The layout of the specification, in exact arithmetic. *)
Definition ceil_div (a b : Z) : Z := (a + b - 1) / b.

Definition spec_ramdisk_offset (psize ksize : Z) : Z :=
  (1 + ceil_div ksize psize) * psize.

Definition spec_second_offset (psize ksize rsize : Z) : Z :=
  (1 + ceil_div ksize psize + ceil_div rsize psize) * psize.

Definition spec_total_size (psize ksize rsize ssize : Z) : Z :=
  (1 + ceil_div ksize psize + ceil_div rsize psize + ceil_div ssize psize) * psize.

(** The page-aligned layout fits [unsigned] arithmetic: nothing wraps. *)
Definition layout_fits (psize ksize rsize ssize : Z) : Prop :=
  spec_total_size psize ksize rsize ssize < 2 ^ 32.

(** ** C strings and the libc functions the tool calls *)

Definition NUL : ascii := Ascii.zero.

(** A string literal of the source. *)
Definition cs (s : string) : list ascii := list_ascii_of_string s.

Definition code (c : ascii) : Z := Z.of_N (N_of_ascii c).

Definition mem_char (c : ascii) (set : list ascii) : bool :=
  existsb (Ascii.eqb c) set.

(** The string a [char] buffer holds: its bytes before the first NUL. *)
Fixpoint cstr (buf : list ascii) : list ascii :=
  match buf with
  | [] => []
  | c :: r => if Ascii.eqb c NUL then [] else c :: cstr r
  end.

Fixpoint strspn (s accept : list ascii) : nat :=
  match s with
  | c :: r => if mem_char c accept then S (strspn r accept) else O
  | [] => O
  end.

Fixpoint strcspn (s reject : list ascii) : nat :=
  match s with
  | c :: r => if mem_char c reject then O else S (strcspn r reject)
  | [] => O
  end.

(** [strchr]: the index of the first occurrence, [None] for a null result. *)
Fixpoint strchr (s : list ascii) (c : ascii) : option nat :=
  match s with
  | [] => None
  | x :: r => if Ascii.eqb x c then Some O else option_map S (strchr r c)
  end.

(** [strcmp] and [strncmp]; the end of a list is the terminating NUL. *)
Fixpoint strcmp (a b : list ascii) : Z :=
  match a, b with
  | [], [] => 0
  | [], cb :: _ => 0 - code cb
  | ca :: _, [] => code ca
  | ca :: a', cb :: b' =>
      if Ascii.eqb ca cb then strcmp a' b' else code ca - code cb
  end.

Fixpoint strncmp (a b : list ascii) (n : nat) : Z :=
  match n with
  | O => 0
  | S n' =>
      let ca := hd NUL a in
      let cb := hd NUL b in
      if negb (Ascii.eqb ca cb) then code ca - code cb
      else if Ascii.eqb ca NUL then 0
      else strncmp (tl a) (tl b) n'
  end.

Definition strlen (s : list ascii) : Z := Z.of_nat (List.length s).

Definition isspace (c : ascii) : bool :=
  let n := code c in (n =? 32) || ((9 <=? n) && (n <=? 13)).

Definition digit_of (c : ascii) : option Z :=
  let n := code c in
  if (48 <=? n) && (n <=? 57) then Some (n - 48)
  else if (97 <=? n) && (n <=? 122) then Some (n - 97 + 10)
  else if (65 <=? n) && (n <=? 90) then Some (n - 65 + 10)
  else None.

(** The longest prefix of digits of the base, accumulated exactly. *)
Fixpoint digits_value (base : Z) (s : list ascii) (acc : Z) : Z :=
  match s with
  | c :: r =>
      match digit_of c with
      | Some d => if d <? base then digits_value base r (acc * base + d) else acc
      | None => acc
      end
  | [] => acc
  end.

Fixpoint skip_space (s : list ascii) : list ascii :=
  match s with
  | c :: r => if isspace c then skip_space r else s
  | [] => []
  end.

(** The C data model: [long], [unsigned long] and [size_t] are [LONG_BITS]
    wide (32 on ILP32 targets, 64 on LP64 ones); [off_t] holds every file
    size. *)
Class c_abi : Type := { LONG_BITS : Z }.

Definition ilp32 : c_abi := {| LONG_BITS := 32 |}.
Definition lp64 : c_abi := {| LONG_BITS := 64 |}.

Definition abi_ok (A : c_abi) : Prop := LONG_BITS = 32 \/ LONG_BITS = 64.

Definition ULONG_MAX {A : c_abi} : Z := 2 ^ LONG_BITS - 1.

(** [strtoul(s, NULL, 0)]: white space, an optional sign, the base from the
    prefix ([0x] hexadecimal, [0] octal, decimal otherwise), then digits;
    [ULONG_MAX] when the value does not fit, the negation in
    [unsigned long] after a minus sign, 0 when there is no digit. *)
Definition strtoul {A : c_abi} (s : list ascii) : Z :=
  let s1 := skip_space s in
  let '(neg, s2) :=
    match s1 with
    | "-"%char :: r => (true, r)
    | "+"%char :: r => (false, r)
    | _ => (false, s1)
    end in
  let v :=
    match s2 with
    | "0"%char :: x :: r =>
        if Ascii.eqb x "x" || Ascii.eqb x "X" then digits_value 16 r 0
        else digits_value 8 (x :: r) 0
    | _ => digits_value 10 s2 0
    end in
  if ULONG_MAX <? v then ULONG_MAX
  else if neg then (- v) mod 2 ^ LONG_BITS else v.

(** [printf("%x")] of an [unsigned]: lower-case digits, no leading zero. *)
Definition hex_char (d : Z) : ascii :=
  nth (Z.to_nat d) (cs "0123456789abcdef") "0"%char.

Fixpoint hex_digits (fuel : nat) (v : Z) (acc : list ascii) : list ascii :=
  match fuel with
  | O => acc
  | S f =>
      let acc' := hex_char (v mod 16) :: acc in
      if v / 16 =? 0 then acc' else hex_digits f (v / 16) acc'
  end.

Definition fmt_x (v : Z) : list ascii := hex_digits 8 (u32 v) [].

(** [printf("%u")] / ["%d"] of a small non-negative number, for messages. *)
Fixpoint dec_digits (fuel : nat) (v : Z) (acc : list ascii) : list ascii :=
  match fuel with
  | O => acc
  | S f =>
      let acc' := hex_char (v mod 10) :: acc in
      if v / 10 =? 0 then acc' else dec_digits f (v / 10) acc'
  end.

Definition fmt_u (v : Z) : list ascii := dec_digits 20 v [].

Definition TAB : ascii := "009"%char.
Definition LF : ascii := "010"%char.

(** The set [" \t"] and the set [" =\t"] of [update_header_entry]. *)
Definition blanks : list ascii := [" "%char; TAB].
Definition blanks_eq : list ascii := [" "%char; "="%char; TAB].

(** ** What [bootimg.h] declares *)

(** [bootimg.h] is not among the sources; its macros, the size of the
    header record and the object representation of the record are
    parameters of the development. *)
Class bootimg_h : Type := {
  BOOT_MAGIC : list ascii;
  BOOT_MAGIC_SIZE : nat;
  BOOT_ARGS_SIZE : Z;
  sizeof_hdr : Z;
  hdr_bytes : boot_img_hdr -> list ascii;
  hdr_of_bytes : list ascii -> boot_img_hdr
}.

(** The tag fills its field and has no NUL inside; the command line field
    and the record have a size an [unsigned] holds. *)
Definition bootimg_h_ok (B : bootimg_h) : Prop :=
  List.length BOOT_MAGIC = BOOT_MAGIC_SIZE /\
  Forall (fun c => c <> NUL) BOOT_MAGIC /\
  0 < BOOT_ARGS_SIZE < 2 ^ 32 /\
  0 < sizeof_hdr < 2 ^ 32.

(** ** The program state *)

(** How the process ends when it does not return from [main]:
    [abort_perror], [abort_printf], or a fault of the C machine (a null or
    out-of-bounds access, a division by zero). *)
Inductive abort : Type :=
| Perror (str : list ascii)
| Printf (msg : list ascii)
| Fault.

Inductive result (A : Type) : Type :=
| Ok (a : A)
| Abort (e : abort).
Arguments Ok {A} a.
Arguments Abort {A} e.

(** A stdio stream on a named file. *)
Record FILE : Type := mk_FILE {
  f_path : string;
  f_pos : Z;
  f_readable : bool;
  f_writable : bool
}.

Record t_akbootimg : Type := mk_img {
  size          : Z;
  is_blkdev     : bool;
  fname         : string;
  config_fname  : option string;
  kernel_fname  : option string;
  ramdisk_fname : option string;
  second_fname  : option string;
  stream        : option FILE;
  header        : boot_img_hdr;
  kernel        : option (list ascii);
  ramdisk       : option (list ascii);
  second        : option (list ascii)
}.

Definition set_size (i : t_akbootimg) (v : Z) : t_akbootimg :=
  mk_img v (is_blkdev i) (fname i) (config_fname i) (kernel_fname i)
         (ramdisk_fname i) (second_fname i) (stream i) (header i)
         (kernel i) (ramdisk i) (second i).

Definition set_is_blkdev (i : t_akbootimg) (v : bool) : t_akbootimg :=
  mk_img (size i) v (fname i) (config_fname i) (kernel_fname i)
         (ramdisk_fname i) (second_fname i) (stream i) (header i)
         (kernel i) (ramdisk i) (second i).

Definition set_stream (i : t_akbootimg) (v : option FILE) : t_akbootimg :=
  mk_img (size i) (is_blkdev i) (fname i) (config_fname i) (kernel_fname i)
         (ramdisk_fname i) (second_fname i) v (header i)
         (kernel i) (ramdisk i) (second i).

Definition set_header (i : t_akbootimg) (v : boot_img_hdr) : t_akbootimg :=
  mk_img (size i) (is_blkdev i) (fname i) (config_fname i) (kernel_fname i)
         (ramdisk_fname i) (second_fname i) (stream i) v
         (kernel i) (ramdisk i) (second i).

Definition set_kernel (i : t_akbootimg) (v : option (list ascii)) : t_akbootimg :=
  mk_img (size i) (is_blkdev i) (fname i) (config_fname i) (kernel_fname i)
         (ramdisk_fname i) (second_fname i) (stream i) (header i)
         v (ramdisk i) (second i).

Definition set_ramdisk (i : t_akbootimg) (v : option (list ascii)) : t_akbootimg :=
  mk_img (size i) (is_blkdev i) (fname i) (config_fname i) (kernel_fname i)
         (ramdisk_fname i) (second_fname i) (stream i) (header i)
         (kernel i) v (second i).

Definition set_second (i : t_akbootimg) (v : option (list ascii)) : t_akbootimg :=
  mk_img (size i) (is_blkdev i) (fname i) (config_fname i) (kernel_fname i)
         (ramdisk_fname i) (second_fname i) (stream i) (header i)
         (kernel i) (ramdisk i) v.

(** ** [check_boot_img_header] *)

(** The lines printed on [stderr] and the value returned. *)
Definition check_boot_img_header {B : bootimg_h} (img : t_akbootimg)
  : list (list ascii) * Z :=
  let h := header img in
  let who := cs (fname img) in
  if negb (strncmp (magic h) BOOT_MAGIC BOOT_MAGIC_SIZE =? 0) then
    ([who ++ cs ": no Android Magic Value"], 1)
  else if kernel_size h =? 0 then
    ([who ++ cs ": kernel size is null"], 1)
  else
    let diag :=
      if ramdisk_size h =? 0 then [who ++ cs ": ramdisk size is null"] else [] in
    let page_size := page_size h in
    if page_size =? 0 then
      (diag ++ [who ++ cs ": Image page size is null"], 1)
    else
      let n := npages (kernel_size h) page_size in
      let m := npages (ramdisk_size h) page_size in
      let o := npages (second_size h) page_size in
      let total_size := u32 ((1 + n + m + o) * page_size) in
      if size img <? total_size then
        (diag ++ [who ++ cs ": sizes mismatches in boot image"], 1)
      else (diag, 0).

(** ** [update_header_entry] *)

Definition bad_config_entry {A : Type} (token : list ascii) : result A :=
  Abort (Printf (token ++ cs ": bad config entry" ++ [LF])).

(** Lines 336-366: the value as a number, then the chain of comparisons
    on the token. *)
Definition apply_entry {A : c_abi} {B : bootimg_h}
    (img : t_akbootimg) (token value : list ascii) : result t_akbootimg :=
  let valuenum := u32 (strtoul value) in
  let h := header img in
  if strcmp token (cs "cmdline") =? 0 then
    let len := u32 (strlen value) in
    if BOOT_ARGS_SIZE <=? len then
      Abort (Printf (cs "cmdline length (" ++ fmt_u len ++
                     cs ") is too long (max " ++
                     fmt_u (BOOT_ARGS_SIZE - 1) ++ cs ")"))
    else
      Ok (set_header img
            (set_cmdline h
               (value ++ repeat NUL (Z.to_nat (BOOT_ARGS_SIZE - len)))))
  else if strncmp token (cs "bootsize") 8 =? 0 then
    if is_blkdev img && negb (size img =? valuenum) then
      Abort (Printf (cs (fname img) ++
               cs ": cannot change Boot Image size for a block device" ++ [LF]))
    else Ok (set_size img valuenum)
  else if strncmp token (cs "pagesize") 8 =? 0 then
    Ok (set_header img (set_page_size h valuenum))
  else if strncmp token (cs "kerneladdr") 10 =? 0 then
    Ok (set_header img (set_kernel_addr h valuenum))
  else if strncmp token (cs "ramdiskaddr") 11 =? 0 then
    Ok (set_header img (set_ramdisk_addr h valuenum))
  else if strncmp token (cs "secondaddr") 10 =? 0 then
    Ok (set_header img (set_second_addr h valuenum))
  else if strncmp token (cs "tagsaddr") 8 =? 0 then
    Ok (set_header img (set_tags_addr h valuenum))
  else bad_config_entry token.

(** Lines 316-334 cut the line in place: at the newline, then into the
    token and the value around the [=] sign.  Until [*endtoken] is set,
    [token] runs to the end of the line. *)
Definition update_header_entry {A : c_abi} {B : bootimg_h}
    (img : t_akbootimg) (cmd : list ascii) : result t_akbootimg :=
  let cmd := cstr cmd in
  let cmd := match strchr cmd LF with Some i => firstn i cmd | None => cmd end in
  let p := skipn (strspn cmd blanks) cmd in
  let token := p in
  let endtoken := strcspn p blanks_eq in
  let p := skipn endtoken p in
  let p := skipn (strspn p blanks) p in
  match p with
  | "="%char :: p =>
      let value := skipn (strspn p blanks) p in
      apply_entry img (firstn endtoken token) value
  | _ => bad_config_entry token
  end.

(** [getline] over a whole text: each line keeps its newline; a last line
    without one is still a line. *)
Fixpoint getlines (cur : list ascii) (s : list ascii) : list (list ascii) :=
  match s with
  | [] => match cur with [] => [] | _ => [rev cur] end
  | c :: r =>
      if Ascii.eqb c LF then rev (c :: cur) :: getlines [] r
      else getlines (c :: cur) r
  end.

(** The [while (getline ...) update_header_entry(img, line)] loop. *)
Fixpoint update_header_lines {A : c_abi} {B : bootimg_h}
    (img : t_akbootimg) (lines : list (list ascii)) : result t_akbootimg :=
  match lines with
  | [] => Ok img
  | l :: ls =>
      match update_header_entry img l with
      | Ok img' => update_header_lines img' ls
      | Abort e => Abort e
      end
  end.

(** ** [write_bootimg_config]: the text written to the config file *)

Definition config_line_x (key : string) (v : Z) : list ascii :=
  cs key ++ cs " = 0x" ++ fmt_x v ++ [LF].

Definition config_line_cmdline (h : boot_img_hdr) : list ascii :=
  cs "cmdline = " ++ cstr (cmdline h) ++ [LF].

Definition bootimg_config_lines (h : boot_img_hdr) : list (list ascii) :=
  [ config_line_x "pagesize" (page_size h);
    config_line_x "kerneladdr" (kernel_addr h);
    config_line_x "ramdiskaddr" (ramdisk_addr h);
    config_line_x "secondaddr" (second_addr h);
    config_line_x "tagsaddr" (tags_addr h);
    config_line_cmdline h ].

Definition bootimg_config_text (h : boot_img_hdr) : list ascii :=
  List.concat (bootimg_config_lines h).

(** ** Files, streams and the monad of the I/O functions *)

(** A regular file: its length and its bytes.  A file may be sparse, so
    the bytes are a function of the offset; only offsets below the length
    are ever read. *)
Record file : Type := mk_file {
  f_len : Z;
  f_data : Z -> ascii
}.

Definition empty_file : file := mk_file 0 (fun _ => NUL).

Definition file_bytes (f : file) : list ascii :=
  map (fun i => f_data f (Z.of_nat i)) (seq 0 (Z.to_nat (f_len f))).

(** One item of [n] bytes at [off]: [None] when [n] is 0 or the file ends
    before the item does ([fread] then returns 0, not 1). *)
Definition file_read (f : file) (off n : Z) : option (list ascii) :=
  if (0 <? n) && (off + n <=? f_len f) then
    Some (map (fun i => f_data f (off + Z.of_nat i)) (seq 0 (Z.to_nat n)))
  else None.

(** [count] bytes of [src] written at [off]; a gap past the old end reads
    as zero bytes. *)
Definition file_write (f : file) (off count : Z) (src : Z -> ascii) : file :=
  if count <=? 0 then f
  else mk_file (Z.max (f_len f) (off + count))
         (fun i =>
            if (off <=? i) && (i <? off + count) then src (i - off)
            else if i <? f_len f then f_data f i else NUL).

(** [ftruncate]: cut, or extend with zero bytes. *)
Definition file_truncate (f : file) (n : Z) : file :=
  mk_file n (fun i => if i <? Z.min (f_len f) n then f_data f i else NUL).

Definition filesystem : Type := string -> option file.

Definition fs_set (fs : filesystem) (path : string) (f : file) : filesystem :=
  fun p => if String.eqb p path then Some f else fs p.

(** A run ends with a value or with an abort; either way the files are in
    some state. *)
Inductive outcome (A : Type) : Type :=
| Done (a : A) (fs : filesystem)
| Aborted (e : abort) (fs : filesystem).
Arguments Done {A} a fs.
Arguments Aborted {A} e fs.

Definition M (A : Type) : Type := filesystem -> outcome A.

Definition ret {A : Type} (a : A) : M A := fun fs => Done a fs.

Definition bind {A B : Type} (c : M A) (k : A -> M B) : M B :=
  fun fs =>
    match c fs with
    | Done a fs' => k a fs'
    | Aborted e fs' => Aborted e fs'
    end.

Notation "x <- c ;; k" := (bind c (fun x => k))
  (at level 61, c at next level, right associativity).

Definition abort_perror {A : Type} (str : list ascii) : M A :=
  fun fs => Aborted (Perror str) fs.

Definition abort_printf {A : Type} (msg : list ascii) : M A :=
  fun fs => Aborted (Printf msg) fs.

Definition fault {A : Type} : M A := fun fs => Aborted Fault fs.

Definition lift {A : Type} (r : result A) : M A :=
  match r with
  | Ok a => ret a
  | Abort e => fun fs => Aborted e fs
  end.

Definition the_stream (img : t_akbootimg) : M FILE :=
  match stream img with
  | Some st => ret st
  | None => fault
  end.

Inductive fmode : Type := Mode_r | Mode_rplus | Mode_w.

(** [fopen]: ["w"] creates the file or truncates it to length zero;
    ["r"] and ["r+"] need the file to exist. *)
Definition open_bootimg (img : t_akbootimg) (mode : fmode) : M t_akbootimg :=
  fun fs =>
    match mode with
    | Mode_w =>
        Done (set_stream img (Some (mk_FILE (fname img) 0 false true)))
             (fs_set fs (fname img) empty_file)
    | Mode_r =>
        match fs (fname img) with
        | Some _ => Done (set_stream img (Some (mk_FILE (fname img) 0 true false))) fs
        | None => Aborted (Perror (cs (fname img))) fs
        end
    | Mode_rplus =>
        match fs (fname img) with
        | Some _ => Done (set_stream img (Some (mk_FILE (fname img) 0 true true))) fs
        | None => Aborted (Perror (cs (fname img))) fs
        end
    end.

(** [fseek(stream, off, SEEK_SET)] with [off] an [unsigned] converted to
    [long]: a value [long] cannot hold arrives negative and is refused. *)
Definition fseek {A : c_abi} (who : string) (st : FILE) (off : Z) : M FILE :=
  if off <? 2 ^ (LONG_BITS - 1) then
    ret (mk_FILE (f_path st) off (f_readable st) (f_writable st))
  else abort_perror (cs who).

(** [rb = fread(buf, sz, 1, stream); if ((rb!=1) || ferror(stream))
    abort_perror(who);]: the item read, the stream advanced.  A whole item
    is read without reaching past the end of the file, so the [feof] test
    that follows in the source finds the flag clear. *)
Definition fread (who : string) (st : FILE) (sz : Z) : M (list ascii * FILE) :=
  fun fs =>
    if f_readable st then
      match fs (f_path st) with
      | Some f =>
          match file_read f (f_pos st) sz with
          | Some buf =>
              Done (buf, mk_FILE (f_path st) (f_pos st + sz)
                                 (f_readable st) (f_writable st)) fs
          | None => Aborted (Perror (cs who)) fs
          end
      | None => Aborted (Perror (cs who)) fs
      end
    else Aborted (Perror (cs who)) fs.

(** [fwrite(buf, count, 1, stream); if (ferror(stream)) abort_perror(who);]
    from a buffer of [buflen] bytes: nothing is written for a count of 0;
    a count beyond the buffer reads outside it. *)
Definition fwrite (who : string) (st : FILE) (src : Z -> ascii)
    (buflen count : Z) : M FILE :=
  fun fs =>
    if count =? 0 then Done st fs
    else if buflen <? count then Aborted Fault fs
    else if f_writable st then
      match fs (f_path st) with
      | Some f =>
          Done (mk_FILE (f_path st) (f_pos st + count)
                        (f_readable st) (f_writable st))
               (fs_set fs (f_path st) (file_write f (f_pos st) count src))
      | None => Aborted (Perror (cs who)) fs
      end
    else Aborted (Perror (cs who)) fs.

Definition of_buf (buf : list ascii) : Z -> ascii :=
  fun i => nth (Z.to_nat i) buf NUL.

(** The [calloc]ed page of zero bytes. *)
Definition of_padding : Z -> ascii := fun _ => NUL.

Definition ftruncate (st : FILE) (n : Z) : M unit :=
  fun fs =>
    match fs (f_path st) with
    | Some f => Done tt (fs_set fs (f_path st) (file_truncate f n))
    | None => Done tt fs
    end.

(** The block [fopen(name, "r"); fstat; size = st.st_size; malloc(size);
    fread(buf, size, 1, stream); fclose] that [update_images] repeats for
    each replacement file: the size as an [unsigned], and the bytes.
    [malloc] is taken to return a buffer; where it may return NULL (a size
    of 0) the [fread] that follows ends the run as well. *)
Definition load_file (name : string) : M (Z * list ascii) :=
  fun fs =>
    match fs name with
    | Some f =>
        let sz := u32 (f_len f) in
        match file_read f 0 sz with
        | Some buf => Done (sz, buf) fs
        | None => Aborted (Perror (cs name)) fs
        end
    | None => Aborted (Perror (cs name)) fs
    end.

(** [fopen(name, "w"); fwrite(buf, sz, 1, file); fclose] of the
    extraction functions. *)
Definition store_file (name : string) (buf : list ascii) : M unit :=
  fun fs =>
    Done tt (fs_set fs name (mk_file (Z.of_nat (List.length buf)) (of_buf buf))).

(** ** [read_header] and [update_header] *)

Definition read_header {B : bootimg_h} (img : t_akbootimg) : M t_akbootimg :=
  st <- the_stream img ;;
  r <- fread (fname img) st sizeof_hdr ;;
  let img := set_stream (set_header img (hdr_of_bytes (fst r))) (Some (snd r)) in
  fun fs =>
    match fs (fname img) with
    | Some f =>
        let img := set_is_blkdev (set_size img (u32 (f_len f))) false in
        if snd (check_boot_img_header img) =? 0 then Done img fs
        else Aborted (Printf (cs (fname img) ++
                        cs ": not a valid Android Boot Image." ++ [LF])) fs
    | None => Aborted (Perror (cs (fname img))) fs
    end.

(** [config_args] is the global the command line fills. *)
Definition update_header {A : c_abi} {B : bootimg_h}
    (config_args : list ascii) (img : t_akbootimg) : M t_akbootimg :=
  img <- match config_fname img with
         | Some name =>
             fun fs =>
               match fs name with
               | Some f => lift (update_header_lines img (getlines [] (file_bytes f))) fs
               | None => Aborted (Perror (cs name)) fs
               end
         | None => ret img
         end ;;
  if strlen config_args =? 0 then ret img
  else lift (update_header_lines img (getlines [] config_args)).

(** ** [update_images] *)

(** The carry-over block: [fseek] to the offset in the image, then one
    [fread] of the whole segment. *)
Definition carry_over {A : c_abi} (img : t_akbootimg) (off sz : Z)
  : M (list ascii * t_akbootimg) :=
  st <- the_stream img ;;
  st <- fseek (fname img) st off ;;
  r <- fread (fname img) st sz ;;
  ret (fst r, set_stream img (Some (snd r))).

(** Lines 419-526: the offsets in the image as it is, then each segment
    from its replacement file or carried over from the image. *)
Definition resolve_segments {A : c_abi} (img : t_akbootimg) : M t_akbootimg :=
  let page_size := page_size (header img) in
  let rsize := ramdisk_size (header img) in
  let ssize := second_size (header img) in
  if page_size =? 0 then
    abort_printf (cs (fname img) ++ cs ": Image page size is null" ++ [LF])
  else
    let roffset := update_images_roffset (header img) in
    let soffset := update_images_soffset (header img) in
    img <- match kernel_fname img with
           | Some name =>
               r <- load_file name ;;
               ret (set_kernel
                      (set_header img (set_kernel_size (header img) (fst r)))
                      (Some (snd r)))
           | None => ret img
           end ;;
    img <- match ramdisk_fname img with
           | Some name =>
               r <- load_file name ;;
               ret (set_ramdisk
                      (set_header img (set_ramdisk_size (header img) (fst r)))
                      (Some (snd r)))
           | None =>
               match kernel img with
               | Some _ =>
                   r <- carry_over img roffset rsize ;;
                   ret (set_ramdisk (snd r) (Some (fst r)))
               | None => ret img
               end
           end ;;
    match second_fname img with
    | Some name =>
        r <- load_file name ;;
        ret (set_second
               (set_header img (set_second_size (header img) (fst r)))
               (Some (snd r)))
    | None =>
        match ramdisk img with
        | Some _ =>
            if second_size (header img) =? 0 then ret img
            else
              r <- carry_over img soffset ssize ;;
              ret (set_second (snd r) (Some (fst r)))
        | None => ret img
        end
    end.

(** Lines 528-536 follow: the total size of the header as it is now,
    against the size of the image. *)
Definition update_images {A : c_abi} (img : t_akbootimg) : M t_akbootimg :=
  let page_size := page_size (header img) in
  img <- resolve_segments img ;;
  let total_size :=
    total_size page_size (kernel_size (header img))
               (ramdisk_size (header img)) (second_size (header img)) in
  if size img =? 0 then ret (set_size img total_size)
  else if size img <? total_size then
    abort_printf (cs (fname img) ++
                  cs ": updated is too big for the Boot Image (" ++
                  fmt_u total_size ++ cs " vs " ++ fmt_u (size img) ++
                  cs " bytes)" ++ [LF])
  else ret img.

(** ** [write_bootimg] *)

(** [psize - sizeof(img->header)]: [psize] is converted to [size_t], the
    type of [sizeof], and the difference is taken there. *)
Definition header_padding_len {A : c_abi} {B : bootimg_h} (h : boot_img_hdr) : Z :=
  (page_size h - sizeof_hdr) mod 2 ^ LONG_BITS.

(** [psize - (sz % psize)], in [unsigned]. *)
Definition segment_padding_len (psize sz : Z) : Z := u32 (psize - sz mod psize).

(** One segment: the buffer, then the padding. *)
Definition write_segment (who : string) (st : FILE) (buf : option (list ascii))
    (psize sz : Z) : M FILE :=
  match buf with
  | Some b =>
      st <- fwrite who st (of_buf b) (Z.of_nat (List.length b)) sz ;;
      fwrite who st of_padding psize (segment_padding_len psize sz)
  | None => fault
  end.

(** A page size of 0 ends the process at the first division. *)
Definition write_bootimg {A : c_abi} {B : bootimg_h} (img : t_akbootimg) : M unit :=
  let h := header img in
  let psize := page_size h in
  let who := fname img in
  if psize =? 0 then fault
  else
    st <- the_stream img ;;
    st <- fseek who st 0 ;;
    st <- fwrite who st (of_buf (hdr_bytes h)) sizeof_hdr sizeof_hdr ;;
    st <- fwrite who st of_padding psize (header_padding_len h) ;;
    st <- match kernel img with
          | Some _ => write_segment who st (kernel img) psize (kernel_size h)
          | None => ret st
          end ;;
    st <- match ramdisk img with
          | Some _ =>
              st <- fseek who st (write_bootimg_roffset h) ;;
              write_segment who st (ramdisk img) psize (ramdisk_size h)
          | None => ret st
          end ;;
    st <- (if second_size h =? 0 then ret st
           else
             st <- fseek who st (write_bootimg_soffset h) ;;
             write_segment who st (second img) psize (second_size h)) ;;
    ftruncate st (size img).

(** ** The extraction functions *)

Definition write_bootimg_config (img : t_akbootimg) : M unit :=
  match config_fname img with
  | Some name => store_file name (bootimg_config_text (header img))
  | None => fault
  end.

Definition extract_kernel {A : c_abi} (img : t_akbootimg) : M t_akbootimg :=
  let psize := page_size (header img) in
  let ksize := kernel_size (header img) in
  r <- carry_over img psize ksize ;;
  match kernel_fname img with
  | Some name => _ <- store_file name (fst r) ;; ret (snd r)
  | None => fault
  end.

Definition extract_ramdisk {A : c_abi} (img : t_akbootimg) : M t_akbootimg :=
  let rsize := ramdisk_size (header img) in
  let roffset := extract_ramdisk_roffset (header img) in
  r <- carry_over img roffset rsize ;;
  match ramdisk_fname img with
  | Some name => _ <- store_file name (fst r) ;; ret (snd r)
  | None => fault
  end.

(** The buffer is [malloc(ksize)]; a second stage larger than the kernel
    is read past its end. *)
Definition extract_second {A : c_abi} (img : t_akbootimg) : M t_akbootimg :=
  let ksize := kernel_size (header img) in
  let ssize := second_size (header img) in
  if ssize =? 0 then ret img
  else
    let soffset := extract_second_soffset (header img) in
    if ksize <? ssize then fault
    else
      r <- carry_over img soffset ssize ;;
      match second_fname img with
      | Some name => _ <- store_file name (fst r) ;; ret (snd r)
      | None => fault
      end.

(** ** [new_bootimg] and [main] *)

Definition new_bootimg {B : bootimg_h} : t_akbootimg :=
  let zeroed := hdr_of_bytes (repeat NUL (Z.to_nat sizeof_hdr)) in
  mk_img 0 false EmptyString
         (Some "boot.info"%string) (Some "Image"%string)
         (Some "ramdisk.img"%string) (Some "stage2.img"%string)
         None (set_page_size (set_magic zeroed BOOT_MAGIC) 2048)
         None None None.

(** What [parse_args] leaves in the image for [-u] and [-t]. *)
Definition parsed_args {B : bootimg_h} (name : string)
    (config kernel_f ramdisk_f second_f : option string) : t_akbootimg :=
  mk_img 0 false name config kernel_f ramdisk_f second_f
         None (header new_bootimg) None None None.

Inductive command : Type := help | extract | update | create.

(** The calls of the [update] case up to [update_images]. *)
Definition update_steps {A : c_abi} {B : bootimg_h}
    (config_args : list ascii) (bootimg : t_akbootimg) : M t_akbootimg :=
  img <- open_bootimg bootimg Mode_rplus ;;
  img <- read_header img ;;
  img <- update_header config_args img ;;
  update_images img.

(** The calls of the [create] case up to the sanity check; the tool is
    run on regular files, for which [check_if_block_device] does nothing. *)
Definition create_steps {A : c_abi} {B : bootimg_h}
    (config_args : list ascii) (bootimg : t_akbootimg) : M t_akbootimg :=
  img <- open_bootimg bootimg Mode_w ;;
  img <- update_header config_args img ;;
  img <- update_images img ;;
  if snd (check_boot_img_header img) =? 0 then ret img
  else abort_printf (cs (fname img) ++ cs ": Sanity cheks failed").

(** [main] after [parse_args]. *)
Definition main {A : c_abi} {B : bootimg_h} (cmd : command)
    (config_args : list ascii) (bootimg : t_akbootimg) : M unit :=
  match cmd with
  | help => ret tt
  | extract =>
      img <- open_bootimg bootimg Mode_r ;;
      img <- read_header img ;;
      _ <- write_bootimg_config img ;;
      img <- extract_kernel img ;;
      img <- extract_ramdisk img ;;
      _ <- extract_second img ;;
      ret tt
  | update =>
      img <- update_steps config_args bootimg ;;
      write_bootimg img
  | create =>
      match kernel_fname bootimg with
      | None => ret tt
      | Some _ =>
          img <- create_steps config_args bootimg ;;
          write_bootimg img
      end
  end.

(** ** The Android boot image header, version 0

    The record [bootimg.h] of the Android tree declares: an 8 byte tag,
    eight little-endian [unsigned] fields, 24 bytes ([unused], [name]), the
    512 byte command line and the 32 byte [id]; 608 bytes.  The examples
    run on it. *)

Fixpoint le_bytes (n : nat) (v : Z) : list ascii :=
  match n with
  | O => []
  | S k => ascii_of_N (Z.to_N (v mod 256)) :: le_bytes k (v / 256)
  end.

Fixpoint le_value (l : list ascii) : Z :=
  match l with
  | [] => 0
  | c :: r => code c + 256 * le_value r
  end.

(** A field of exactly [n] bytes: cut, or filled with zero bytes. *)
Definition fit (n : nat) (l : list ascii) : list ascii :=
  firstn n (l ++ repeat NUL n).

Definition slice (off n : nat) (l : list ascii) : list ascii :=
  fit n (skipn off l).

Definition aosp_hdr_bytes (h : boot_img_hdr) : list ascii :=
  fit 8 (magic h) ++
  le_bytes 4 (kernel_size h) ++ le_bytes 4 (kernel_addr h) ++
  le_bytes 4 (ramdisk_size h) ++ le_bytes 4 (ramdisk_addr h) ++
  le_bytes 4 (second_size h) ++ le_bytes 4 (second_addr h) ++
  le_bytes 4 (tags_addr h) ++ le_bytes 4 (page_size h) ++
  slice 0 24 (reserved h) ++ fit 512 (cmdline h) ++ slice 24 32 (reserved h).

Definition aosp_hdr_of_bytes (l : list ascii) : boot_img_hdr :=
  mk_hdr (slice 0 8 l)
         (le_value (slice 8 4 l)) (le_value (slice 12 4 l))
         (le_value (slice 16 4 l)) (le_value (slice 20 4 l))
         (le_value (slice 24 4 l)) (le_value (slice 28 4 l))
         (le_value (slice 32 4 l)) (le_value (slice 36 4 l))
         (slice 64 512 l)
         (slice 40 24 l ++ slice 576 32 l).

Definition aosp : bootimg_h := {|
  BOOT_MAGIC := cs "ANDROID!";
  BOOT_MAGIC_SIZE := 8;
  BOOT_ARGS_SIZE := 512;
  sizeof_hdr := 608;
  hdr_bytes := aosp_hdr_bytes;
  hdr_of_bytes := aosp_hdr_of_bytes
|}.

(** ** Concrete files for the examples *)

(** A sparse file given by its length and the chunks it holds. *)
Fixpoint chunk_get (chunks : list (Z * list ascii)) (i : Z) : ascii :=
  match chunks with
  | [] => NUL
  | (off, b) :: r =>
      if (off <=? i) && (i <? off + Z.of_nat (List.length b))
      then of_buf b (i - off) else chunk_get r i
  end.

Definition sparse (len : Z) (chunks : list (Z * list ascii)) : file :=
  mk_file len (chunk_get chunks).

Definition no_files : filesystem := fun _ => None.

Definition mkfs (l : list (string * file)) : filesystem :=
  fold_right (fun p fs => fs_set fs (fst p) (snd p)) no_files l.

(** A header with one byte in each segment and pages of 2048 bytes. *)
Definition hdr_one_byte_each : boot_img_hdr :=
  mk_hdr (cs "ANDROID!") 1 0 1 0 1 0 0 2048 (repeat NUL 512) (repeat NUL 56).

(** An image of 10000 bytes: a 3 byte kernel, a 2 byte ramdisk, no second
    stage, pages of 2048 bytes. *)
Definition hdr_k3_r2 : boot_img_hdr :=
  mk_hdr (cs "ANDROID!") 3 0 2 0 0 0 0 2048 (repeat NUL 512) (repeat NUL 56).

Definition image_k3_r2 : file :=
  sparse 10000 [(0, aosp_hdr_bytes hdr_k3_r2); (2048, cs "KKK"); (4096, cs "RR")].

Definition fs_k3_r2 : filesystem :=
  mkfs [("boot.img"%string, image_k3_r2);
        ("zImage"%string, sparse 5 [(0, cs "NEWKK")])].

Definition img_k3_r2 : t_akbootimg :=
  mk_img 10000 false "boot.img" None None None None None hdr_k3_r2 None None None.

(** The same image without a ramdisk. *)
Definition hdr_k3_r0 : boot_img_hdr :=
  mk_hdr (cs "ANDROID!") 3 0 0 0 0 0 0 2048 (repeat NUL 512) (repeat NUL 56).

Definition image_k3_r0 : file :=
  sparse 10000 [(0, aosp_hdr_bytes hdr_k3_r0); (2048, cs "KKK")].

Definition fs_k3_r0 : filesystem :=
  mkfs [("boot.img"%string, image_k3_r0);
        ("zImage"%string, sparse 5 [(0, cs "NEWKK")])].


(** ** Notions used in the statements *)

(** A character [%x] prints: a digit below 16 and the character
    [strtoul] reads back as that digit. *)
Definition hex_digit_char (c : ascii) : Prop :=
  exists d, 0 <= d < 16 /\ c = hex_char d /\ digit_of c = Some d.

(** The key of a config line: its characters before the first blank or
    [=] sign. *)
Definition entry_key (line : list ascii) : list ascii :=
  firstn (strcspn line blanks_eq) line.

(** A header whose command line begins with a blank. *)
Definition hdr_blank_cmdline : boot_img_hdr :=
  mk_hdr (cs "ANDROID!") 3 0 2 0 0 0 0 2048
         (cs " quiet" ++ repeat NUL 506) (repeat NUL 56).

(** A header with load addresses and a command line. *)
Definition hdr_console : boot_img_hdr :=
  mk_hdr (cs "ANDROID!") 5000 268468224 3000 285212672 0 284164096 268435712 4096
         (cs "console=ttyS0 quiet" ++ repeat NUL 493) (repeat NUL 56).

(** A computation that leaves every file as it is, however it ends. *)
Definition never_writes {T : Type} (c : M T) : Prop :=
  forall fs,
    match c fs with
    | Done _ fs' => fs' = fs
    | Aborted _ fs' => fs' = fs
    end.

(** What config entries leave alone: the names, the stream, the buffers,
    the magic and the three segment sizes. *)
Definition same_segments (i j : t_akbootimg) : Prop :=
  fname j = fname i /\ config_fname j = config_fname i /\
  kernel_fname j = kernel_fname i /\ ramdisk_fname j = ramdisk_fname i /\
  second_fname j = second_fname i /\ stream j = stream i /\
  kernel j = kernel i /\ ramdisk j = ramdisk i /\ second j = second i /\
  magic (header j) = magic (header i) /\
  kernel_size (header j) = kernel_size (header i) /\
  ramdisk_size (header j) = ramdisk_size (header i) /\
  second_size (header j) = second_size (header i).

(** The file holds the bytes [buf] at the offset [off]. *)
Definition holds (f : file) (off : Z) (buf : list ascii) : Prop :=
  0 <= off /\ off + Z.of_nat (List.length buf) <= f_len f /\
  forall i, (i < List.length buf)%nat ->
            f_data f (off + Z.of_nat i) = nth i buf NUL.

(** What resolving the segments leaves alone: the size and the names, the
    file and the mode of the stream, the page size. *)
Definition same_target (i j : t_akbootimg) : Prop :=
  size j = size i /\ fname j = fname i /\
  kernel_fname j = kernel_fname i /\ ramdisk_fname j = ramdisk_fname i /\
  second_fname j = second_fname i /\
  option_map f_path (stream j) = option_map f_path (stream i) /\
  option_map f_writable (stream j) = option_map f_writable (stream i) /\
  page_size (header j) = page_size (header i).

(** An image of 10000 bytes is to be created anew with a declared size of
    1 byte. *)
Definition args_create : t_akbootimg :=
  @parsed_args aosp "boot.img" None (Some "zImage"%string) (Some "zImage"%string) None.

(** The image of 10000 bytes is to be updated with a declared size of
    1 byte and the kernel [zImage]. *)
Definition args_update : t_akbootimg :=
  @parsed_args aosp "boot.img" None (Some "zImage"%string) None None.

(** [args_update] once [read_header] and [update_header] have run. *)
Definition img_update_ready : t_akbootimg :=
  mk_img 10000 false "boot.img" None (Some "zImage"%string) None None
         (Some (mk_FILE "boot.img" 608 true true)) hdr_k3_r2 None None None.

(** [img_update_ready] with a declared size of 1 byte, and what
    [resolve_segments] makes of it: the kernel of 5 bytes from [zImage],
    the ramdisk of 2 bytes carried over from offset 4096. *)
Definition img_update_tight : t_akbootimg := set_size img_update_ready 1.

Definition img_update_resolved : t_akbootimg :=
  mk_img 1 false "boot.img" None (Some "zImage"%string) None None
         (Some (mk_FILE "boot.img" 4098 true true)) (set_kernel_size hdr_k3_r2 5)
         (Some (cs "NEWKK")) (Some (cs "RR")) None.

(** The file a segment write leaves: the buffer at [pos], the padding
    after it. *)
Definition segment_written (f : file) (pos : Z) (b : list ascii) (psize sz : Z) : file :=
  file_write (file_write f pos sz (of_buf b))
             (pos + sz) (segment_padding_len psize sz) of_padding.

(** The file [write_bootimg] leaves, as a function of the file it finds:
    the writes of the function, one after the other. *)
Definition image_after_write {A : c_abi} {B : bootimg_h}
    (img : t_akbootimg) (f : file) : file :=
  let h := header img in
  let psize := page_size h in
  let f := file_write f 0 sizeof_hdr (of_buf (hdr_bytes h)) in
  let f := file_write f sizeof_hdr (header_padding_len h) of_padding in
  let f := match kernel img with
           | Some k => segment_written f (sizeof_hdr + header_padding_len h) k
                                       psize (kernel_size h)
           | None => f
           end in
  let f := match ramdisk img with
           | Some r => segment_written f (write_bootimg_roffset h) r psize (ramdisk_size h)
           | None => f
           end in
  let f := match second img with
           | Some s =>
               if second_size h =? 0 then f
               else segment_written f (write_bootimg_soffset h) s psize (second_size h)
           | None => f
           end in
  file_truncate f (size img).

(** The image of 10000 bytes about to be written with a page size of 256
    bytes, below the 608 bytes of the header. *)
Definition img_small_page : t_akbootimg :=
  set_header img_update_ready (set_page_size hdr_k3_r2 256).

(** ** Observing a run *)

Definition outcome_ok {T : Type} (o : outcome T) : bool :=
  match o with Done _ _ => true | Aborted _ _ => false end.

Definition outcome_value {T : Type} (o : outcome T) : option T :=
  match o with Done t _ => Some t | Aborted _ _ => None end.

Definition outcome_abort {T : Type} (o : outcome T) : option abort :=
  match o with Done _ _ => None | Aborted e _ => Some e end.

Definition outcome_fs {T : Type} (o : outcome T) : filesystem :=
  match o with Done _ fs => fs | Aborted _ fs => fs end.

Definition file_length (fs : filesystem) (name : string) : option Z :=
  option_map f_len (fs name).

Definition file_at (fs : filesystem) (name : string) (off n : Z) : option (list ascii) :=
  match fs name with
  | Some f => file_read f off n
  | None => None
  end.

(** What [update_images] makes of [img_update_ready]. *)
Definition img_update_done : t_akbootimg :=
  mk_img 10000 false "boot.img" None (Some "zImage"%string) None None
         (Some (mk_FILE "boot.img" 4098 true true)) (set_kernel_size hdr_k3_r2 5)
         (Some (cs "NEWKK")) (Some (cs "RR")) None.




(** An image laid out by [write_bootimg] from [hdr_one_byte_each]: the
    kernel byte at 2048, the ramdisk byte at 4096, the second-stage byte
    at 6144; and what [parse_args] leaves for [-x boot.img]. *)
Definition image_one_byte_each : file :=
  sparse 8192 [(0, aosp_hdr_bytes hdr_one_byte_each); (2048, cs "K");
               (4096, cs "R"); (6144, cs "S")].

Definition fs_one_byte_each : filesystem :=
  mkfs [("boot.img"%string, image_one_byte_each)].

Definition args_extract : t_akbootimg :=
  mk_img 0 false "boot.img" (Some "boot.info"%string) (Some "Image"%string)
         (Some "ramdisk.img"%string) (Some "stage2.img"%string)
         None (header (@new_bootimg aosp)) None None None.

(** ** [parse_args] *)

Definition MAX_CONF_LEN : Z := 4096.

(** What the loop over [argv\[3..\]] returns: [help], or the image and the
    [config_args] buffer as the options left them. *)
Inductive parsed : Type :=
| Parsed_help
| Parsed (img : t_akbootimg) (config_args : list ascii).

Definition set_config_fname (i : t_akbootimg) (v : option string) : t_akbootimg :=
  mk_img (size i) (is_blkdev i) (fname i) v (kernel_fname i)
         (ramdisk_fname i) (second_fname i) (stream i) (header i)
         (kernel i) (ramdisk i) (second i).

Definition set_kernel_fname (i : t_akbootimg) (v : option string) : t_akbootimg :=
  mk_img (size i) (is_blkdev i) (fname i) (config_fname i) v
         (ramdisk_fname i) (second_fname i) (stream i) (header i)
         (kernel i) (ramdisk i) (second i).

Definition set_ramdisk_fname (i : t_akbootimg) (v : option string) : t_akbootimg :=
  mk_img (size i) (is_blkdev i) (fname i) (config_fname i) (kernel_fname i)
         v (second_fname i) (stream i) (header i)
         (kernel i) (ramdisk i) (second i).

Definition set_second_fname (i : t_akbootimg) (v : option string) : t_akbootimg :=
  mk_img (size i) (is_blkdev i) (fname i) (config_fname i) (kernel_fname i)
         (ramdisk_fname i) v (stream i) (header i)
         (kernel i) (ramdisk i) (second i).

Definition set_fname (i : t_akbootimg) (v : string) : t_akbootimg :=
  mk_img (size i) (is_blkdev i) v (config_fname i) (kernel_fname i)
         (ramdisk_fname i) (second_fname i) (stream i) (header i)
         (kernel i) (ramdisk i) (second i).

(** The [for] loop of the [update] and [create] cases, lines 160-192, on
    the arguments that are left.  For [-c] the length test is the one of
    the source: [strlen(config_args)+len+1] is a [size_t] sum, [len] an
    [unsigned]; a [strcat] past the 4096 bytes of [config_args] is a
    fault. *)
Fixpoint parse_options {A : c_abi} (args : list string) (img : t_akbootimg)
    (config_args : list ascii) : result parsed :=
  match args with
  | [] => Ok (Parsed img config_args)
  | o :: rest =>
      if String.eqb o "-c" then
        match rest with
        | [] => Ok Parsed_help
        | a :: rest' =>
            let len := u32 (strlen (cs a)) in
            if MAX_CONF_LEN <=? (strlen config_args + len + 1) mod 2 ^ LONG_BITS then
              Abort (Printf (cs "too many config parameters." ++ [LF]))
            else if MAX_CONF_LEN <? strlen config_args + strlen (cs a) + 2 then
              Abort Fault
            else parse_options rest' img (config_args ++ cs a ++ [LF])
        end
      else if String.eqb o "-f" then
        match rest with
        | [] => Ok Parsed_help
        | a :: rest' => parse_options rest' (set_config_fname img (Some a)) config_args
        end
      else if String.eqb o "-k" then
        match rest with
        | [] => Ok Parsed_help
        | a :: rest' => parse_options rest' (set_kernel_fname img (Some a)) config_args
        end
      else if String.eqb o "-r" then
        match rest with
        | [] => Ok Parsed_help
        | a :: rest' => parse_options rest' (set_ramdisk_fname img (Some a)) config_args
        end
      else if String.eqb o "-s" then
        match rest with
        | [] => Ok Parsed_help
        | a :: rest' => parse_options rest' (set_second_fname img (Some a)) config_args
        end
      else Ok Parsed_help
  end.

(** [parse_args]: [argv] with the program name first, the image that
    [new_bootimg] made and the [config_args] buffer; the command, and the
    image and the buffer as they are left. *)
Definition parse_args {A : c_abi} (argv : list string) (img : t_akbootimg)
    (config_args : list ascii) : result (command * t_akbootimg * list ascii) :=
  match argv with
  | _ :: flag :: rest =>
      if String.eqb flag "-h" then Ok (help, img, config_args)
      else if String.eqb flag "-x" then
        match rest with
        | [] => Ok (help, img, config_args)
        | name :: outs =>
            if (4 <? List.length outs)%nat then Ok (help, img, config_args)
            else
              let img := set_fname img name in
              let img := match outs with
                         | a :: _ => set_config_fname img (Some a) | [] => img end in
              let img := match outs with
                         | _ :: a :: _ => set_kernel_fname img (Some a) | _ => img end in
              let img := match outs with
                         | _ :: _ :: a :: _ => set_ramdisk_fname img (Some a) | _ => img end in
              let img := match outs with
                         | _ :: _ :: _ :: a :: _ => set_second_fname img (Some a)
                         | _ => img end in
              Ok (extract, img, config_args)
        end
      else if String.eqb flag "-u" || String.eqb flag "-t" then
        let cmd := if String.eqb flag "-u" then update else create in
        match rest with
        | [] => Ok (help, img, config_args)
        | name :: opts =>
            let img := set_fname img name in
            let img := set_second_fname
                         (set_ramdisk_fname
                            (set_kernel_fname (set_config_fname img None) None) None) None in
            match parse_options opts img config_args with
            | Ok (Parsed img config_args) => Ok (cmd, img, config_args)
            | Ok Parsed_help => Ok (help, img, config_args)
            | Abort e => Abort e
            end
        end
      else Ok (help, img, config_args)
  | _ => Ok (help, img, config_args)
  end.

(** The whole program: [new_bootimg], [parse_args], then the command. *)
Definition program {A : c_abi} {B : bootimg_h} (argv : list string) : M unit :=
  r <- lift (parse_args argv new_bootimg []) ;;
  main (fst (fst r)) (snd r) (snd (fst r)).

(** ** Notions used in the further statements *)

(** A line as [getline] returns it: no newline inside; a newline at the
    end, or no newline at all and at least one character. *)
Definition line_shape (l : list ascii) : Prop :=
  exists body, Forall (fun c => c <> LF) body /\
               (l = body ++ [LF] \/ (l = body /\ body <> [])).

Definition ends_with_newline (l : list ascii) : Prop :=
  exists body, l = body ++ [LF].

(** A value that does not begin like a number for [strtoul]: no white
    space, no sign, no decimal digit first. *)
Definition not_numeric_start (value : list ascii) : Prop :=
  match value with
  | [] => True
  | c :: _ =>
      isspace c = false /\ c <> "-"%char /\ c <> "+"%char /\
      forall d, digit_of c = Some d -> 10 <= d
  end.

(** The command line field holds a terminated string of its size. *)
Definition cmdline_terminated {B : bootimg_h} (h : boot_img_hdr) : Prop :=
  Z.of_nat (List.length (cmdline h)) = BOOT_ARGS_SIZE /\
  strlen (cstr (cmdline h)) < BOOT_ARGS_SIZE.

(** The image of 10000 bytes as a block device of that size. *)
Definition img_blkdev : t_akbootimg := set_is_blkdev img_k3_r2 true.

(** A computation that changes no file but the one named. *)
Definition writes_only {T : Type} (path : string) (c : M T) : Prop :=
  forall fs p, p <> path -> outcome_fs (c fs) p = fs p.

(** Each buffer that is there has the size the header gives its segment. *)
Definition buffers_sized (img : t_akbootimg) : Prop :=
  (forall b, kernel img = Some b -> Z.of_nat (List.length b) = kernel_size (header img)) /\
  (forall b, ramdisk img = Some b -> Z.of_nat (List.length b) = ramdisk_size (header img)) /\
  (forall b, second img = Some b -> Z.of_nat (List.length b) = second_size (header img)).

(** An update of the image of 10000 bytes that replaces nothing. *)
Definition args_update_nothing : t_akbootimg :=
  @parsed_args aosp "boot.img" None None None None.

(** The file [store_file] leaves for a buffer. *)
Definition file_of_bytes (b : list ascii) : file :=
  mk_file (Z.of_nat (List.length b)) (of_buf b).

(** What [parse_args] leaves for [-x boot.img] on the image without
    ramdisk. *)
Definition fs_k3_r0_only : filesystem := mkfs [("boot.img"%string, image_k3_r0)].

(** What the [create] case hands to [write_bootimg] for [args_create] and
    the kernel file of 5 bytes: the kernel and the ramdisk read from that
    file, three pages of 2048 bytes. *)
Definition img_create_done : t_akbootimg :=
  mk_img 6144 false "boot.img" None (Some "zImage"%string) (Some "zImage"%string) None
         (Some (mk_FILE "boot.img" 0 false true))
         (set_ramdisk_size (set_kernel_size (header (@new_bootimg aosp)) 5) 5)
         (Some (cs "NEWKK")) (Some (cs "NEWKK")) None.

(** What [update_images] leaves for [args_update_nothing]: the header of
    the image, no buffer. *)
Definition img_update_nothing_done : t_akbootimg :=
  mk_img 10000 false "boot.img" None None None None
         (Some (mk_FILE "boot.img" 608 true true)) hdr_k3_r2 None None None.

(** * Properties *)

(** ** Layout arithmetic *)

Lemma u32_small z : is_u32 z -> u32 z = z.
Proof. unfold is_u32, u32. intros. apply Z.mod_small. lia. Qed.

Lemma u32_range z : is_u32 (u32 z).
Proof. unfold is_u32, u32. apply Z.mod_pos_bound. lia. Qed.

Lemma ceil_div_nonneg p x : 0 < p -> 0 <= x -> 0 <= ceil_div x p.
Proof. intros. unfold ceil_div. apply Z.div_pos; lia. Qed.

Lemma ceil_div_mul_ge p x : 0 < p -> x <= ceil_div x p * p.
Proof.
  intros Hp. unfold ceil_div.
  pose proof (Z.div_mod (x + p - 1) p ltac:(lia)) as E.
  pose proof (Z.mod_pos_bound (x + p - 1) p Hp) as R.
  nia.
Qed.

Lemma ceil_div_mono p x y : 0 < p -> x <= y -> ceil_div x p <= ceil_div y p.
Proof. intros. unfold ceil_div. apply Z.div_le_mono; lia. Qed.

Lemma npages_exact p x :
  0 < p -> 0 <= x -> x + p - 1 < 2 ^ 32 -> npages x p = ceil_div x p.
Proof.
  intros. unfold npages, ceil_div, u32. rewrite Z.mod_small; [reflexivity | lia].
Qed.

Lemma layout_fits_bounds p k r s :
  0 < p -> 0 <= k -> 0 <= r -> 0 <= s -> layout_fits p k r s ->
  k + p - 1 < 2 ^ 32 /\ r + p - 1 < 2 ^ 32 /\ s + p - 1 < 2 ^ 32.
Proof.
  unfold layout_fits, spec_total_size. intros Hp Hk Hr Hs F.
  pose proof (ceil_div_mul_ge p k Hp). pose proof (ceil_div_mul_ge p r Hp).
  pose proof (ceil_div_mul_ge p s Hp).
  pose proof (ceil_div_nonneg p k Hp Hk). pose proof (ceil_div_nonneg p r Hp Hr).
  pose proof (ceil_div_nonneg p s Hp Hs).
  repeat split; nia.
Qed.

Lemma total_size_exact p k r s :
  0 < p -> 0 <= k -> 0 <= r -> 0 <= s -> layout_fits p k r s ->
  total_size p k r s = spec_total_size p k r s.
Proof.
  intros Hp Hk Hr Hs F.
  destruct (layout_fits_bounds p k r s Hp Hk Hr Hs F) as (Bk & Br & Bs).
  unfold total_size. rewrite !npages_exact by assumption.
  apply u32_small. unfold is_u32. split; [| exact F].
  pose proof (ceil_div_nonneg p k Hp Hk). pose proof (ceil_div_nonneg p r Hp Hr).
  pose proof (ceil_div_nonneg p s Hp Hs). unfold spec_total_size. nia.
Qed.

Lemma layout_fits_mono p k r s k' r' s' :
  0 < p -> k <= k' -> r <= r' -> s <= s' ->
  layout_fits p k' r' s' -> layout_fits p k r s.
Proof.
  unfold layout_fits, spec_total_size. intros Hp Hk Hr Hs F.
  pose proof (ceil_div_mono p k k' Hp Hk). pose proof (ceil_div_mono p r r' Hp Hr).
  pose proof (ceil_div_mono p s s' Hp Hs). nia.
Qed.

(** C6, as amended.  For a page size above 0 and segment sizes whose
    page-aligned layout fits 32 bits, the total size is a multiple of the
    page size; it does not decrease when segment sizes grow, and it grows
    strictly when the page count of one of the segments grows. *)
Theorem total_size_multiple_monotone p k r s k' r' s' :
  0 < p -> 0 <= k <= k' -> 0 <= r <= r' -> 0 <= s <= s' ->
  layout_fits p k' r' s' ->
  total_size p k r s mod p = 0 /\
  total_size p k r s <= total_size p k' r' s' /\
  (ceil_div k p < ceil_div k' p \/ ceil_div r p < ceil_div r' p \/
   ceil_div s p < ceil_div s' p ->
   total_size p k r s < total_size p k' r' s').
Proof.
  intros Hp Hk Hr Hs F.
  assert (F0 : layout_fits p k r s) by (apply (layout_fits_mono p k r s k' r' s'); lia || assumption).
  rewrite (total_size_exact p k r s), (total_size_exact p k' r' s') by (lia || assumption).
  unfold spec_total_size.
  pose proof (ceil_div_mono p k k' Hp ltac:(lia)).
  pose proof (ceil_div_mono p r r' Hp ltac:(lia)).
  pose proof (ceil_div_mono p s s' Hp ltac:(lia)).
  split; [apply Z.mod_mul; lia |]. split; [nia |]. intros [L | [L | L]]; nia.
Qed.

Lemma total_size_multiple_monotone_witness :
  total_size 2048 5000 1 0 mod 2048 = 0 /\
  total_size 2048 5000 1 0 <= total_size 2048 5000 3000 0 /\
  (ceil_div 5000 2048 < ceil_div 5000 2048 \/ ceil_div 1 2048 < ceil_div 3000 2048 \/
   ceil_div 0 2048 < ceil_div 0 2048 ->
   total_size 2048 5000 1 0 < total_size 2048 5000 3000 0).
Proof.
  apply (total_size_multiple_monotone 2048 5000 1 0 5000 3000 0); unfold layout_fits; 
    try lia; vm_compute; reflexivity.
Defined.

(** C6, as stated, fails: growing the kernel from 1 byte to 2 bytes leaves
    the total size where it was. *)
Lemma total_size_not_strict :
  0 < 2048 /\ 1 < 2 /\ ~ (total_size 2048 1 0 0 < total_size 2048 2 0 0).
Proof. vm_compute. repeat split; try reflexivity. intros H; discriminate H. Qed.

(** Outside the 32-bit range the total size need not even be a multiple of
    the page size. *)
Lemma total_size_wraps :
  total_size (2 ^ 32 - 1) 1 0 0 mod (2 ^ 32 - 1) = 2 ^ 32 - 2.
Proof. vm_compute. reflexivity. Qed.

(** ** C1: the offsets of the extraction path and of the assembly path *)

(** The ramdisk offset is the same expression in [extract_ramdisk],
    [update_images] and [write_bootimg], and is the offset of the
    specification when the layout fits 32 bits. *)
Lemma ramdisk_offset_agrees h :
  extract_ramdisk_roffset h = update_images_roffset h /\
  update_images_roffset h = write_bootimg_roffset h.
Proof. split; reflexivity. Qed.

Lemma ramdisk_offset_exact h :
  0 < page_size h -> 0 <= kernel_size h ->
  spec_ramdisk_offset (page_size h) (kernel_size h) < 2 ^ 32 ->
  update_images_roffset h = spec_ramdisk_offset (page_size h) (kernel_size h).
Proof.
  intros Hp Hk F. unfold update_images_roffset, spec_ramdisk_offset in *.
  pose proof (ceil_div_mul_ge (page_size h) (kernel_size h) Hp).
  pose proof (ceil_div_nonneg (page_size h) (kernel_size h) Hp Hk).
  rewrite npages_exact by nia. apply u32_small. unfold is_u32. nia.
Qed.

Lemma second_offset_exact h :
  0 < page_size h -> 0 <= kernel_size h -> 0 <= ramdisk_size h ->
  spec_second_offset (page_size h) (kernel_size h) (ramdisk_size h) < 2 ^ 32 ->
  update_images_soffset h =
    spec_second_offset (page_size h) (kernel_size h) (ramdisk_size h) /\
  write_bootimg_soffset h = update_images_soffset h.
Proof.
  intros Hp Hk Hr F. split; [| reflexivity].
  unfold update_images_soffset, spec_second_offset in *.
  pose proof (ceil_div_mul_ge (page_size h) (kernel_size h) Hp).
  pose proof (ceil_div_nonneg (page_size h) (kernel_size h) Hp Hk).
  pose proof (ceil_div_mul_ge (page_size h) (ramdisk_size h) Hp).
  pose proof (ceil_div_nonneg (page_size h) (ramdisk_size h) Hp Hr).
  rewrite !npages_exact by nia. apply u32_small. unfold is_u32. nia.
Qed.

(** C1 at a header with a 1 byte kernel, a 1 byte ramdisk and pages of
    2048 bytes: [extract_second] computes the second-stage offset 4096,
    while [update_images] and [write_bootimg] compute 6144, the offset of
    the layout formula. *)
Theorem extract_second_offset_diverges :
  extract_second_soffset hdr_one_byte_each = 4096 /\
  update_images_soffset hdr_one_byte_each = 6144 /\
  write_bootimg_soffset hdr_one_byte_each = 6144 /\
  spec_second_offset 2048 1 1 = 6144.
Proof. vm_compute. repeat split; reflexivity. Qed.

(** On the image that [write_bootimg] lays out for that header, the
    extraction writes the ramdisk byte into the second-stage file. *)
Lemma extract_second_reads_the_ramdisk :
  file_at fs_one_byte_each "boot.img" 6144 1 = Some (cs "S") /\
  outcome_ok (@main lp64 aosp extract [] args_extract fs_one_byte_each) = true /\
  file_at (outcome_fs (@main lp64 aosp extract [] args_extract fs_one_byte_each))
          "ramdisk.img" 0 1 = Some (cs "R") /\
  file_at (outcome_fs (@main lp64 aosp extract [] args_extract fs_one_byte_each))
          "stage2.img" 0 1 = Some (cs "R").
Proof. vm_compute. repeat split; reflexivity. Qed.

(** ** C5: header validation *)




Lemma aosp_ok : bootimg_h_ok aosp.
Proof.
  unfold bootimg_h_ok. cbn. repeat split; try lia.
  repeat constructor; discriminate.
Qed.


(** ** The C string functions on well-formed lines *)

Lemma cstr_nonul l : Forall (fun c => c <> NUL) l -> cstr l = l.
Proof.
  induction 1 as [| c l Hc _ IH]; [reflexivity |]. simpl.
  destruct (Ascii.eqb_spec c NUL); [contradiction | now rewrite IH].
Qed.

Lemma cstr_is_nonul l : Forall (fun c => c <> NUL) (cstr l).
Proof.
  induction l as [| c l IH]; simpl; [constructor |].
  destruct (Ascii.eqb_spec c NUL); constructor; assumption.
Qed.

Lemma cstr_app_nul l n : Forall (fun c => c <> NUL) l -> cstr (l ++ repeat NUL n) = l.
Proof.
  induction 1 as [| c l Hc _ IH]; simpl.
  - destruct n; reflexivity.
  - destruct (Ascii.eqb_spec c NUL); [contradiction | now rewrite IH].
Qed.

Lemma strchr_app l c r :
  Forall (fun x => x <> c) l -> strchr (l ++ c :: r) c = Some (List.length l).
Proof.
  induction 1 as [| x l Hx _ IH]; simpl.
  - now rewrite Ascii.eqb_refl.
  - destruct (Ascii.eqb_spec x c); [contradiction | now rewrite IH].
Qed.

Lemma strcspn_app l d r rej :
  Forall (fun c => mem_char c rej = false) l -> mem_char d rej = true ->
  strcspn (l ++ d :: r) rej = List.length l.
Proof.
  intros F D. induction F as [| x l Hx _ IH]; simpl.
  - now rewrite D.
  - now rewrite Hx, IH.
Qed.

Lemma firstn_length_app {T} (l r : list T) : firstn (List.length l) (l ++ r) = l.
Proof. induction l; simpl; [now destruct r | now f_equal]. Qed.

Lemma skipn_length_app {T} (l r : list T) : skipn (List.length l) (l ++ r) = r.
Proof. induction l; simpl; auto. Qed.

Lemma strspn_not_blank s : mem_char (hd "x"%char s) blanks = false -> strspn s blanks = O.
Proof. destruct s as [| c s]; simpl; [reflexivity | now intros ->]. Qed.

(** A line [key = value] with a newline, as [write_bootimg_config] prints
    it, is cut into its key and its value. *)
Lemma update_header_entry_line {A : c_abi} {B : bootimg_h} img key value :
  key <> [] ->
  Forall (fun c => c <> NUL /\ c <> LF /\ mem_char c blanks_eq = false) key ->
  Forall (fun c => c <> NUL /\ c <> LF) value ->
  mem_char (hd "x"%char value) blanks = false ->
  update_header_entry img (key ++ cs " = " ++ value ++ [LF]) = apply_entry img key value.
Proof.
  intros Hne Fk Fv Hv. unfold update_header_entry.
  assert (N : Forall (fun c => c <> NUL) (key ++ cs " = " ++ value ++ [LF])).
  { apply Forall_app; split; [eapply Forall_impl; [| exact Fk]; cbn; tauto |].
    apply Forall_app; split; [repeat constructor; discriminate |].
    apply Forall_app; split; [eapply Forall_impl; [| exact Fv]; cbn; tauto |].
    repeat constructor; discriminate. }
  rewrite (cstr_nonul _ N).
  assert (E : key ++ cs " = " ++ value ++ [LF] = (key ++ cs " = " ++ value) ++ LF :: [])
    by (now rewrite <- !app_assoc).
  rewrite E, strchr_app.
  2: { apply Forall_app; split; [eapply Forall_impl; [| exact Fk]; cbn; tauto |].
       apply Forall_app; split; [repeat constructor; discriminate |].
       eapply Forall_impl; [| exact Fv]; cbn; tauto. }
  rewrite firstn_length_app.
  assert (S0 : strspn (key ++ cs " = " ++ value) blanks = O).
  { destruct key as [| c key]; [contradiction |]. inversion Fk as [| ? ? (_ & _ & Hc) _]; subst.
    simpl. cbn in Hc. cbn. destruct (Ascii.eqb c " "); [discriminate |].
    destruct (Ascii.eqb c "="); [discriminate |]. cbn in Hc |- *.
    destruct (Ascii.eqb c TAB); [discriminate | reflexivity]. }
  rewrite S0. cbn [skipn].
  assert (S1 : strcspn (key ++ cs " = " ++ value) blanks_eq = List.length key).
  { change (cs " = " ++ value) with (" "%char :: cs "= " ++ value).
    apply strcspn_app; [eapply Forall_impl; [| exact Fk]; cbn; tauto | reflexivity]. }
  rewrite S1, skipn_length_app, firstn_length_app.
  change (cs " = " ++ value) with (" "%char :: "="%char :: " "%char :: value).
  change (strspn (" "%char :: "="%char :: " "%char :: value) blanks) with 1%nat.
  cbn [skipn]. cbv beta iota.
  change (strspn (" "%char :: value) blanks) with (S (strspn value blanks)).
  rewrite (strspn_not_blank value Hv). reflexivity.
Qed.

(** ** [%x] and [strtoul] *)

Lemma hex_char_digit d :
  0 <= d < 16 ->
  digit_of (hex_char d) = Some d /\
  hex_char d <> NUL /\ hex_char d <> LF /\ mem_char (hex_char d) blanks_eq = false.
Proof.
  intros H.
  assert (C : d = 0 \/ d = 1 \/ d = 2 \/ d = 3 \/ d = 4 \/ d = 5 \/ d = 6 \/ d = 7 \/
              d = 8 \/ d = 9 \/ d = 10 \/ d = 11 \/ d = 12 \/ d = 13 \/ d = 14 \/ d = 15)
    by lia.
  repeat (destruct C as [-> | C]; [repeat split; try reflexivity; discriminate |]).
  subst. repeat split; try reflexivity; discriminate.
Qed.

Lemma digits_value_app ds : forall rest a,
  Forall hex_digit_char ds ->
  digits_value 16 (ds ++ rest) a = digits_value 16 rest (digits_value 16 ds a).
Proof.
  induction ds as [| c ds IH]; intros rest a F; [reflexivity |].
  inversion F as [| ? ? (d & Hd & _ & E) F']; subst. cbn [digits_value app].
  rewrite E. destruct (Z.ltb_spec d 16); [| lia]. now apply IH.
Qed.

Lemma hex_digits_spec fuel : forall v acc,
  0 <= v < 16 ^ Z.of_nat fuel -> (0 < fuel)%nat ->
  exists ds, hex_digits fuel v acc = ds ++ acc /\ ds <> [] /\
             Forall hex_digit_char ds /\
             forall a, digits_value 16 ds a = a * 16 ^ Z.of_nat (List.length ds) + v.
Proof.
  induction fuel as [| fuel IH]; intros v acc Hv Hf; [lia |].
  cbn [hex_digits].
  assert (Hm : 0 <= v mod 16 < 16) by (apply Z.mod_pos_bound; lia).
  destruct (hex_char_digit _ Hm) as (Hd & _).
  assert (Hc : hex_digit_char (hex_char (v mod 16))) by (exists (v mod 16); auto).
  destruct (Z.eqb_spec (v / 16) 0) as [E | E].
  - exists [hex_char (v mod 16)].
    split; [reflexivity |]. split; [discriminate |].
    split; [repeat constructor; exact Hc |].
    intros a. cbn [digits_value List.length]. rewrite Hd.
    destruct (Z.ltb_spec (v mod 16) 16); [| lia].
    pose proof (Z.div_mod v 16 ltac:(lia)). change (16 ^ Z.of_nat 1) with 16. lia.
  - assert (Hq : 0 <= v / 16 < 16 ^ Z.of_nat fuel).
    { split; [apply Z.div_pos; lia |]. apply Z.div_lt_upper_bound; [lia |].
      rewrite Nat2Z.inj_succ, Z.pow_succ_r in Hv by lia. lia. }
    assert (Hf' : (0 < fuel)%nat).
    { destruct fuel; [| lia]. change (16 ^ Z.of_nat 0) with 1 in Hq. lia. }
    destruct (IH (v / 16) (hex_char (v mod 16) :: acc) Hq Hf') as (ds & E1 & Hn & F & V).
    exists (ds ++ [hex_char (v mod 16)]).
    split; [| split; [| split]].
    + rewrite E1, <- app_assoc. reflexivity.
    + destruct ds; discriminate.
    + apply Forall_app; split; [exact F | repeat constructor; exact Hc].
    + intros a. rewrite digits_value_app by exact F. rewrite V.
      cbn [digits_value]. rewrite Hd. destruct (Z.ltb_spec (v mod 16) 16); [| lia].
      rewrite length_app. cbn [List.length]. rewrite Nat2Z.inj_add.
      rewrite Z.pow_add_r by lia. change (16 ^ Z.of_nat 1) with 16.
      pose proof (Z.div_mod v 16 ltac:(lia)). lia.
Qed.

Lemma fmt_x_spec v :
  fmt_x v <> [] /\ Forall hex_digit_char (fmt_x v) /\
  digits_value 16 (fmt_x v) 0 = u32 v.
Proof.
  unfold fmt_x.
  destruct (hex_digits_spec 8 (u32 v) []) as (ds & E & Hn & F & V).
  - pose proof (u32_range v) as R. unfold is_u32 in R. change (16 ^ Z.of_nat 8) with (2 ^ 32). lia.
  - lia.
  - rewrite E, app_nil_r. split; [exact Hn |]. split; [exact F |]. rewrite V. lia.
Qed.

Lemma hex_digit_char_plain c :
  hex_digit_char c -> c <> NUL /\ c <> LF /\ mem_char c blanks_eq = false.
Proof.
  intros (d & Hd & -> & _). destruct (hex_char_digit d Hd) as (_ & H). exact H.
Qed.

Lemma hex_digit_char_not_blank c : hex_digit_char c -> mem_char c blanks = false.
Proof.
  intros H. destruct (hex_digit_char_plain c H) as (_ & _ & E).
  unfold mem_char, blanks_eq, blanks in *. cbn [existsb] in *.
  destruct (Ascii.eqb c " "); [discriminate |]. destruct (Ascii.eqb c "="); [discriminate |].
  exact E.
Qed.

(** [strtoul] reads back what [0x%x] prints. *)
Lemma strtoul_fmt_x {A : c_abi} v :
  abi_ok A -> strtoul (cs "0x" ++ fmt_x v) = u32 v.
Proof.
  intros HA. destruct (fmt_x_spec v) as (Hn & F & V).
  unfold strtoul. change (cs "0x" ++ fmt_x v) with ("0"%char :: "x"%char :: fmt_x v).
  change (skip_space ("0"%char :: "x"%char :: fmt_x v)) with ("0"%char :: "x"%char :: fmt_x v).
  cbv beta iota. change (Ascii.eqb "x" "x" || Ascii.eqb "x" "X") with true. cbv iota.
  rewrite V. pose proof (u32_range v) as R. unfold is_u32 in R. unfold ULONG_MAX.
  destruct (Z.ltb_spec (2 ^ LONG_BITS - 1) (u32 v)) as [L | L]; [| reflexivity].
  exfalso. destruct HA as [E | E]; rewrite E in L; lia.
Qed.

(** ** C8: the config text read back *)

Lemma getlines_line l : forall cur rest,
  Forall (fun c => c <> LF) l ->
  getlines cur (l ++ LF :: rest) = (rev cur ++ l ++ [LF]) :: getlines [] rest.
Proof.
  induction l as [| c l IH]; intros cur rest F.
  - cbn [app getlines]. rewrite Ascii.eqb_refl. reflexivity.
  - inversion F as [| ? ? Hc F']; subst. cbn [app getlines].
    destruct (Ascii.eqb_spec c LF); [contradiction |].
    rewrite IH by exact F'. cbn [rev]. rewrite <- app_assoc. reflexivity.
Qed.

Lemma key_chars_ok key :
  forallb (fun c => negb (Ascii.eqb c NUL) && negb (Ascii.eqb c LF) &&
                    negb (mem_char c blanks_eq)) key = true ->
  Forall (fun c => c <> NUL /\ c <> LF /\ mem_char c blanks_eq = false) key.
Proof.
  intros H. apply Forall_forall. intros c Hc.
  rewrite forallb_forall in H. specialize (H c Hc).
  apply andb_true_iff in H. destruct H as (H & H3).
  apply andb_true_iff in H. destruct H as (H1 & H2).
  repeat split.
  - intros ->. discriminate H1.
  - intros ->. discriminate H2.
  - now destruct (mem_char c blanks_eq).
Qed.

Lemma hex_value_ok v :
  Forall (fun c => c <> NUL /\ c <> LF) (cs "0x" ++ fmt_x v) /\
  Forall (fun c => c <> LF) (cs "0x" ++ fmt_x v).
Proof.
  destruct (fmt_x_spec v) as (_ & F & _).
  split; (apply Forall_app; split; [repeat constructor; discriminate |]);
    (eapply Forall_impl; [| exact F]); intros c Hc;
    destruct (hex_digit_char_plain c Hc) as (? & ? & _); auto.
Qed.

(** A numeric line of the config text is cut into its key and [0x...]. *)
Lemma config_line_x_entry {A : c_abi} {B : bootimg_h} img key v :
  key <> EmptyString ->
  forallb (fun c => negb (Ascii.eqb c NUL) && negb (Ascii.eqb c LF) &&
                    negb (mem_char c blanks_eq)) (cs key) = true ->
  update_header_entry img (config_line_x key v) =
  apply_entry img (cs key) (cs "0x" ++ fmt_x v).
Proof.
  intros Hne Hk. unfold config_line_x.
  change (cs key ++ cs " = 0x" ++ fmt_x v ++ [LF])
    with (cs key ++ cs " = " ++ (cs "0x" ++ fmt_x v) ++ [LF]).
  apply update_header_entry_line.
  - destruct key; [contradiction | discriminate].
  - apply key_chars_ok, Hk.
  - apply hex_value_ok.
  - reflexivity.
Qed.

Ltac numeric_entry :=
  intros;
  rewrite config_line_x_entry by (discriminate || reflexivity);
  unfold apply_entry; rewrite strtoul_fmt_x by assumption;
  unfold u32; rewrite Z.mod_mod by lia; reflexivity.

Lemma pagesize_entry {A : c_abi} {B : bootimg_h} img v :
  abi_ok A ->
  update_header_entry img (config_line_x "pagesize" v) =
  Ok (set_header img (set_page_size (header img) (u32 v))).
Proof. numeric_entry. Qed.

Lemma kerneladdr_entry {A : c_abi} {B : bootimg_h} img v :
  abi_ok A ->
  update_header_entry img (config_line_x "kerneladdr" v) =
  Ok (set_header img (set_kernel_addr (header img) (u32 v))).
Proof. numeric_entry. Qed.

Lemma ramdiskaddr_entry {A : c_abi} {B : bootimg_h} img v :
  abi_ok A ->
  update_header_entry img (config_line_x "ramdiskaddr" v) =
  Ok (set_header img (set_ramdisk_addr (header img) (u32 v))).
Proof. numeric_entry. Qed.

Lemma secondaddr_entry {A : c_abi} {B : bootimg_h} img v :
  abi_ok A ->
  update_header_entry img (config_line_x "secondaddr" v) =
  Ok (set_header img (set_second_addr (header img) (u32 v))).
Proof. numeric_entry. Qed.

Lemma tagsaddr_entry {A : c_abi} {B : bootimg_h} img v :
  abi_ok A ->
  update_header_entry img (config_line_x "tagsaddr" v) =
  Ok (set_header img (set_tags_addr (header img) (u32 v))).
Proof. numeric_entry. Qed.

(** The command line is read back when it has no newline inside, does not
    begin with a blank and fits its field. *)
Lemma cmdline_entry {A : c_abi} {B : bootimg_h} img h :
  bootimg_h_ok B ->
  Forall (fun c => c <> LF) (cstr (cmdline h)) ->
  mem_char (hd "x"%char (cstr (cmdline h))) blanks = false ->
  strlen (cstr (cmdline h)) < BOOT_ARGS_SIZE ->
  update_header_entry img (config_line_cmdline h) =
  Ok (set_header img
        (set_cmdline (header img)
           (cstr (cmdline h) ++
            repeat NUL (Z.to_nat (BOOT_ARGS_SIZE - strlen (cstr (cmdline h))))))).
Proof.
  intros (_ & _ & HB & _) Fl Hb Hl. unfold config_line_cmdline.
  change (cs "cmdline = " ++ cstr (cmdline h) ++ [LF])
    with (cs "cmdline" ++ cs " = " ++ cstr (cmdline h) ++ [LF]).
  rewrite update_header_entry_line.
  - unfold apply_entry. change (strcmp (cs "cmdline") (cs "cmdline") =? 0) with true.
    cbv iota. unfold strlen in *.
    rewrite (u32_small (Z.of_nat (List.length (cstr (cmdline h))))) by (unfold is_u32; lia).
    destruct (Z.leb_spec BOOT_ARGS_SIZE (Z.of_nat (List.length (cstr (cmdline h))))); [lia |].
    reflexivity.
  - discriminate.
  - apply key_chars_ok. reflexivity.
  - pose proof (cstr_is_nonul (cmdline h)) as N.
    rewrite Forall_forall in *. intros c Hc. split; [apply N | apply Fl]; exact Hc.
  - exact Hb.
Qed.

Lemma getlines_config_line_x key v rest :
  forallb (fun c => negb (Ascii.eqb c LF)) (cs key) = true ->
  getlines [] (config_line_x key v ++ rest) = config_line_x key v :: getlines [] rest.
Proof.
  intros Hk. unfold config_line_x.
  replace ((cs key ++ cs " = 0x" ++ fmt_x v ++ [LF]) ++ rest)
    with ((cs key ++ cs " = " ++ (cs "0x" ++ fmt_x v)) ++ LF :: rest)
    by (rewrite <- !app_assoc; reflexivity).
  rewrite getlines_line.
  - cbn [rev app]. rewrite <- !app_assoc. reflexivity.
  - apply Forall_app; split.
    + apply Forall_forall. intros c Hc. rewrite forallb_forall in Hk.
      specialize (Hk c Hc). intros ->. discriminate Hk.
    + apply Forall_app; split; [repeat constructor; discriminate | apply hex_value_ok].
Qed.

Lemma getlines_config_text h :
  Forall (fun c => c <> LF) (cstr (cmdline h)) ->
  getlines [] (bootimg_config_text h) = bootimg_config_lines h.
Proof.
  intros Fl. unfold bootimg_config_text, bootimg_config_lines. cbn [List.concat].
  rewrite !getlines_config_line_x by reflexivity. do 5 f_equal.
  rewrite app_nil_r. unfold config_line_cmdline.
  replace (cs "cmdline = " ++ cstr (cmdline h) ++ [LF])
    with ((cs "cmdline = " ++ cstr (cmdline h)) ++ LF :: [])
    by (rewrite <- !app_assoc; reflexivity).
  rewrite getlines_line.
  - cbn [rev app getlines]. reflexivity.
  - apply Forall_app; split; [repeat constructor; discriminate | exact Fl].
Qed.

(** C8, as amended.  Each numeric line that [write_bootimg_config] prints
    ([pagesize] and the four load addresses, as [0x] and hexadecimal
    digits) sets the field back to its value when [update_header_entry]
    reads it.  The [cmdline] line does when the command line holds no
    newline, does not begin with a space or a tab and fits its field; then
    the text as a whole is the six lines, in the order page size, kernel,
    ramdisk, second and tags address, command line, and reading it back
    restores these fields and leaves the size of the image, which has no
    line, as it was. *)
Theorem config_round_trip {A : c_abi} {B : bootimg_h} (img : t_akbootimg) (h : boot_img_hdr) :
  abi_ok A -> bootimg_h_ok B -> hdr_u32 h ->
  (update_header_entry img (config_line_x "pagesize" (page_size h)) =
     Ok (set_header img (set_page_size (header img) (page_size h))) /\
   update_header_entry img (config_line_x "kerneladdr" (kernel_addr h)) =
     Ok (set_header img (set_kernel_addr (header img) (kernel_addr h))) /\
   update_header_entry img (config_line_x "ramdiskaddr" (ramdisk_addr h)) =
     Ok (set_header img (set_ramdisk_addr (header img) (ramdisk_addr h))) /\
   update_header_entry img (config_line_x "secondaddr" (second_addr h)) =
     Ok (set_header img (set_second_addr (header img) (second_addr h))) /\
   update_header_entry img (config_line_x "tagsaddr" (tags_addr h)) =
     Ok (set_header img (set_tags_addr (header img) (tags_addr h)))) /\
  map entry_key (bootimg_config_lines h) =
    [cs "pagesize"; cs "kerneladdr"; cs "ramdiskaddr"; cs "secondaddr";
     cs "tagsaddr"; cs "cmdline"] /\
  (Forall (fun c => c <> LF) (cstr (cmdline h)) ->
   mem_char (hd "x"%char (cstr (cmdline h))) blanks = false ->
   strlen (cstr (cmdline h)) < BOOT_ARGS_SIZE ->
   (exists img',
      update_header_entry img (config_line_cmdline h) = Ok img' /\
      cstr (cmdline (header img')) = cstr (cmdline h)) /\
   getlines [] (bootimg_config_text h) = bootimg_config_lines h /\
   exists img',
     update_header_lines img (getlines [] (bootimg_config_text h)) = Ok img' /\
     size img' = size img /\
     page_size (header img') = page_size h /\
     kernel_addr (header img') = kernel_addr h /\
     ramdisk_addr (header img') = ramdisk_addr h /\
     second_addr (header img') = second_addr h /\
     tags_addr (header img') = tags_addr h /\
     cstr (cmdline (header img')) = cstr (cmdline h)).
Proof.
  intros HA HB (Hks & Hka & Hrs & Hra & Hss & Hsa & Hta & Hps).
  split; [| split].
  - rewrite pagesize_entry, kerneladdr_entry, ramdiskaddr_entry, secondaddr_entry,
      tagsaddr_entry by exact HA.
    rewrite !u32_small by assumption. repeat split; reflexivity.
  - reflexivity.
  - intros Fl Hb Hl. split; [| split].
    + eexists. split; [apply cmdline_entry; assumption |]. cbn.
      apply cstr_app_nul, cstr_is_nonul.
    + apply getlines_config_text, Fl.
    + rewrite getlines_config_text by exact Fl.
      unfold bootimg_config_lines, update_header_lines.
      rewrite pagesize_entry by exact HA. rewrite kerneladdr_entry by exact HA.
      rewrite ramdiskaddr_entry by exact HA. rewrite secondaddr_entry by exact HA.
      rewrite tagsaddr_entry by exact HA. rewrite cmdline_entry by assumption.
      eexists. split; [reflexivity |]. cbn.
      rewrite !u32_small by assumption. repeat split; try reflexivity.
      apply cstr_app_nul, cstr_is_nonul.
Qed.

Lemma hdr_console_u32 : hdr_u32 hdr_console.
Proof. unfold hdr_u32, is_u32. cbn. lia. Qed.

Lemma config_round_trip_witness :
  abi_ok lp64 /\ bootimg_h_ok aosp /\ hdr_u32 hdr_console /\
  @update_header_entry lp64 aosp img_k3_r2 (config_line_x "pagesize" 4096) =
    Ok (set_header img_k3_r2 (set_page_size hdr_k3_r2 4096)) /\
  getlines [] (bootimg_config_text hdr_console) = bootimg_config_lines hdr_console.
Proof.
  split; [right; reflexivity |]. split; [exact aosp_ok |]. split; [exact hdr_console_u32 |].
  destruct (@config_round_trip lp64 aosp img_k3_r2 hdr_console
              (or_intror eq_refl) aosp_ok hdr_console_u32) as ((P & _) & _ & W).
  split; [exact P |].
  destruct W as (_ & G & _); [| reflexivity | reflexivity | exact G].
  repeat constructor; discriminate.
Defined.

(** C8, as stated, fails: the blank that begins a command line is skipped
    with the blanks after the [=] sign, so [" quiet"] comes back as
    ["quiet"]. *)
Lemma cmdline_leading_blank_lost :
  exists img',
    @update_header_entry lp64 aosp img_k3_r2 (config_line_cmdline hdr_blank_cmdline) = Ok img' /\
    cstr (cmdline (header img')) = cs "quiet" /\
    cstr (cmdline hdr_blank_cmdline) = cs " quiet" /\
    cstr (cmdline (header img')) <> cstr (cmdline hdr_blank_cmdline).
Proof.
  eexists. split; [vm_compute; reflexivity |]. vm_compute. repeat split. discriminate.
Qed.

(** ** C7: keys that are not exactly a recognised key *)

(** C7 at the line [pagesizeX = 0x1000]: the key is none of the seven
    keys, yet the line is accepted and sets the page size, because the
    key is compared on its first 8 characters only. *)
Theorem update_header_entry_accepts_longer_key (img : t_akbootimg) :
  @update_header_entry lp64 aosp img (cs "pagesizeX = 0x1000" ++ [LF]) =
  Ok (set_header img (set_page_size (header img) 4096)).
Proof. reflexivity. Qed.

Lemma In_skipn {T} (x : T) n : forall l, In x (skipn n l) -> In x l.
Proof.
  induction n as [| n IH]; intros l H; [exact H |].
  destruct l as [| y l]; [exact H |]. right. apply IH, H.
Qed.

Lemma In_firstn {T} (x : T) n : forall l, In x (firstn n l) -> In x l.
Proof.
  induction n as [| n IH]; intros l H; [contradiction |].
  destruct l as [| y l]; [exact H |]. destruct H as [-> | H]; [now left | right; apply IH, H].
Qed.

(** The part of C7 that holds: a line without an [=] sign is a bad config
    entry. *)
Lemma update_header_entry_no_equals {A : c_abi} {B : bootimg_h} img cmd :
  ~ In "="%char (cstr cmd) ->
  exists token, update_header_entry img cmd = bad_config_entry token.
Proof.
  intros H. unfold update_header_entry.
  set (line := match strchr (cstr cmd) LF with
               | Some i => firstn i (cstr cmd) | None => cstr cmd end).
  assert (Hl : ~ In "="%char line).
  { subst line. destruct (strchr (cstr cmd) LF); [| exact H].
    intros I. apply H. eapply In_firstn, I. }
  set (p0 := skipn (strspn line blanks) line).
  set (p := skipn (strspn (skipn (strcspn p0 blanks_eq) p0) blanks)
                  (skipn (strcspn p0 blanks_eq) p0)).
  assert (Hp : ~ In "="%char p).
  { intros I. apply Hl. subst p p0. do 3 apply In_skipn in I. exact I. }
  exists p0. destruct p as [| c p']; [reflexivity |].
  destruct (Ascii.eqb_spec c "=") as [-> | N]; [exfalso; apply Hp; now left |].
  destruct c as [[] [] [] [] [] [] [] []]; try reflexivity. contradiction.
Qed.

(** ** The I/O functions that only read *)

Lemma bind_Done {T U} (c : M T) (k : T -> M U) fs u fs' :
  bind c k fs = Done u fs' ->
  exists t fs1, c fs = Done t fs1 /\ k t fs1 = Done u fs'.
Proof. unfold bind. destruct (c fs) as [t fs1 | e fs1]; [eauto | discriminate]. Qed.

Lemma bind_Aborted {T U} (c : M T) (k : T -> M U) fs e fs' :
  bind c k fs = Aborted e fs' ->
  c fs = Aborted e fs' \/ exists t fs1, c fs = Done t fs1 /\ k t fs1 = Aborted e fs'.
Proof.
  unfold bind. destruct (c fs) as [t fs1 | e1 fs1]; [eauto |].
  intros H. inversion H. now left.
Qed.

Lemma never_writes_bind {T U} (c : M T) (k : T -> M U) :
  never_writes c -> (forall t, never_writes (k t)) -> never_writes (bind c k).
Proof.
  intros Hc Hk fs. unfold bind. specialize (Hc fs).
  destruct (c fs) as [t fs1 | e fs1]; subst; [apply Hk | reflexivity].
Qed.

Lemma never_writes_ret {T} (t : T) : never_writes (ret t).
Proof. intros fs. reflexivity. Qed.

Lemma never_writes_abort_printf {T} msg : never_writes (@abort_printf T msg).
Proof. intros fs. reflexivity. Qed.

Lemma never_writes_abort_perror {T} msg : never_writes (@abort_perror T msg).
Proof. intros fs. reflexivity. Qed.

Lemma never_writes_fault {T} : never_writes (@fault T).
Proof. intros fs. reflexivity. Qed.

Lemma never_writes_lift {T} (r : result T) : never_writes (lift r).
Proof. destruct r; intros fs; reflexivity. Qed.

Lemma never_writes_the_stream img : never_writes (the_stream img).
Proof. unfold the_stream. destruct (stream img); intros fs; reflexivity. Qed.

Lemma never_writes_fseek {A : c_abi} who st off : never_writes (fseek who st off).
Proof. unfold fseek. destruct (off <? _); intros fs; reflexivity. Qed.

Lemma never_writes_fread who st sz : never_writes (fread who st sz).
Proof.
  intros fs. unfold fread. destruct (f_readable st); [| reflexivity].
  destruct (fs (f_path st)); [| reflexivity]. destruct (file_read _ _ _); reflexivity.
Qed.

Lemma never_writes_load_file name : never_writes (load_file name).
Proof.
  intros fs. unfold load_file. destruct (fs name); [| reflexivity].
  destruct (file_read _ _ _); reflexivity.
Qed.

Create HintDb ro discriminated.
#[local] Hint Resolve never_writes_ret never_writes_abort_printf never_writes_abort_perror
  never_writes_fault never_writes_lift never_writes_the_stream never_writes_fseek
  never_writes_fread never_writes_load_file : ro.

Ltac ro_step :=
  match goal with
  | |- never_writes (bind _ _) => apply never_writes_bind; [| intros ?]
  | |- never_writes (match ?x with _ => _ end) => destruct x
  | |- never_writes (if ?x then _ else _) => destruct x
  | |- never_writes _ => solve [auto with ro]
  end.

Lemma never_writes_carry_over {A : c_abi} img off sz : never_writes (carry_over img off sz).
Proof. unfold carry_over. repeat ro_step. Qed.

#[local] Hint Resolve never_writes_carry_over : ro.

Lemma never_writes_resolve_segments {A : c_abi} img : never_writes (resolve_segments img).
Proof. unfold resolve_segments. repeat ro_step. Qed.

#[local] Hint Resolve never_writes_resolve_segments : ro.

Lemma never_writes_update_images {A : c_abi} img : never_writes (update_images img).
Proof. unfold update_images. repeat ro_step. Qed.

Lemma never_writes_read_header {B : bootimg_h} img : never_writes (read_header img).
Proof.
  unfold read_header. repeat ro_step. intros fs.
  destruct (fs _); [| reflexivity]. destruct (_ =? _); reflexivity.
Qed.

Lemma never_writes_update_header {A : c_abi} {B : bootimg_h} cfg img :
  never_writes (update_header cfg img).
Proof.
  unfold update_header. repeat ro_step.
  intros fs. destruct (fs _); [| reflexivity]. apply never_writes_lift.
Qed.

#[local] Hint Resolve never_writes_update_images never_writes_read_header
  never_writes_update_header : ro.

Lemma never_writes_open_rplus img : never_writes (open_bootimg img Mode_rplus).
Proof. intros fs. cbn. destruct (fs (fname img)); reflexivity. Qed.

#[local] Hint Resolve never_writes_open_rplus : ro.

(** Nothing is written before [write_bootimg] in the [update] case. *)
Lemma never_writes_update_steps {A : c_abi} {B : bootimg_h} cfg img :
  never_writes (update_steps cfg img).
Proof. unfold update_steps. repeat ro_step. Qed.

Lemma never_writes_Done {T} (c : M T) fs t fs' :
  never_writes c -> c fs = Done t fs' -> fs' = fs.
Proof. intros H E. specialize (H fs). now rewrite E in H. Qed.

Lemma never_writes_Aborted {T} (c : M T) fs e fs' :
  never_writes c -> c fs = Aborted e fs' -> fs' = fs.
Proof. intros H E. specialize (H fs). now rewrite E in H. Qed.

(** ** Config entries leave the segments alone *)

Lemma same_segments_refl i : same_segments i i.
Proof. unfold same_segments. repeat split; reflexivity. Qed.

Lemma same_segments_trans i j k :
  same_segments i j -> same_segments j k -> same_segments i k.
Proof.
  unfold same_segments.
  intros (a1 & a2 & a3 & a4 & a5 & a6 & a7 & a8 & a9 & a10 & a11 & a12 & a13)
         (b1 & b2 & b3 & b4 & b5 & b6 & b7 & b8 & b9 & b10 & b11 & b12 & b13).
  repeat split; congruence.
Qed.

Lemma apply_entry_same {A : c_abi} {B : bootimg_h} img token value img' :
  apply_entry img token value = Ok img' -> same_segments img img'.
Proof.
  unfold apply_entry, bad_config_entry. intros H.
  repeat match type of H with
         | context [if ?c then _ else _] => destruct c
         end;
    try discriminate; inversion H; subst; unfold same_segments; cbn; repeat split; reflexivity.
Qed.

Lemma update_header_entry_same {A : c_abi} {B : bootimg_h} img cmd img' :
  update_header_entry img cmd = Ok img' -> same_segments img img'.
Proof.
  unfold update_header_entry. intros H.
  match type of H with
  | match ?p with _ => _ end = _ => destruct p as [| c p']; [discriminate |]
  end.
  destruct c as [[] [] [] [] [] [] [] []]; try discriminate.
  eapply apply_entry_same, H.
Qed.

Lemma update_header_lines_same {A : c_abi} {B : bootimg_h} lines : forall img img',
  update_header_lines img lines = Ok img' -> same_segments img img'.
Proof.
  induction lines as [| l ls IH]; intros img img' H; cbn in H.
  - inversion H. apply same_segments_refl.
  - destruct (update_header_entry img l) as [img1 |] eqn:E; [| discriminate].
    eapply same_segments_trans; [eapply update_header_entry_same, E | apply IH, H].
Qed.

Lemma lift_Done {T} (r : result T) fs t fs' : lift r fs = Done t fs' -> r = Ok t /\ fs' = fs.
Proof. destruct r; cbn; intros H; inversion H; auto. Qed.

Lemma update_header_same {A : c_abi} {B : bootimg_h} cfg img fs img' fs' :
  update_header cfg img fs = Done img' fs' -> same_segments img img'.
Proof.
  unfold update_header. intros H. apply bind_Done in H. destruct H as (img1 & fs1 & H1 & H2).
  assert (S1 : same_segments img img1).
  { destruct (config_fname img).
    - destruct (fs s); [| discriminate]. apply lift_Done in H1. destruct H1 as (H1 & _).
      eapply update_header_lines_same, H1.
    - inversion H1. apply same_segments_refl. }
  eapply same_segments_trans; [exact S1 |].
  destruct (strlen cfg =? 0).
  - inversion H2. apply same_segments_refl.
  - apply lift_Done in H2. destruct H2 as (H2 & _). eapply update_header_lines_same, H2.
Qed.

(** ** C9: a kernel replacement for an image without ramdisk *)

Lemma fread_zero who st fs : exists e, fread who st 0 fs = Aborted e fs.
Proof.
  unfold fread. destruct (f_readable st); [| eauto]. destruct (fs (f_path st)); [| eauto].
  unfold file_read. cbn. eauto.
Qed.

Lemma carry_over_zero {A : c_abi} img off fs :
  exists e, carry_over img off 0 fs = Aborted e fs.
Proof.
  unfold carry_over, bind, the_stream. destruct (stream img) as [st |]; cbn; [| eauto].
  unfold fseek. destruct (off <? _); cbn; [| eauto].
  match goal with |- context [fread ?w ?s 0 fs] => destruct (fread_zero w s fs) as (e & ->) end.
  eauto.
Qed.

Lemma update_images_without_ramdisk {A : c_abi} img fs :
  kernel_fname img <> None -> ramdisk_fname img = None ->
  ramdisk_size (header img) = 0 ->
  exists e, update_images img fs = Aborted e fs.
Proof.
  intros Hk Hr Hz.
  destruct (update_images img fs) as [img' fs' | e fs'] eqn:E.
  2: { exists e. f_equal. eapply never_writes_Aborted, E. apply never_writes_update_images. }
  exfalso. unfold update_images in E. apply bind_Done in E.
  destruct E as (img1 & fs1 & E & _). unfold resolve_segments in E.
  destruct (page_size (header img) =? 0); [discriminate |].
  apply bind_Done in E. destruct E as (i1 & f1 & E1 & E).
  apply bind_Done in E. destruct E as (i2 & f2 & E2 & _).
  destruct (kernel_fname img) as [kf |]; [| contradiction].
  apply bind_Done in E1. destruct E1 as (r & f0 & _ & E1). inversion E1; subst. clear E1.
  cbn in E2. rewrite Hr in E2. apply bind_Done in E2. destruct E2 as (r2 & f3 & E2 & _).
  rewrite Hz in E2.
  match type of E2 with
  | carry_over ?i ?o 0 ?f = _ => destruct (carry_over_zero i o f) as (e & C)
  end.
  rewrite C in E2. discriminate.
Qed.

Lemma fread_Done who st sz fs buf st' fs' :
  fread who st sz fs = Done (buf, st') fs' ->
  fs' = fs /\
  st' = mk_FILE (f_path st) (f_pos st + sz) (f_readable st) (f_writable st) /\
  exists f, fs (f_path st) = Some f /\ file_read f (f_pos st) sz = Some buf.
Proof.
  unfold fread. destruct (f_readable st); [| discriminate].
  destruct (fs (f_path st)) as [f |]; [| discriminate].
  destruct (file_read f (f_pos st) sz) as [b |] eqn:R; [| discriminate].
  intros H. inversion H; subst. eauto.
Qed.

Lemma read_header_Done {B : bootimg_h} img fs img' fs' :
  read_header img fs = Done img' fs' ->
  fs' = fs /\
  exists st f buf f2,
    stream img = Some st /\ fs (f_path st) = Some f /\
    file_read f (f_pos st) sizeof_hdr = Some buf /\
    fs (fname img) = Some f2 /\
    img' = set_is_blkdev
             (set_size
                (set_stream (set_header img (hdr_of_bytes buf))
                   (Some (mk_FILE (f_path st) (f_pos st + sizeof_hdr)
                                  (f_readable st) (f_writable st))))
                (u32 (f_len f2))) false /\
    snd (check_boot_img_header img') = 0.
Proof.
  unfold read_header. intros H.
  apply bind_Done in H. destruct H as (st & fs1 & H1 & H).
  apply bind_Done in H. destruct H as ([buf st'] & fs2 & H2 & H).
  unfold the_stream in H1. destruct (stream img) as [st0 |] eqn:S; [| discriminate].
  unfold ret in H1. injection H1 as <- <-.
  apply fread_Done in H2. destruct H2 as (-> & -> & f & F & R).
  cbn [fst snd fname set_stream set_header] in H.
  destruct (fs (fname img)) as [f2 |] eqn:F2; [| discriminate].
  match type of H with
  | (if ?c then _ else _) = _ => destruct c eqn:C; [| discriminate]
  end.
  inversion H; subst. split; [reflexivity |].
  exists st0, f, buf, f2. repeat split; try assumption.
  apply Z.eqb_eq in C. exact C.
Qed.

(** C9.  An update that is given a kernel and no ramdisk, on an image
    whose header has a ramdisk size of 0, always aborts and writes
    nothing.  The carry-over of a segment of 0 bytes ends in
    [abort_perror] whatever the image holds: its [fread] of an item of 0
    bytes returns 0, not 1.  The same header passes
    [check_boot_img_header] when its magic, kernel size, page size and
    total size do. *)
Theorem update_kernel_without_ramdisk_aborts {A : c_abi} {B : bootimg_h}
    (config_args : list ascii) (name : string) (config : option string)
    (kernel_f : string) (second_f : option string) (fs : filesystem) :
  (forall f buf, fs name = Some f -> file_read f 0 sizeof_hdr = Some buf ->
                 ramdisk_size (hdr_of_bytes buf) = 0) ->
  (exists e, main update config_args
               (parsed_args name config (Some kernel_f) None second_f) fs = Aborted e fs) /\
  (forall img off st fs0,
     stream img = Some st -> off < 2 ^ (LONG_BITS - 1) ->
     carry_over img off 0 fs0 = Aborted (Perror (cs (fname img))) fs0) /\
  (forall img, ramdisk_size (header img) = 0 ->
               strncmp (magic (header img)) BOOT_MAGIC BOOT_MAGIC_SIZE = 0 ->
               kernel_size (header img) <> 0 -> page_size (header img) <> 0 ->
               hdr_total_size (header img) <= size img ->
               snd (check_boot_img_header img) = 0).
Proof.
  intros Hz. split; [| split].
  - set (img0 := parsed_args name config (Some kernel_f) None second_f).
    assert (S : exists e, update_steps config_args img0 fs = Aborted e fs).
    { destruct (update_steps config_args img0 fs) as [img' fs' | e fs'] eqn:E.
      2: { exists e. f_equal. eapply never_writes_Aborted, E. apply never_writes_update_steps. }
      exfalso. unfold update_steps in E.
      apply bind_Done in E. destruct E as (i1 & f1 & E1 & E).
      apply bind_Done in E. destruct E as (i2 & f2 & E2 & E).
      apply bind_Done in E. destruct E as (i3 & f3 & E3 & E4).
      cbn in E1. destruct (fs name) as [f |] eqn:F; [| discriminate].
      injection E1 as <- <-.
      apply read_header_Done in E2.
      destruct E2 as (-> & st & g & buf & g2 & S & G & R & G2 & -> & _).
      cbn in S. injection S as <-. cbn in G, R. rewrite F in G. injection G as <-.
      pose proof (Hz f buf eq_refl R) as Z0.
      pose proof (update_header_same _ _ _ _ _ E3) as SS.
      assert (f3 = fs) by (eapply never_writes_Done, E3; apply never_writes_update_header).
      subst f3. unfold same_segments in SS. cbn in SS.
      destruct SS as (_ & _ & Sk & Sr & _ & _ & _ & _ & _ & _ & _ & Srs & _).
      destruct (update_images_without_ramdisk i3 fs) as (e & C).
      - rewrite Sk. discriminate.
      - exact Sr.
      - rewrite Srs. exact Z0.
      - rewrite C in E4. discriminate. }
    destruct S as (e & S). exists e. cbn [main]. unfold bind. rewrite S. reflexivity.
  - intros img off st fs0 S L. unfold carry_over, bind, the_stream. rewrite S.
    unfold ret at 1. unfold fseek. destruct (Z.ltb_spec off (2 ^ (LONG_BITS - 1))); [| lia].
    unfold ret at 1. unfold fread. cbn [f_readable f_path f_pos].
    destruct (f_readable st); [| reflexivity].
    destruct (fs0 (f_path st)); reflexivity.
  - intros img R M K P T. unfold check_boot_img_header.
    rewrite M. cbn [Z.eqb negb].
    destruct (Z.eqb_spec (kernel_size (header img)) 0); [contradiction |].
    destruct (Z.eqb_spec (page_size (header img)) 0); [contradiction |].
    unfold hdr_total_size, total_size in T.
    match goal with |- context [size img <? ?t] => destruct (Z.ltb_spec (size img) t) end;
      [lia | reflexivity].
Qed.

Lemma update_kernel_without_ramdisk_aborts_witness :
  (forall f buf, fs_k3_r0 "boot.img"%string = Some f ->
                 file_read f 0 (@sizeof_hdr aosp) = Some buf ->
                 ramdisk_size (@hdr_of_bytes aosp buf) = 0) /\
  exists e, @main lp64 aosp update [] (@parsed_args aosp "boot.img" None (Some "zImage"%string) None None)
              fs_k3_r0 = Aborted e fs_k3_r0.
Proof.
  assert (H : forall f buf, fs_k3_r0 "boot.img"%string = Some f ->
                            file_read f 0 (@sizeof_hdr aosp) = Some buf ->
                            ramdisk_size (@hdr_of_bytes aosp buf) = 0).
  { intros f buf F R. inversion F; subst. clear F. vm_compute in R. inversion R. reflexivity. }
  split; [exact H |].
  exact (proj1 (@update_kernel_without_ramdisk_aborts lp64 aosp [] "boot.img" None
                  "zImage" None fs_k3_r0 H)).
Defined.

(** ** C3: the total size against the size of the image *)

Lemma load_file_Done name fs sz buf fs' :
  load_file name fs = Done (sz, buf) fs' ->
  fs' = fs /\ exists f, fs name = Some f /\ sz = u32 (f_len f) /\ file_read f 0 sz = Some buf.
Proof.
  unfold load_file. destruct (fs name) as [f |]; [| discriminate].
  destruct (file_read f 0 (u32 (f_len f))) as [b |] eqn:R; [| discriminate].
  intros H. injection H as <- <- <-. eauto.
Qed.

Lemma carry_over_Done {A : c_abi} img off sz fs buf img' fs' :
  carry_over img off sz fs = Done (buf, img') fs' ->
  fs' = fs /\
  exists st f,
    stream img = Some st /\ fs (f_path st) = Some f /\ file_read f off sz = Some buf /\
    img' = set_stream img (Some (mk_FILE (f_path st) (off + sz) (f_readable st) (f_writable st))).
Proof.
  unfold carry_over. intros H.
  apply bind_Done in H. destruct H as (st & fs1 & H1 & H).
  apply bind_Done in H. destruct H as (st2 & fs2 & H2 & H).
  apply bind_Done in H. destruct H as ([b st3] & fs3 & H3 & H).
  unfold the_stream in H1. destruct (stream img) as [st0 |]; [| discriminate].
  unfold ret in H1. injection H1 as <- <-.
  unfold fseek in H2. destruct (off <? _); [| discriminate].
  unfold ret in H2. injection H2 as <- <-.
  apply fread_Done in H3. destruct H3 as (-> & -> & f & F & R). cbn in F, R.
  unfold ret in H. cbn in H. injection H as <- <- <-.
  split; [reflexivity |]. exists st0, f. auto.
Qed.

Lemma same_target_refl i : same_target i i.
Proof. unfold same_target. repeat split; reflexivity. Qed.

Lemma same_target_trans i j k : same_target i j -> same_target j k -> same_target i k.
Proof.
  unfold same_target.
  intros (a1 & a2 & a3 & a4 & a5 & a6 & a7 & a8) (b1 & b2 & b3 & b4 & b5 & b6 & b7 & b8).
  repeat split; congruence.
Qed.

Lemma resolve_segments_target {A : c_abi} img fs img' fs' :
  resolve_segments img fs = Done img' fs' ->
  fs' = fs /\ same_target img img' /\ page_size (header img) <> 0.
Proof.
  intros H. split; [eapply never_writes_Done, H; apply never_writes_resolve_segments |].
  unfold resolve_segments in H.
  destruct (Z.eqb_spec (page_size (header img)) 0) as [| P]; [discriminate |].
  split; [| exact P].
  apply bind_Done in H. destruct H as (i1 & f1 & H1 & H).
  apply bind_Done in H. destruct H as (i2 & f2 & H2 & H3).
  assert (T1 : same_target img i1).
  { destruct (kernel_fname img).
    - apply bind_Done in H1. destruct H1 as ([sz b] & f0 & _ & H1).
      unfold ret in H1. injection H1 as <- <-. unfold same_target. cbn. repeat split; reflexivity.
    - unfold ret in H1. injection H1 as <- <-. apply same_target_refl. }
  assert (T2 : same_target i1 i2).
  { destruct (ramdisk_fname i1).
    - apply bind_Done in H2. destruct H2 as ([sz b] & f0 & _ & H2).
      unfold ret in H2. injection H2 as <- <-. unfold same_target. cbn. repeat split; reflexivity.
    - destruct (kernel i1).
      + apply bind_Done in H2. destruct H2 as ([b j] & f0 & C & H2).
        apply carry_over_Done in C. destruct C as (_ & st & f & S & _ & _ & ->).
        unfold ret in H2. injection H2 as <- <-. unfold same_target. cbn. rewrite S. cbn.
        repeat split; reflexivity.
      + unfold ret in H2. injection H2 as <- <-. apply same_target_refl. }
  assert (T3 : same_target i2 img').
  { destruct (second_fname i2).
    - apply bind_Done in H3. destruct H3 as ([sz b] & f0 & _ & H3).
      unfold ret in H3. injection H3 as <- <-. unfold same_target. cbn. repeat split; reflexivity.
    - destruct (ramdisk i2).
      + destruct (second_size (header i2) =? 0).
        * unfold ret in H3. injection H3 as <- <-. apply same_target_refl.
        * apply bind_Done in H3. destruct H3 as ([b j] & f0 & C & H3).
          apply carry_over_Done in C. destruct C as (_ & st & f & S & _ & _ & ->).
          unfold ret in H3. injection H3 as <- <-. unfold same_target. cbn. rewrite S. cbn.
          repeat split; reflexivity.
      + unfold ret in H3. injection H3 as <- <-. apply same_target_refl. }
  eapply same_target_trans; [exact T1 |]. eapply same_target_trans; [exact T2 | exact T3].
Qed.

(** What [update_images] does once the segments are resolved. *)
Lemma update_images_check {A : c_abi} img fs img1 fs1 :
  resolve_segments img fs = Done img1 fs1 ->
  update_images img fs =
    if size img1 =? 0 then Done (set_size img1 (hdr_total_size (header img1))) fs
    else if size img1 <? hdr_total_size (header img1) then
      Aborted (Printf (cs (fname img1) ++
                       cs ": updated is too big for the Boot Image (" ++
                       fmt_u (hdr_total_size (header img1)) ++ cs " vs " ++
                       fmt_u (size img1) ++ cs " bytes)" ++ [LF])) fs
    else Done img1 fs.
Proof.
  intros H. pose proof (resolve_segments_target _ _ _ _ H) as (-> & T & _).
  unfold update_images, bind. rewrite H.
  destruct T as (_ & _ & _ & _ & _ & _ & _ & P). unfold hdr_total_size. rewrite P.
  destruct (size img1 =? 0); [reflexivity |].
  destruct (size img1 <? _); reflexivity.
Qed.

Lemma never_writes_after_open {A : c_abi} {B : bootimg_h} cfg img :
  never_writes
    (img <- update_header cfg img ;;
     img <- update_images img ;;
     if snd (check_boot_img_header img) =? 0 then ret img
     else abort_printf (cs (fname img) ++ cs ": Sanity cheks failed")).
Proof. repeat ro_step. Qed.




(** ** [write_bootimg], write by write *)

Lemma fseek_Done {A : c_abi} who st off fs st' fs' :
  fseek who st off fs = Done st' fs' ->
  fs' = fs /\ st' = mk_FILE (f_path st) off (f_readable st) (f_writable st).
Proof.
  unfold fseek. destruct (off <? _); [| discriminate].
  unfold ret. intros H. injection H as <- <-. auto.
Qed.

Lemma fwrite_Done who st src buflen count fs st' fs' f :
  fwrite who st src buflen count fs = Done st' fs' ->
  fs (f_path st) = Some f ->
  fs' (f_path st) = Some (file_write f (f_pos st) count src) /\
  st' = mk_FILE (f_path st) (f_pos st + count) (f_readable st) (f_writable st) /\
  (count = 0 \/ count <= buflen).
Proof.
  unfold fwrite. intros H F. destruct (Z.eqb_spec count 0) as [-> | N].
  - injection H as <- <-. unfold file_write. cbn. rewrite Z.add_0_r.
    destruct st; cbn. auto.
  - destruct (Z.ltb_spec buflen count); [discriminate |].
    destruct (f_writable st); [| discriminate]. rewrite F in H.
    injection H as <- <-. unfold fs_set. rewrite String.eqb_refl. auto.
Qed.

Lemma fwrite_exists who st src buflen count fs st' fs' :
  fwrite who st src buflen count fs = Done st' fs' -> count <> 0 ->
  exists f, fs (f_path st) = Some f.
Proof.
  unfold fwrite. intros H N. destruct (Z.eqb_spec count 0); [contradiction |].
  destruct (buflen <? count); [discriminate |].
  destruct (f_writable st); [| discriminate].
  destruct (fs (f_path st)); [eauto | discriminate].
Qed.

Lemma write_segment_Done who st buf psize sz fs st' fs' f :
  write_segment who st buf psize sz fs = Done st' fs' ->
  fs (f_path st) = Some f ->
  exists b, buf = Some b /\
    fs' (f_path st) = Some (segment_written f (f_pos st) b psize sz) /\
    st' = mk_FILE (f_path st) (f_pos st + sz + segment_padding_len psize sz)
                  (f_readable st) (f_writable st) /\
    (sz = 0 \/ sz <= Z.of_nat (List.length b)).
Proof.
  unfold write_segment. intros H F. destruct buf as [b |]; [| discriminate].
  apply bind_Done in H. destruct H as (st1 & fs1 & H1 & H2).
  destruct (fwrite_Done _ _ _ _ _ _ _ _ _ H1 F) as (F1 & -> & L).
  destruct (fwrite_Done _ _ _ _ _ _ _ _ _ H2 F1) as (F2 & -> & _).
  exists b. cbn in *. unfold segment_written. auto.
Qed.

(** [write_bootimg] leaves the file [image_after_write] describes. *)
Lemma write_bootimg_Done {A : c_abi} {B : bootimg_h} img fs fs' st f :
  write_bootimg img fs = Done tt fs' ->
  stream img = Some st -> fs (f_path st) = Some f ->
  fs' (f_path st) = Some (image_after_write img f) /\
  page_size (header img) <> 0 /\
  (header_padding_len (header img) = 0 \/
   header_padding_len (header img) <= page_size (header img)) /\
  (second_size (header img) <> 0 -> second img <> None).
Proof.
  unfold write_bootimg. intros H S F.
  destruct (Z.eqb_spec (page_size (header img)) 0) as [| P]; [discriminate |].
  apply bind_Done in H. destruct H as (s0 & fs0 & H0 & H).
  unfold the_stream in H0. rewrite S in H0. unfold ret in H0. injection H0 as <- <-.
  apply bind_Done in H. destruct H as (s1 & fs1 & H1 & H).
  apply fseek_Done in H1. destruct H1 as (-> & ->).
  apply bind_Done in H. destruct H as (s2 & fs2 & H2 & H).
  destruct (fwrite_Done _ _ _ _ _ _ _ _ _ H2 F) as (F2 & -> & _). cbn in F2.
  apply bind_Done in H. destruct H as (s3 & fs3 & H3 & H).
  destruct (fwrite_Done _ _ _ _ _ _ _ _ _ H3 F2) as (F3 & -> & L3). cbn in F3.
  apply bind_Done in H. destruct H as (s4 & fs4 & H4 & H).
  apply bind_Done in H. destruct H as (s5 & fs5 & H5 & H).
  apply bind_Done in H. destruct H as (s6 & fs6 & H6 & H).
  unfold image_after_write. cbn zeta.
  (* kernel *)
  assert (K : exists f4, fs4 (f_path st) = Some f4 /\ f_path s4 = f_path st /\
              f4 = match kernel img with
                   | Some k => segment_written
                                 (file_write (file_write f 0 sizeof_hdr (of_buf (hdr_bytes (header img))))
                                    sizeof_hdr (header_padding_len (header img)) of_padding)
                                 (sizeof_hdr + header_padding_len (header img)) k
                                 (page_size (header img)) (kernel_size (header img))
                   | None => file_write (file_write f 0 sizeof_hdr (of_buf (hdr_bytes (header img))))
                                    sizeof_hdr (header_padding_len (header img)) of_padding
                   end).
  { destruct (kernel img) as [k |].
    - destruct (write_segment_Done _ _ _ _ _ _ _ _ _ H4 F3) as (b & E & F4 & -> & _).
      injection E as <-. cbn in *. eauto.
    - unfold ret in H4. injection H4 as <- <-. cbn. eauto. }
  destruct K as (f4 & F4 & P4 & E4). rewrite <- E4. clear E4 H4.
  (* ramdisk *)
  assert (R : exists f5, fs5 (f_path st) = Some f5 /\ f_path s5 = f_path st /\
              f5 = match ramdisk img with
                   | Some r => segment_written f4 (write_bootimg_roffset (header img)) r
                                 (page_size (header img)) (ramdisk_size (header img))
                   | None => f4
                   end).
  { destruct (ramdisk img) as [r |].
    - apply bind_Done in H5. destruct H5 as (t & fst & T & H5).
      apply fseek_Done in T. destruct T as (-> & ->).
      rewrite <- P4 in F4.
      destruct (write_segment_Done _ _ _ _ _ _ _ _ _ H5 F4) as (b & E & F5 & -> & _).
      injection E as <-. cbn in *. rewrite P4 in *. eauto.
    - unfold ret in H5. injection H5 as <- <-. eauto. }
  destruct R as (f5 & F5 & P5 & E5). rewrite <- E5. clear E5 H5.
  (* second stage *)
  assert (Q : exists f6, fs6 (f_path st) = Some f6 /\ f_path s6 = f_path st /\
              (second_size (header img) <> 0 -> second img <> None) /\
              f6 = match second img with
                   | Some s =>
                       if second_size (header img) =? 0 then f5
                       else segment_written f5 (write_bootimg_soffset (header img)) s
                              (page_size (header img)) (second_size (header img))
                   | None => f5
                   end).
  { destruct (Z.eqb_spec (second_size (header img)) 0) as [Z0 | N0].
    - unfold ret in H6. injection H6 as <- <-. exists f5.
      split; [exact F5 |]. split; [exact P5 |]. split; [intros; contradiction |].
      now destruct (second img).
    - apply bind_Done in H6. destruct H6 as (t & fst & T & H6).
      apply fseek_Done in T. destruct T as (-> & ->).
      rewrite <- P5 in F5.
      destruct (write_segment_Done _ _ _ _ _ _ _ _ _ H6 F5) as (b & E & F6 & -> & _).
      rewrite E. cbn in *. rewrite P5 in *. eexists.
      split; [exact F6 |]. split; [reflexivity |]. split; [discriminate | reflexivity]. }
  destruct Q as (f6 & F6 & P6 & Q & E6). rewrite <- E6. clear E6 H6.
  unfold ftruncate in H. rewrite P6, F6 in H. injection H as <-.
  unfold fs_set. rewrite String.eqb_refl. auto.
Qed.

(** ** C10: a page size below the size of the header *)

(** C10, as amended.  For a page size above 0 and below the size of the
    header record: the [pagesize] line sets it, no check intervening; the
    length of the header padding, [psize - sizeof(header)] taken in
    [size_t], wraps to [2^N - (sizeof(header) - psize)] for a [size_t] of
    [N] bits, more than [2^N - sizeof(header)]; and [write_bootimg], given
    such a header, writes the header record and then reads that many
    bytes from the page of padding. *)
Theorem small_page_size_wraps_padding {A : c_abi} {B : bootimg_h}
    (img : t_akbootimg) (ps : Z) :
  abi_ok A -> bootimg_h_ok B -> 0 < ps < sizeof_hdr ->
  update_header_entry img (config_line_x "pagesize" ps) =
    Ok (set_header img (set_page_size (header img) ps)) /\
  (page_size (header img) = ps ->
   header_padding_len (header img) = 2 ^ LONG_BITS - (sizeof_hdr - ps) /\
   2 ^ LONG_BITS - sizeof_hdr < header_padding_len (header img) /\
   forall fs st f,
     stream img = Some st -> f_writable st = true -> fs (f_path st) = Some f ->
     write_bootimg img fs =
       Aborted Fault
         (fs_set fs (f_path st)
            (file_write f 0 sizeof_hdr (of_buf (hdr_bytes (header img)))))).
Proof.
  intros HA (_ & _ & _ & HS) Hps.
  assert (HW : 2 ^ 32 <= 2 ^ LONG_BITS /\ 0 < 2 ^ (LONG_BITS - 1)).
  { destruct HA as [E | E]; rewrite E; cbn; lia. }
  split.
  - rewrite pagesize_entry by exact HA. rewrite u32_small by (unfold is_u32; lia). reflexivity.
  - intros P.
    assert (L : header_padding_len (header img) = 2 ^ LONG_BITS - (sizeof_hdr - ps)).
    { unfold header_padding_len. rewrite P.
      replace (ps - sizeof_hdr) with (2 ^ LONG_BITS - (sizeof_hdr - ps) + (-1) * 2 ^ LONG_BITS)
        by lia.
      rewrite Z.mod_add by lia. apply Z.mod_small. lia. }
    split; [exact L |]. split; [lia |].
    intros fs st f S W F. unfold write_bootimg.
    destruct (Z.eqb_spec (page_size (header img)) 0); [lia |].
    unfold bind at 1. unfold the_stream. rewrite S. unfold ret at 1.
    unfold bind at 1. unfold fseek.
    destruct (Z.ltb_spec 0 (2 ^ (LONG_BITS - 1))); [| lia]. unfold ret at 1.
    unfold bind at 1. unfold fwrite at 1. cbn [f_path f_pos f_writable f_readable].
    destruct (Z.eqb_spec sizeof_hdr 0); [lia |]. rewrite Z.ltb_irrefl, W, F.
    unfold bind at 1. unfold fwrite at 1. cbn [f_path f_pos f_writable f_readable].
    rewrite L, P.
    destruct (Z.eqb_spec (2 ^ LONG_BITS - (sizeof_hdr - ps)) 0); [lia |].
    destruct (Z.ltb_spec ps (2 ^ LONG_BITS - (sizeof_hdr - ps))); [reflexivity | lia].
Qed.

Lemma small_page_size_wraps_padding_witness :
  abi_ok ilp32 /\ bootimg_h_ok aosp /\ 0 < 256 < @sizeof_hdr aosp /\
  @update_header_entry ilp32 aosp img_update_ready (config_line_x "pagesize" 256) =
    Ok img_small_page /\
  @header_padding_len ilp32 aosp (header img_small_page) = 2 ^ 32 - 352.
Proof.
  assert (HA : abi_ok ilp32) by (left; reflexivity).
  assert (HP : 0 < 256 < @sizeof_hdr aosp) by (cbn; lia).
  destruct (@small_page_size_wraps_padding ilp32 aosp img_update_ready 256 HA aosp_ok HP)
    as (E & _).
  destruct (@small_page_size_wraps_padding ilp32 aosp img_small_page 256 HA aosp_ok HP)
    as (_ & W).
  destruct (W eq_refl) as (L & _).
  split; [exact HA |]. split; [exact aosp_ok |]. split; [exact HP |].
  split; [exact E | exact L].
Defined.

(** C10, as stated, fails where [size_t] has 64 bits: the padding length
    for a page size of 256 is [2^64 - 352], not the difference modulo
    [2^32]. *)
Lemma header_padding_not_mod_2_32 :
  @header_padding_len lp64 aosp (header img_small_page) = 2 ^ 64 - 352 /\
  (page_size (header img_small_page) - @sizeof_hdr aosp) mod 2 ^ 32 = 2 ^ 32 - 352 /\
  @header_padding_len lp64 aosp (header img_small_page) <>
    (page_size (header img_small_page) - @sizeof_hdr aosp) mod 2 ^ 32.
Proof. vm_compute. repeat split; discriminate. Qed.

(** The run of the update case with [pagesize = 0x100] passes every check
    and stops inside [write_bootimg]. *)
Lemma small_page_size_reaches_write :
  outcome_abort (@main lp64 aosp update (cs "pagesize = 0x100") args_update fs_k3_r2) =
    Some Fault.
Proof. vm_compute. reflexivity. Qed.

(** ** C2: the length of the image after the write *)

Lemma update_images_Done {A : c_abi} img fs img' fs' :
  update_images img fs = Done img' fs' ->
  fs' = fs /\
  exists img1,
    resolve_segments img fs = Done img1 fs /\
    img' = (if size img1 =? 0 then set_size img1 (hdr_total_size (header img1)) else img1) /\
    hdr_total_size (header img') <= size img'.
Proof.
  intros H.
  assert (fs' = fs) by (eapply never_writes_Done, H; apply never_writes_update_images).
  subst fs'. split; [reflexivity |].
  destruct (resolve_segments img fs) as [img1 fs1 | e fs1] eqn:R.
  2: { unfold update_images, bind in H. rewrite R in H. discriminate. }
  pose proof (resolve_segments_target _ _ _ _ R) as (-> & _ & _).
  rewrite (update_images_check _ _ _ _ R) in H. exists img1. split; [reflexivity |].
  destruct (Z.eqb_spec (size img1) 0).
  - injection H as <-. split; [reflexivity |]. cbn. lia.
  - destruct (Z.ltb_spec (size img1) (hdr_total_size (header img1))); [discriminate |].
    injection H as <-. split; [reflexivity | lia].
Qed.

(** What [update_images] hands to [write_bootimg]: the stream on the
    file of the image it was given, a size that holds the total size. *)
Lemma update_images_stream {A : c_abi} img fs img' fs' st :
  update_images img fs = Done img' fs' ->
  stream img = Some st -> f_path st = fname img ->
  fs' = fs /\ fname img' = fname img /\
  (exists st', stream img' = Some st' /\ f_path st' = fname img) /\
  hdr_total_size (header img') <= size img'.
Proof.
  intros H S P. apply update_images_Done in H. destruct H as (-> & img1 & R & -> & T).
  apply resolve_segments_target in R. destruct R as (_ & (_ & Tf & _ & _ & _ & Tp & _) & _).
  rewrite S in Tp. cbn in Tp.
  assert (Q : exists st', stream img1 = Some st' /\ f_path st' = fname img).
  { destruct (stream img1) as [st' |]; [| discriminate]. cbn in Tp. injection Tp as Tp.
    exists st'. split; [reflexivity | congruence]. }
  split; [reflexivity |]. destruct (size img1 =? 0); cbn; auto.
Qed.

Lemma update_steps_Done {A : c_abi} {B : bootimg_h} cfg bootimg fs img fs' :
  update_steps cfg bootimg fs = Done img fs' ->
  fs' = fs /\ fname img = fname bootimg /\
  (exists f, fs (fname bootimg) = Some f) /\
  (exists st, stream img = Some st /\ f_path st = fname bootimg) /\
  hdr_total_size (header img) <= size img.
Proof.
  intros H. unfold update_steps in H.
  apply bind_Done in H. destruct H as (i1 & f1 & H1 & H).
  apply bind_Done in H. destruct H as (i2 & f2 & H2 & H).
  apply bind_Done in H. destruct H as (i3 & f3 & H3 & H4).
  cbn in H1. destruct (fs (fname bootimg)) as [f |] eqn:F; [| discriminate].
  injection H1 as <- <-.
  apply read_header_Done in H2.
  destruct H2 as (-> & st & g & buf & g2 & S & _ & _ & _ & -> & _).
  cbn in S. injection S as <-.
  pose proof (update_header_same _ _ _ _ _ H3) as SS.
  assert (f3 = fs) by (eapply never_writes_Done, H3; apply never_writes_update_header).
  subst f3. unfold same_segments in SS. cbn in SS.
  destruct SS as (Sf & _ & _ & _ & _ & Ss & _).
  destruct (update_images_stream _ _ _ _ _ H4 Ss) as (-> & Ef & Q & T); [cbn; congruence |].
  rewrite Sf in *. split; [reflexivity |]. split; [exact Ef |].
  split; [eauto |]. split; [exact Q | exact T].
Qed.

Lemma create_steps_Done {A : c_abi} {B : bootimg_h} cfg bootimg fs img fs' :
  create_steps cfg bootimg fs = Done img fs' ->
  fs' = fs_set fs (fname bootimg) empty_file /\ fname img = fname bootimg /\
  (exists st, stream img = Some st /\ f_path st = fname bootimg) /\
  hdr_total_size (header img) <= size img.
Proof.
  intros H.
  assert (fs' = fs_set fs (fname bootimg) empty_file).
  { unfold create_steps, bind at 1 in H. cbn [open_bootimg] in H.
    eapply never_writes_Done, H. apply never_writes_after_open. }
  subst fs'. split; [reflexivity |]. unfold create_steps in H.
  apply bind_Done in H. destruct H as (i1 & f1 & H1 & H).
  apply bind_Done in H. destruct H as (i2 & f2 & H2 & H).
  apply bind_Done in H. destruct H as (i3 & f3 & H3 & H4).
  cbn in H1. injection H1 as <- <-.
  pose proof (update_header_same _ _ _ _ _ H2) as SS.
  unfold same_segments in SS. cbn in SS. destruct SS as (Sf & _ & _ & _ & _ & Ss & _).
  destruct (update_images_stream _ _ _ _ _ H3 Ss) as (-> & Ef & Q & T); [cbn; congruence |].
  rewrite Sf in *.
  destruct (snd (check_boot_img_header i3) =? 0); [| discriminate].
  unfold ret in H4. injection H4 as <- _. auto.
Qed.


Lemma outcome_ok_Done (o : outcome unit) : outcome_ok o = true -> o = Done tt (outcome_fs o).
Proof. destruct o as [[] fs | e fs]; [reflexivity | discriminate]. Qed.



(** ** Bytes a file holds, through writes and truncation *)

Lemma file_read_Some f off n buf :
  file_read f off n = Some buf ->
  0 < n /\ off + n <= f_len f /\ Z.of_nat (List.length buf) = n /\
  forall i, (i < List.length buf)%nat -> nth i buf NUL = f_data f (off + Z.of_nat i).
Proof.
  unfold file_read. destruct (Z.ltb_spec 0 n); [| discriminate].
  destruct (Z.leb_spec (off + n) (f_len f)); [| discriminate]. cbn [andb].
  intros E. injection E as <-. rewrite length_map, length_seq.
  split; [assumption |]. split; [assumption |]. split; [lia |].
  intros i Hi.
  rewrite (nth_indep _ NUL (f_data f (off + Z.of_nat 0))) by (now rewrite length_map, length_seq).
  rewrite (map_nth (fun i => f_data f (off + Z.of_nat i))). now rewrite seq_nth.
Qed.

Lemma holds_read f off buf :
  holds f off buf -> buf <> [] ->
  file_read f off (Z.of_nat (List.length buf)) = Some buf.
Proof.
  intros (H0 & H1 & H2) Hn. unfold file_read.
  destruct (Z.ltb_spec 0 (Z.of_nat (List.length buf))).
  2: { destruct buf; [contradiction | cbn [List.length] in *; lia]. }
  destruct (Z.leb_spec (off + Z.of_nat (List.length buf)) (f_len f)); [| lia].
  cbn [andb]. f_equal. rewrite Nat2Z.id.
  apply (nth_ext _ _ NUL NUL); [now rewrite length_map, length_seq |].
  intros i Hi. rewrite length_map, length_seq in Hi.
  rewrite (nth_indep _ NUL (f_data f (off + Z.of_nat 0))) by (now rewrite length_map, length_seq).
  rewrite (map_nth (fun i => f_data f (off + Z.of_nat i))). rewrite seq_nth by exact Hi.
  now rewrite H2.
Qed.

Lemma holds_write_same f off buf :
  0 <= off -> buf <> [] ->
  holds (file_write f off (Z.of_nat (List.length buf)) (of_buf buf)) off buf.
Proof.
  intros H0 Hn. unfold file_write, holds.
  destruct (Z.leb_spec (Z.of_nat (List.length buf)) 0).
  { destruct buf; [contradiction | cbn [List.length] in *; lia]. }
  cbn [f_len f_data]. split; [exact H0 |]. split; [lia |].
  intros i Hi.
  destruct (Z.leb_spec off (off + Z.of_nat i)); [| lia].
  destruct (Z.ltb_spec (off + Z.of_nat i) (off + Z.of_nat (List.length buf))); [| lia].
  cbn [andb]. unfold of_buf. f_equal. lia.
Qed.

Lemma holds_write_after f off buf off' count src :
  holds f off buf -> off + Z.of_nat (List.length buf) <= off' ->
  holds (file_write f off' count src) off buf.
Proof.
  intros (H0 & H1 & H2) Ha. unfold file_write.
  destruct (count <=? 0); [repeat split; assumption |].
  unfold holds. cbn [f_len f_data]. split; [exact H0 |]. split; [lia |].
  intros i Hi. destruct (Z.leb_spec off' (off + Z.of_nat i)); [lia |]. cbn [andb].
  destruct (Z.ltb_spec (off + Z.of_nat i) (f_len f)); [| lia]. apply H2, Hi.
Qed.

Lemma holds_truncate f off buf n :
  holds f off buf -> off + Z.of_nat (List.length buf) <= n ->
  holds (file_truncate f n) off buf.
Proof.
  intros (H0 & H1 & H2) Hn. unfold file_truncate, holds. cbn [f_len f_data].
  split; [exact H0 |]. split; [exact Hn |].
  intros i Hi. destruct (Z.ltb_spec (off + Z.of_nat i) (Z.min (f_len f) n)); [| lia].
  apply H2, Hi.
Qed.

(** A segment written at [pos] is held there; a segment written later at
    or after its end leaves it alone. *)
Lemma holds_segment_written f pos b psize :
  0 <= pos -> b <> [] ->
  holds (segment_written f pos b psize (Z.of_nat (List.length b))) pos b.
Proof.
  intros H0 Hn. unfold segment_written.
  apply holds_write_after; [apply holds_write_same; assumption | lia].
Qed.

Lemma holds_segment_after f off buf pos b psize sz :
  holds f off buf -> off + Z.of_nat (List.length buf) <= pos -> 0 <= sz ->
  holds (segment_written f pos b psize sz) off buf.
Proof.
  intros H Ha Hs. unfold segment_written.
  apply holds_write_after; [apply holds_write_after; assumption | lia].
Qed.

(** ** C4: the ramdisk carried over *)





(** * Further properties of the code *)

(** ** [getline] and [update_header] *)

Lemma getlines_spec s : forall cur,
  Forall (fun c => c <> LF) cur ->
  List.concat (getlines cur s) = rev cur ++ s /\
  Forall line_shape (getlines cur s) /\
  Forall ends_with_newline (removelast (getlines cur s)).
Proof.
  induction s as [| c s IH]; intros cur F.
  - cbn [getlines]. destruct cur as [| x cur].
    + cbn. repeat split; constructor.
    + cbn [List.concat removelast]. rewrite !app_nil_r. split; [reflexivity |].
      split; [| constructor]. constructor; [| constructor].
      exists (rev (x :: cur)). split.
      * apply Forall_rev, F.
      * right. split; [reflexivity |]. cbn [rev]. destruct (rev cur); discriminate.
  - cbn [getlines]. destruct (Ascii.eqb_spec c LF) as [-> | N].
    + assert (F0 : Forall (fun c => c <> LF) (@nil ascii)) by constructor.
      destruct (IH [] F0) as (C & S & E).
      cbn [List.concat]. rewrite C. cbn [rev app]. split.
      * rewrite <- app_assoc. reflexivity.
      * split.
        -- constructor; [| exact S]. exists (rev cur).
           split; [apply Forall_rev, F | left; reflexivity].
        -- cbn [removelast]. destruct (getlines [] s) as [| l ls] eqn:G; [constructor |].
           constructor; [exists (rev cur); reflexivity | exact E].
    + assert (F' : Forall (fun c => c <> LF) (c :: cur)) by (constructor; assumption).
      destruct (IH (c :: cur) F') as (C & S & E).
      rewrite C. cbn [rev]. rewrite <- app_assoc. cbn [app]. auto.
Qed.

(** [getline] cuts a text into its lines and loses nothing: the lines put
    together are the text; each line has its only newline at its end, and
    only the last line may lack one; a text that is empty gives no line. *)
Theorem getlines_lossless (s : list ascii) :
  List.concat (getlines [] s) = s /\
  Forall line_shape (getlines [] s) /\
  Forall ends_with_newline (removelast (getlines [] s)) /\
  (getlines [] s = [] <-> s = []).
Proof.
  assert (F0 : Forall (fun c => c <> LF) (@nil ascii)) by constructor.
  destruct (getlines_spec s [] F0) as (C & S & E). cbn [rev app] in C.
  split; [exact C |]. split; [exact S |]. split; [exact E |].
  split.
  - intros G. rewrite G in C. cbn in C. congruence.
  - intros ->. reflexivity.
Qed.

Lemma update_header_lines_app {A : c_abi} {B : bootimg_h} l1 : forall img l2,
  update_header_lines img (l1 ++ l2) =
  match update_header_lines img l1 with
  | Ok img' => update_header_lines img' l2
  | Abort e => Abort e
  end.
Proof.
  induction l1 as [| l ls IH]; intros img l2; [reflexivity |].
  cbn [app update_header_lines]. destruct (update_header_entry img l); [apply IH | reflexivity].
Qed.

(** [update_header] applies the lines of the config file, in order, and
    then the lines of [config_args], in order, stopping at the first line
    that is refused; a config file that cannot be opened ends the run; no
    file is written. *)
Theorem update_header_file_then_args {A : c_abi} {B : bootimg_h}
    (config_args : list ascii) (img : t_akbootimg) (fs : filesystem) :
  update_header config_args img fs =
  match config_fname img with
  | None => lift (update_header_lines img (getlines [] config_args)) fs
  | Some name =>
      match fs name with
      | None => Aborted (Perror (cs name)) fs
      | Some f =>
          lift (update_header_lines img
                  (getlines [] (file_bytes f) ++ getlines [] config_args)) fs
      end
  end.
Proof.
  unfold update_header, bind. destruct (config_fname img) as [name |].
  - destruct (fs name) as [f |]; [| reflexivity].
    rewrite update_header_lines_app.
    destruct (update_header_lines img (getlines [] (file_bytes f))) as [img1 | e];
      cbn [lift ret]; [| reflexivity].
    unfold strlen. destruct config_args as [| c r]; [reflexivity |].
    cbn [List.length]. destruct (Z.eqb_spec (Z.of_nat (S (List.length r))) 0); [lia | reflexivity].
  - cbn [ret]. unfold strlen. destruct config_args as [| c r]; [reflexivity |].
    cbn [List.length]. destruct (Z.eqb_spec (Z.of_nat (S (List.length r))) 0); [lia | reflexivity].
Qed.

(** ** What config entries keep *)

Lemma apply_entry_blkdev {A : c_abi} {B : bootimg_h} img token value img' :
  apply_entry img token value = Ok img' ->
  is_blkdev img' = is_blkdev img /\ (is_blkdev img = true -> size img' = size img).
Proof.
  unfold apply_entry, bad_config_entry. intros H.
  destruct (strcmp token (cs "cmdline") =? 0).
  { destruct (BOOT_ARGS_SIZE <=? _); [discriminate |]. injection H as <-. cbn. auto. }
  destruct (strncmp token (cs "bootsize") 8 =? 0).
  { destruct (is_blkdev img) eqn:Bk; cbn [andb] in H.
    - destruct (Z.eqb_spec (size img) (u32 (strtoul value))) as [E | N]; cbn [negb] in H;
        [| discriminate].
      injection H as <-. cbn. split; [exact Bk | intros _; symmetry; exact E].
    - injection H as <-. cbn. split; [exact Bk | discriminate]. }
  repeat match type of H with
         | context [if ?c then _ else _] => destruct c
         end;
    try discriminate; injection H as <-; cbn; auto.
Qed.

Lemma update_header_entry_blkdev {A : c_abi} {B : bootimg_h} img cmd img' :
  update_header_entry img cmd = Ok img' ->
  is_blkdev img' = is_blkdev img /\ (is_blkdev img = true -> size img' = size img).
Proof.
  unfold update_header_entry. intros H.
  match type of H with
  | match ?p with _ => _ end = _ => destruct p as [| c p']; [discriminate |]
  end.
  destruct c as [[] [] [] [] [] [] [] []]; try discriminate.
  eapply apply_entry_blkdev, H.
Qed.

(** No config text changes the size of a block device: on an image marked
    as a block device, whatever lines [update_header] accepts leave the
    size and the mark as they were (a [bootsize] that differs aborts). *)
Theorem block_device_size_is_kept {A : c_abi} {B : bootimg_h}
    (lines : list (list ascii)) (img img' : t_akbootimg) :
  is_blkdev img = true ->
  update_header_lines img lines = Ok img' ->
  size img' = size img /\ is_blkdev img' = true.
Proof.
  revert img. induction lines as [| l ls IH]; intros img Bk H; cbn in H.
  - injection H as <-. auto.
  - destruct (update_header_entry img l) as [img1 |] eqn:E; [| discriminate].
    destruct (update_header_entry_blkdev _ _ _ E) as (B1 & S1).
    rewrite Bk in B1. destruct (IH img1 B1 H) as (S2 & B2).
    split; [rewrite S2; apply S1, Bk | exact B2].
Qed.

Lemma Forall_skipn_nonul n (l : list ascii) :
  Forall (fun c => c <> NUL) l -> Forall (fun c => c <> NUL) (skipn n l).
Proof.
  intros F. rewrite Forall_forall in *. intros c Hc. apply F. eapply In_skipn, Hc.
Qed.

Lemma length_skipn_le {T} n (l : list T) : (List.length (skipn n l) <= List.length l)%nat.
Proof. rewrite length_skipn. lia. Qed.

Lemma length_firstn_le {T} n (l : list T) : (List.length (firstn n l) <= List.length l)%nat.
Proof. rewrite length_firstn. lia. Qed.

Lemma length_cstr_le l : (List.length (cstr l) <= List.length l)%nat.
Proof.
  induction l as [| c l IH]; cbn; [lia |]. destruct (Ascii.eqb c NUL); cbn; lia.
Qed.

Lemma apply_entry_cmdline {A : c_abi} {B : bootimg_h} img token value img' :
  bootimg_h_ok B -> Forall (fun c => c <> NUL) value -> strlen value < 2 ^ 32 ->
  cmdline_terminated (header img) ->
  apply_entry img token value = Ok img' ->
  cmdline_terminated (header img').
Proof.
  intros (_ & _ & HB & _) Nv Lv T. unfold apply_entry, bad_config_entry. intros H.
  destruct (strcmp token (cs "cmdline") =? 0).
  { unfold strlen in *. rewrite u32_small in H by (unfold is_u32; lia).
    destruct (Z.leb_spec BOOT_ARGS_SIZE (Z.of_nat (List.length value))); [discriminate |].
    injection H as <-. unfold cmdline_terminated. cbn [header set_header cmdline set_cmdline].
    rewrite length_app, repeat_length, cstr_app_nul by exact Nv. unfold strlen. lia. }
  repeat match type of H with
         | context [if ?c then _ else _] => destruct c
         end;
    try discriminate; injection H as <-; exact T.
Qed.

(** A config line shorter than [2^32] bytes leaves the command line field
    a terminated string of exactly its size: a [cmdline] entry is refused
    when the value does not fit with its terminating NUL, and is stored
    followed by zero bytes when it does. *)
Theorem cmdline_field_stays_terminated {A : c_abi} {B : bootimg_h}
    (img : t_akbootimg) (cmd : list ascii) (img' : t_akbootimg) :
  bootimg_h_ok B -> strlen cmd < 2 ^ 32 ->
  cmdline_terminated (header img) ->
  update_header_entry img cmd = Ok img' ->
  cmdline_terminated (header img').
Proof.
  intros HB L T. unfold update_header_entry. intros H.
  set (line := match strchr (cstr cmd) LF with
               | Some i => firstn i (cstr cmd) | None => cstr cmd end) in H.
  assert (Nl : Forall (fun c => c <> NUL) line).
  { pose proof (cstr_is_nonul cmd) as N. subst line.
    destruct (strchr (cstr cmd) LF); [| exact N].
    rewrite Forall_forall in *. intros c Hc. apply N. eapply In_firstn, Hc. }
  assert (Ll : (List.length line <= List.length cmd)%nat).
  { subst line. pose proof (length_cstr_le cmd).
    destruct (strchr (cstr cmd) LF); [| assumption].
    pose proof (length_firstn_le n (cstr cmd)). lia. }
  set (p0 := skipn (strspn line blanks) line) in H.
  set (p := skipn (strspn (skipn (strcspn p0 blanks_eq) p0) blanks)
                  (skipn (strcspn p0 blanks_eq) p0)) in H.
  assert (Np : Forall (fun c => c <> NUL) p) by (subst p p0; now do 3 apply Forall_skipn_nonul).
  assert (Lp : (List.length p <= List.length cmd)%nat).
  { subst p p0. repeat match goal with
                  | |- context [List.length (skipn ?n ?l)] =>
                      pose proof (length_skipn_le n l); rewrite (length_skipn n l)
                  end. lia. }
  destruct p as [| c p']; [discriminate |].
  destruct c as [[] [] [] [] [] [] [] []]; try discriminate.
  eapply apply_entry_cmdline; [exact HB | | | exact T | exact H].
  - apply Forall_skipn_nonul. now inversion Np.
  - unfold strlen in *. pose proof (length_skipn_le (strspn p' blanks) p').
    cbn [List.length] in Lp. lia.
Qed.

Lemma block_device_size_is_kept_witness :
  is_blkdev img_blkdev = true /\
  @update_header_lines lp64 aosp img_blkdev
     [cs "bootsize = 10000"; cs "pagesize = 4096"] =
    Ok (set_header (set_size img_blkdev 10000) (set_page_size hdr_k3_r2 4096)) /\
  size (set_header (set_size img_blkdev 10000) (set_page_size hdr_k3_r2 4096)) =
    size img_blkdev.
Proof.
  assert (H : @update_header_lines lp64 aosp img_blkdev
                [cs "bootsize = 10000"; cs "pagesize = 4096"] =
              Ok (set_header (set_size img_blkdev 10000) (set_page_size hdr_k3_r2 4096)))
    by reflexivity.
  split; [reflexivity |]. split; [exact H |].
  exact (proj1 (@block_device_size_is_kept lp64 aosp _ img_blkdev _ (eq_refl true) H)).
Defined.

Lemma img_k3_r2_terminated : @cmdline_terminated aosp (header img_k3_r2).
Proof. unfold cmdline_terminated. cbn. split; [reflexivity | lia]. Qed.

Lemma cmdline_field_stays_terminated_witness :
  bootimg_h_ok aosp /\ strlen (cs "cmdline = quiet" ++ [LF]) < 2 ^ 32 /\
  @cmdline_terminated aosp (header img_k3_r2) /\
  @update_header_entry lp64 aosp img_k3_r2 (cs "cmdline = quiet" ++ [LF]) =
    Ok (set_header img_k3_r2 (set_cmdline hdr_k3_r2 (cs "quiet" ++ repeat NUL 507))) /\
  @cmdline_terminated aosp (set_cmdline hdr_k3_r2 (cs "quiet" ++ repeat NUL 507)).
Proof.
  assert (L : strlen (cs "cmdline = quiet" ++ [LF]) < 2 ^ 32) by (cbn; lia).
  assert (H : @update_header_entry lp64 aosp img_k3_r2 (cs "cmdline = quiet" ++ [LF]) =
              Ok (set_header img_k3_r2 (set_cmdline hdr_k3_r2 (cs "quiet" ++ repeat NUL 507))))
    by reflexivity.
  split; [exact aosp_ok |]. split; [exact L |]. split; [exact img_k3_r2_terminated |].
  split; [exact H |].
  exact (@cmdline_field_stays_terminated lp64 aosp _ _ _ aosp_ok L img_k3_r2_terminated H).
Defined.

(** ** Values that are not numbers *)

Lemma skip_space_id value : not_numeric_start value -> skip_space value = value.
Proof.
  destruct value as [| c r]; [reflexivity |]. intros (S & _). cbn. now rewrite S.
Qed.

Lemma strtoul_not_numeric {A : c_abi} value :
  abi_ok A -> not_numeric_start value -> strtoul value = 0.
Proof.
  intros HA H. unfold strtoul. rewrite (skip_space_id value H).
  assert (U : (ULONG_MAX <? 0) = false).
  { unfold ULONG_MAX. destruct HA as [E | E]; rewrite E; reflexivity. }
  destruct value as [| c r]; [cbn; rewrite U; reflexivity |].
  destruct H as (_ & Nm & Np & D).
  assert (V : digits_value 10 (c :: r) 0 = 0).
  { cbn [digits_value]. destruct (digit_of c) as [d |] eqn:E; [| reflexivity].
    specialize (D d eq_refl). destruct (Z.ltb_spec d 10); [lia | reflexivity]. }
  assert (Z0 : c <> "0"%char).
  { intros ->. specialize (D 0 eq_refl). lia. }
  destruct c as [[] [] [] [] [] [] [] []];
    try (exfalso; apply Nm; reflexivity); try (exfalso; apply Np; reflexivity);
    try (exfalso; apply Z0; reflexivity);
    cbv beta iota; rewrite V, U; reflexivity.
Qed.

(** A numeric key whose value does not begin like a number is accepted
    and sets the field to 0, without a diagnostic: [pagesize = ...] then
    makes [update_images] abort on the page size, [bootsize = ...] leaves
    the size of a regular image at 0. *)
Theorem value_that_is_no_number_reads_as_zero {A : c_abi} {B : bootimg_h}
    (img : t_akbootimg) (value : list ascii) :
  abi_ok A -> not_numeric_start value ->
  Forall (fun c => c <> NUL /\ c <> LF) value ->
  update_header_entry img (cs "pagesize" ++ cs " = " ++ value ++ [LF]) =
    Ok (set_header img (set_page_size (header img) 0)) /\
  (forall fs, exists msg,
     update_images (set_header img (set_page_size (header img) 0)) fs =
       Aborted (Printf msg) fs) /\
  (is_blkdev img = false ->
   update_header_entry img (cs "bootsize" ++ cs " = " ++ value ++ [LF]) =
     Ok (set_size img 0)).
Proof.
  intros HA Hn Fv.
  assert (Hb : mem_char (hd "x"%char value) blanks = false).
  { destruct value as [| c r]; [reflexivity |]. destruct Hn as (S & _). cbn [hd].
    unfold isspace in S. unfold mem_char, blanks. cbn [existsb].
    destruct (Ascii.eqb_spec c " ") as [-> | _]; [discriminate S |].
    destruct (Ascii.eqb_spec c TAB) as [-> | _]; [discriminate S | reflexivity]. }
  split; [| split].
  - rewrite update_header_entry_line;
      [| discriminate | apply key_chars_ok; reflexivity | exact Fv | exact Hb].
    unfold apply_entry. rewrite (strtoul_not_numeric value HA Hn). reflexivity.
  - intros fs. eexists. unfold update_images, resolve_segments, bind. cbn. reflexivity.
  - intros Bk.
    rewrite update_header_entry_line;
      [| discriminate | apply key_chars_ok; reflexivity | exact Fv | exact Hb].
    unfold apply_entry. rewrite (strtoul_not_numeric value HA Hn), Bk. reflexivity.
Qed.

Lemma value_that_is_no_number_reads_as_zero_witness :
  abi_ok lp64 /\ not_numeric_start (cs "two thousand") /\
  Forall (fun c => c <> NUL /\ c <> LF) (cs "two thousand") /\
  @update_header_entry lp64 aosp img_k3_r2 (cs "pagesize = two thousand" ++ [LF]) =
    Ok (set_header img_k3_r2 (set_page_size hdr_k3_r2 0)).
Proof.
  assert (HA : abi_ok lp64) by (right; reflexivity).
  assert (Hn : not_numeric_start (cs "two thousand")).
  { cbn. repeat split; try discriminate. intros d E. injection E as <-. lia. }
  assert (Fv : Forall (fun c => c <> NUL /\ c <> LF) (cs "two thousand"))
    by (repeat constructor; discriminate).
  split; [exact HA |]. split; [exact Hn |]. split; [exact Fv |].
  exact (proj1 (@value_that_is_no_number_reads_as_zero lp64 aosp img_k3_r2 _ HA Hn Fv)).
Defined.

(** ** [parse_args] *)

Lemma parse_options_app_n {A : c_abi} n : forall opts img cfg i c more,
  (List.length opts <= n)%nat ->
  parse_options opts img cfg = Ok (Parsed i c) ->
  parse_options (opts ++ more) img cfg = parse_options more i c.
Proof.
  induction n as [| n IH]; intros opts img cfg i c more L H.
  - destruct opts; [| cbn in L; lia]. cbn in H. injection H as <- <-. reflexivity.
  - destruct opts as [| o rest]; [cbn in H; injection H as <- <-; reflexivity |].
    cbn [parse_options app] in *.
    destruct rest as [| a rest'].
    + repeat match type of H with
             | context [if ?b then _ else _] => destruct b
             end; discriminate.
    + cbn [List.length] in L. cbn [app].
      repeat match type of H with
             | (if ?b then _ else _) = _ => destruct b
             end; try discriminate; apply IH; (lia || assumption).
Qed.

(** The options of [-u] and [-t] are read from left to right: options
    that are read completely leave a state from which the rest is read, so
    a later [-f], [-k], [-r] or [-s] replaces an earlier one; an argument
    left over at the end gives [help]. *)
Theorem parse_options_left_to_right {A : c_abi} (opts : list string)
    (img : t_akbootimg) (cfg : list ascii) (i : t_akbootimg) (c : list ascii) :
  parse_options opts img cfg = Ok (Parsed i c) ->
  (forall more, parse_options (opts ++ more) img cfg = parse_options more i c) /\
  (forall a,
     parse_options (opts ++ ["-f"; a]%string) img cfg =
       Ok (Parsed (set_config_fname i (Some a)) c) /\
     parse_options (opts ++ ["-k"; a]%string) img cfg =
       Ok (Parsed (set_kernel_fname i (Some a)) c) /\
     parse_options (opts ++ ["-r"; a]%string) img cfg =
       Ok (Parsed (set_ramdisk_fname i (Some a)) c) /\
     parse_options (opts ++ ["-s"; a]%string) img cfg =
       Ok (Parsed (set_second_fname i (Some a)) c)) /\
  (forall o, parse_options (opts ++ [o]) img cfg = Ok Parsed_help).
Proof.
  intros H.
  assert (P : forall more, parse_options (opts ++ more) img cfg = parse_options more i c)
    by (intros more; eapply parse_options_app_n; [apply Nat.le_refl | exact H]).
  split; [exact P |]. split.
  - intros a. rewrite !P. repeat split; reflexivity.
  - intros o. rewrite P. cbn [parse_options].
    repeat match goal with
           | |- context [if ?b then _ else _] => destruct b
           end; reflexivity.
Qed.

Lemma parse_options_left_to_right_witness :
  @parse_options lp64 ["-k"; "a"; "-c"; "pagesize=4096"]%string img_k3_r2 [] =
    Ok (Parsed (set_kernel_fname img_k3_r2 (Some "a"%string)) (cs "pagesize=4096" ++ [LF])) /\
  @parse_options lp64 (["-k"; "a"; "-c"; "pagesize=4096"]%string ++ ["-k"; "b"]%string)
     img_k3_r2 [] =
    Ok (Parsed (set_kernel_fname (set_kernel_fname img_k3_r2 (Some "a"%string))
                                 (Some "b"%string))
               (cs "pagesize=4096" ++ [LF])).
Proof.
  assert (H : @parse_options lp64 ["-k"; "a"; "-c"; "pagesize=4096"]%string img_k3_r2 [] =
              Ok (Parsed (set_kernel_fname img_k3_r2 (Some "a"%string))
                         (cs "pagesize=4096" ++ [LF]))) by reflexivity.
  split; [exact H |].
  exact (proj1 (proj2 (proj1 (proj2 (@parse_options_left_to_right lp64 _ _ _ _ _ H))
                         "b"%string))).
Defined.

Lemma getlines_terminated_lines (ls : list (list ascii)) :
  Forall (Forall (fun c => c <> LF)) ls ->
  getlines [] (List.concat (map (fun l => l ++ [LF]) ls)) = map (fun l => l ++ [LF]) ls.
Proof.
  induction 1 as [| l ls Fl _ IH]; [reflexivity |].
  cbn [map List.concat]. rewrite <- app_assoc. cbn [app].
  rewrite getlines_line by exact Fl. now rewrite IH.
Qed.

Lemma parse_options_inline {A : c_abi} (dirs : list string) : forall img cfg,
  abi_ok A ->
  strlen (cfg ++ List.concat (map (fun d => cs d ++ [LF]) dirs)) < MAX_CONF_LEN ->
  parse_options (flat_map (fun d => ["-c"%string; d]) dirs) img cfg =
    Ok (Parsed img (cfg ++ List.concat (map (fun d => cs d ++ [LF]) dirs))).
Proof.
  induction dirs as [| d ds IH]; intros img cfg HA L.
  - cbn. now rewrite app_nil_r.
  - cbn [flat_map map List.concat app parse_options] in *.
    change (String.eqb "-c" "-c") with true. cbv iota.
    unfold strlen, MAX_CONF_LEN in *. rewrite !length_app in L. cbn [List.length] in L.
    assert (W : 2 ^ 32 <= 2 ^ LONG_BITS) by (destruct HA as [E | E]; rewrite E; cbn; lia).
    rewrite (u32_small (Z.of_nat (List.length (cs d)))) by (unfold is_u32; lia).
    rewrite Z.mod_small by lia.
    destruct (Z.leb_spec 4096 (Z.of_nat (List.length cfg) + Z.of_nat (List.length (cs d)) + 1));
      [lia |].
    destruct (Z.ltb_spec 4096 (Z.of_nat (List.length cfg) + Z.of_nat (List.length (cs d)) + 2));
      [lia |].
    rewrite IH; [| exact HA |].
    + rewrite <- !app_assoc. reflexivity.
    + unfold strlen, MAX_CONF_LEN. rewrite !length_app. cbn [List.length]. lia.
Qed.

(** The [-c] directives of an update or create command line are gathered
    in [config_args] in the order given, one per line; [update_header]
    then finds exactly these lines (for directives without a newline, and
    less than 4096 bytes in all).  The names of the config, kernel,
    ramdisk and second-stage files are cleared. *)
Theorem inline_config_in_order {A : c_abi} (prog name : string) (dirs : list string)
    (img : t_akbootimg) :
  abi_ok A ->
  Forall (fun d => Forall (fun c => c <> LF) (cs d)) dirs ->
  strlen (List.concat (map (fun d => cs d ++ [LF]) dirs)) < MAX_CONF_LEN ->
  let text := List.concat (map (fun d => cs d ++ [LF]) dirs) in
  let img' := mk_img (size img) (is_blkdev img) name None None None None
                     (stream img) (header img) (kernel img) (ramdisk img) (second img) in
  parse_args (prog :: "-u"%string :: name :: flat_map (fun d => ["-c"%string; d]) dirs) img [] =
    Ok (update, img', text) /\
  parse_args (prog :: "-t"%string :: name :: flat_map (fun d => ["-c"%string; d]) dirs) img [] =
    Ok (create, img', text) /\
  getlines [] text = map (fun d => cs d ++ [LF]) dirs.
Proof.
  intros HA F L text img'. split; [| split].
  - cbn [parse_args]. change (String.eqb "-u" "-h") with false.
    change (String.eqb "-u" "-x") with false. change (String.eqb "-u" "-u") with true.
    cbv iota. cbn [orb]. rewrite parse_options_inline by assumption. reflexivity.
  - cbn [parse_args]. change (String.eqb "-t" "-h") with false.
    change (String.eqb "-t" "-x") with false. change (String.eqb "-t" "-u") with false.
    change (String.eqb "-t" "-t") with true.
    cbv iota. cbn [orb]. rewrite parse_options_inline by assumption. reflexivity.
  - subst text. rewrite <- (map_map cs (fun l => l ++ [LF])).
    rewrite getlines_terminated_lines; [reflexivity |].
    rewrite Forall_map. exact F.
Qed.

Lemma inline_config_in_order_witness :
  abi_ok lp64 /\
  @parse_args lp64 ["akbootimg"; "-u"; "boot.img"; "-c"; "pagesize=4096"; "-c"; "cmdline=quiet"]%string
     img_k3_r2 [] =
    Ok (update,
        mk_img 10000 false "boot.img" None None None None None hdr_k3_r2 None None None,
        cs "pagesize=4096" ++ [LF] ++ cs "cmdline=quiet" ++ [LF]).
Proof.
  assert (HA : abi_ok lp64) by (right; reflexivity).
  split; [exact HA |].
  refine (proj1 (@inline_config_in_order lp64 "akbootimg" "boot.img"
                   ["pagesize=4096"; "cmdline=quiet"]%string img_k3_r2 HA _ _)).
  - repeat constructor; discriminate.
  - cbn. unfold MAX_CONF_LEN. lia.
Defined.

Lemma parse_options_bounded_n {A : c_abi} n : forall opts img cfg,
  abi_ok A -> (List.length opts <= n)%nat ->
  strlen cfg < MAX_CONF_LEN ->
  Forall (fun a => strlen (cs a) < 2 ^ 31) opts ->
  parse_options opts img cfg <> Abort Fault /\
  forall i c, parse_options opts img cfg = Ok (Parsed i c) -> strlen c < MAX_CONF_LEN.
Proof.
  induction n as [| n IH]; intros opts img cfg HA L Lc F.
  - destruct opts; [| cbn in L; lia]. cbn. split; [discriminate |].
    intros i c H. injection H as <- <-. exact Lc.
  - destruct opts as [| o rest].
    { cbn. split; [discriminate |]. intros i c H. injection H as <- <-. exact Lc. }
    cbn [parse_options]. destruct rest as [| a rest'].
    + repeat match goal with
             | |- context [if ?b then _ else _] => destruct b
             end; split; discriminate.
    + cbn [List.length] in L. inversion F as [| ? ? _ F1]; subst.
      inversion F1 as [| ? ? La F2]; subst.
      destruct (String.eqb o "-c").
      * unfold strlen, MAX_CONF_LEN in *.
        assert (W : 2 ^ 32 <= 2 ^ LONG_BITS) by (destruct HA as [E | E]; rewrite E; cbn; lia).
        rewrite (u32_small (Z.of_nat (List.length (cs a)))) by (unfold is_u32; lia).
        rewrite Z.mod_small by lia.
        destruct (Z.leb_spec 4096 (Z.of_nat (List.length cfg) + Z.of_nat (List.length (cs a)) + 1)).
        { split; discriminate. }
        destruct (Z.ltb_spec 4096 (Z.of_nat (List.length cfg) + Z.of_nat (List.length (cs a)) + 2));
          [lia |].
        apply IH; [exact HA | lia | | exact F2].
        rewrite !length_app. cbn [List.length]. lia.
      * repeat match goal with
               | |- context [if ?b then _ else _] => destruct b
               end;
          try (apply IH; [exact HA | lia | exact Lc | exact F2]).
        split; discriminate.
Qed.

(** [config_args] never overflows: with arguments shorter than [2^31]
    bytes, [parse_args] never writes past the 4096 bytes of the buffer,
    and what it leaves there is shorter than 4096 bytes; directives that
    do not fit end the run with "too many config parameters". *)
Theorem config_args_never_overflows {A : c_abi} (argv : list string) (img : t_akbootimg) :
  abi_ok A ->
  Forall (fun a => strlen (cs a) < 2 ^ 31) argv ->
  parse_args argv img [] <> Abort Fault /\
  forall cmd img' cfg,
    parse_args argv img [] = Ok (cmd, img', cfg) -> strlen cfg < MAX_CONF_LEN.
Proof.
  intros HA F. unfold parse_args.
  assert (L0 : strlen [] < MAX_CONF_LEN) by reflexivity.
  destruct argv as [| prog [| flag rest]];
    try (split; [discriminate | intros cmd img' cfg H; injection H as <- <- <-; exact L0]).
  destruct (String.eqb flag "-h");
    [split; [discriminate | intros cmd img' cfg H; injection H as <- <- <-; exact L0] |].
  destruct (String.eqb flag "-x").
  { destruct rest as [| name outs];
      [split; [discriminate | intros cmd img' cfg H; injection H as <- <- <-; exact L0] |].
    destruct (4 <? List.length outs)%nat;
      split; try discriminate; intros cmd img' cfg H; injection H as <- <- <-; exact L0. }
  destruct (String.eqb flag "-u" || String.eqb flag "-t");
    [| split; [discriminate | intros cmd img' cfg H; injection H as <- <- <-; exact L0]].
  destruct rest as [| name opts];
    [split; [discriminate | intros cmd img' cfg H; injection H as <- <- <-; exact L0] |].
  inversion F as [| ? ? _ F1]; subst. inversion F1 as [| ? ? _ F2]; subst.
  inversion F2 as [| ? ? _ F3]; subst.
  match goal with
  | |- context [parse_options opts ?i []] =>
      destruct (parse_options_bounded_n (List.length opts) opts i [] HA (Nat.le_refl _) L0 F3)
        as (NF & B);
      destruct (parse_options opts i []) as [[| i' c'] | e] eqn:E
  end.
  - split; [discriminate | intros cmd img' cfg H; injection H as <- <- <-; exact L0].
  - split; [discriminate |]. intros cmd img' cfg H. injection H as <- <- <-.
    eapply B. reflexivity.
  - split; [| discriminate]. intros H. apply NF. congruence.
Qed.

Lemma config_args_never_overflows_witness :
  abi_ok ilp32 /\
  Forall (fun a => strlen (cs a) < 2 ^ 31)
         ["akbootimg"; "-t"; "boot.img"; "-c"; "bootsize=0x800000"; "-k"; "zImage"]%string /\
  @parse_args ilp32 ["akbootimg"; "-t"; "boot.img"; "-c"; "bootsize=0x800000"; "-k"; "zImage"]%string
     img_k3_r2 [] <> Abort Fault.
Proof.
  assert (HA : abi_ok ilp32) by (left; reflexivity).
  assert (F : Forall (fun a => strlen (cs a) < 2 ^ 31)
                ["akbootimg"; "-t"; "boot.img"; "-c"; "bootsize=0x800000"; "-k"; "zImage"]%string)
    by (repeat constructor).
  split; [exact HA |]. split; [exact F |].
  exact (proj1 (@config_args_never_overflows ilp32 _ img_k3_r2 HA F)).
Defined.

(** ** Files that are not the image *)

Lemma writes_only_never_writes {T} path (c : M T) : never_writes c -> writes_only path c.
Proof.
  intros H fs p _. specialize (H fs). destruct (c fs); cbn; now subst.
Qed.

Lemma writes_only_bind_post {T U} path (P : T -> Prop) (c : M T) (k : T -> M U) :
  writes_only path c ->
  (forall fs t fs', c fs = Done t fs' -> P t) ->
  (forall t, P t -> writes_only path (k t)) ->
  writes_only path (bind c k).
Proof.
  intros Hc Hp Hk fs p Np. unfold bind. specialize (Hc fs p Np).
  destruct (c fs) as [t fs1 | e fs1] eqn:E; cbn in *; [| exact Hc].
  rewrite <- Hc. apply (Hk t (Hp _ _ _ E)), Np.
Qed.

Lemma fs_set_other fs path f p : p <> path -> fs_set fs path f p = fs p.
Proof.
  intros N. unfold fs_set. destruct (String.eqb_spec p path); [contradiction | reflexivity].
Qed.

Lemma writes_only_fwrite who st src buflen count :
  writes_only (f_path st) (fwrite who st src buflen count).
Proof.
  intros fs p Np. unfold fwrite.
  destruct (count =? 0); [reflexivity |]. destruct (buflen <? count); [reflexivity |].
  destruct (f_writable st); [| reflexivity].
  destruct (fs (f_path st)); [| reflexivity]. cbn. now apply fs_set_other.
Qed.

Lemma fwrite_path who st src buflen count fs st' fs' :
  fwrite who st src buflen count fs = Done st' fs' -> f_path st' = f_path st.
Proof.
  unfold fwrite. destruct (count =? 0); [intros H; injection H as <- _; reflexivity |].
  destruct (buflen <? count); [discriminate |]. destruct (f_writable st); [| discriminate].
  destruct (fs (f_path st)); [| discriminate]. intros H. injection H as <- _. reflexivity.
Qed.

Lemma fseek_path {A : c_abi} who st off fs st' fs' :
  fseek who st off fs = Done st' fs' -> f_path st' = f_path st.
Proof. intros H. apply fseek_Done in H. destruct H as (_ & ->). reflexivity. Qed.

Lemma writes_only_write_segment who st buf psize sz :
  writes_only (f_path st) (write_segment who st buf psize sz).
Proof.
  unfold write_segment. destruct buf as [b |]; [| apply writes_only_never_writes, never_writes_fault].
  apply (writes_only_bind_post _ (fun st' => f_path st' = f_path st)).
  - apply writes_only_fwrite.
  - intros fs t fs' H. eapply fwrite_path, H.
  - intros t <-. apply writes_only_fwrite.
Qed.

Lemma write_segment_path who st buf psize sz fs st' fs' :
  write_segment who st buf psize sz fs = Done st' fs' -> f_path st' = f_path st.
Proof.
  unfold write_segment. destruct buf as [b |]; [| discriminate]. intros H.
  apply bind_Done in H. destruct H as (s1 & f1 & H1 & H2).
  apply fwrite_path in H1. apply fwrite_path in H2. congruence.
Qed.

Lemma writes_only_ftruncate st n : writes_only (f_path st) (ftruncate st n).
Proof.
  intros fs p Np. unfold ftruncate. destruct (fs (f_path st)); [| reflexivity].
  cbn. now apply fs_set_other.
Qed.

Lemma writes_only_write_bootimg {A : c_abi} {B : bootimg_h} img st :
  stream img = Some st -> writes_only (f_path st) (write_bootimg img).
Proof.
  intros S. unfold write_bootimg.
  destruct (page_size (header img) =? 0); [apply writes_only_never_writes, never_writes_fault |].
  unfold the_stream. rewrite S.
  apply (writes_only_bind_post _ (fun s => f_path s = f_path st)).
  { apply writes_only_never_writes, never_writes_ret. }
  { intros fs t fs' H. unfold ret in H. injection H as <- _. reflexivity. }
  intros s0 P0.
  apply (writes_only_bind_post _ (fun s => f_path s = f_path st)).
  { apply writes_only_never_writes, never_writes_fseek. }
  { intros fs t fs' H. apply fseek_path in H. congruence. }
  intros s1 P1.
  apply (writes_only_bind_post _ (fun s => f_path s = f_path st)).
  { rewrite <- P1. apply writes_only_fwrite. }
  { intros fs t fs' H. apply fwrite_path in H. congruence. }
  intros s2 P2.
  apply (writes_only_bind_post _ (fun s => f_path s = f_path st)).
  { rewrite <- P2. apply writes_only_fwrite. }
  { intros fs t fs' H. apply fwrite_path in H. congruence. }
  intros s3 P3.
  apply (writes_only_bind_post _ (fun s => f_path s = f_path st)).
  { destruct (kernel img); [rewrite <- P3; apply writes_only_write_segment |
                            apply writes_only_never_writes, never_writes_ret]. }
  { intros fs t fs' H. destruct (kernel img).
    - apply write_segment_path in H. congruence.
    - unfold ret in H. injection H as <- _. exact P3. }
  intros s4 P4.
  apply (writes_only_bind_post _ (fun s => f_path s = f_path st)).
  { destruct (ramdisk img); [| apply writes_only_never_writes, never_writes_ret].
    apply (writes_only_bind_post _ (fun s => f_path s = f_path st)).
    - apply writes_only_never_writes, never_writes_fseek.
    - intros fs t fs' H. apply fseek_path in H. congruence.
    - intros t Pt. rewrite <- Pt. apply writes_only_write_segment. }
  { intros fs t fs' H. destruct (ramdisk img).
    - apply bind_Done in H. destruct H as (t1 & f1 & H1 & H2).
      apply fseek_path in H1. apply write_segment_path in H2. congruence.
    - unfold ret in H. injection H as <- _. exact P4. }
  intros s5 P5.
  apply (writes_only_bind_post _ (fun s => f_path s = f_path st)).
  { destruct (second_size (header img) =? 0);
      [apply writes_only_never_writes, never_writes_ret |].
    apply (writes_only_bind_post _ (fun s => f_path s = f_path st)).
    - apply writes_only_never_writes, never_writes_fseek.
    - intros fs t fs' H. apply fseek_path in H. congruence.
    - intros t Pt. rewrite <- Pt. apply writes_only_write_segment. }
  { intros fs t fs' H. destruct (second_size (header img) =? 0).
    - unfold ret in H. injection H as <- _. exact P5.
    - apply bind_Done in H. destruct H as (t1 & f1 & H1 & H2).
      apply fseek_path in H1. apply write_segment_path in H2. congruence. }
  intros s6 P6. rewrite <- P6. apply writes_only_ftruncate.
Qed.

(** An update or a create changes no file but the image, whether it
    returns or aborts, and whatever the config and the replacement files
    are. *)
Theorem only_the_image_is_written {A : c_abi} {B : bootimg_h}
    (cmd : command) (cfg : list ascii) (bootimg : t_akbootimg) (fs : filesystem)
    (p : string) :
  cmd = update \/ cmd = create ->
  p <> fname bootimg ->
  outcome_fs (main cmd cfg bootimg fs) p = fs p.
Proof.
  intros [-> | ->] Np; cbn [main].
  - unfold bind. destruct (update_steps cfg bootimg fs) as [img fs1 | e fs1] eqn:S.
    + destruct (update_steps_Done _ _ _ _ _ S) as (-> & _ & _ & (st & St & P) & _).
      rewrite <- P in Np. apply (writes_only_write_bootimg img st St fs p Np).
    + cbn. rewrite (never_writes_Aborted _ _ _ _ (never_writes_update_steps cfg bootimg) S).
      reflexivity.
  - destruct (kernel_fname bootimg); [| reflexivity].
    unfold bind. destruct (create_steps cfg bootimg fs) as [img fs1 | e fs1] eqn:S.
    + destruct (create_steps_Done _ _ _ _ _ S) as (-> & _ & (st & St & P) & _).
      rewrite <- P in Np.
      rewrite (writes_only_write_bootimg img st St _ p Np). rewrite P in Np.
      now apply fs_set_other.
    + cbn. assert (fs1 = fs_set fs (fname bootimg) empty_file).
      { unfold create_steps, bind at 1 in S. cbn [open_bootimg] in S.
        eapply never_writes_Aborted, S. apply never_writes_after_open. }
      subst fs1. now apply fs_set_other.
Qed.

Lemma only_the_image_is_written_witness :
  file_length (outcome_fs (@main lp64 aosp update [] args_update fs_k3_r2)) "zImage" =
    Some 5.
Proof.
  unfold file_length.
  rewrite (@only_the_image_is_written lp64 aosp update [] args_update fs_k3_r2 "zImage"
             (or_introl eq_refl) ltac:(discriminate)).
  reflexivity.
Defined.

(** ** The buffers of the segments *)

Lemma load_file_sized name fs sz buf fs' :
  load_file name fs = Done (sz, buf) fs' -> Z.of_nat (List.length buf) = sz.
Proof.
  intros H. apply load_file_Done in H. destruct H as (_ & f & _ & _ & R).
  now destruct (file_read_Some _ _ _ _ R) as (_ & _ & L & _).
Qed.

Lemma carry_over_sized {A : c_abi} img off sz fs buf img' fs' :
  carry_over img off sz fs = Done (buf, img') fs' ->
  Z.of_nat (List.length buf) = sz /\ header img' = header img /\
  kernel img' = kernel img /\ ramdisk img' = ramdisk img /\ second img' = second img /\
  second_fname img' = second_fname img.
Proof.
  intros H. apply carry_over_Done in H. destruct H as (_ & st & f & _ & _ & R & ->).
  destruct (file_read_Some _ _ _ _ R) as (_ & _ & L & _). cbn.
  repeat split; auto.
Qed.

Lemma resolve_segments_sized {A : c_abi}
    (img : t_akbootimg) (fs : filesystem) (img1 : t_akbootimg) (fs1 : filesystem) :
  kernel img = None -> ramdisk img = None -> second img = None ->
  resolve_segments img fs = Done img1 fs1 ->
  buffers_sized img1 /\
  page_size (header img1) = page_size (header img) /\ size img1 = size img.
Proof.
  intros K0 R0 S0 H.
  destruct (resolve_segments_target _ _ _ _ H) as (_ & (Ts & _ & _ & _ & _ & _ & _ & Tp) & _).
  split; [| auto].
  unfold resolve_segments in H.
  destruct (page_size (header img) =? 0); [discriminate |].
  apply bind_Done in H. destruct H as (i1 & f1 & H1 & H).
  apply bind_Done in H. destruct H as (i2 & f2 & H2 & H3).
  (* after the kernel *)
  assert (I1 : buffers_sized i1 /\ ramdisk i1 = None /\ second i1 = None /\
               ramdisk_size (header i1) = ramdisk_size (header img) /\
               second_size (header i1) = second_size (header img) /\
               ramdisk_fname i1 = ramdisk_fname img /\ second_fname i1 = second_fname img).
  { destruct (kernel_fname img).
    - apply bind_Done in H1. destruct H1 as ([sz b] & f0 & L & H1).
      apply load_file_sized in L. unfold ret in H1. injection H1 as <- _.
      unfold buffers_sized. cbn. rewrite R0, S0.
      repeat split; try discriminate; auto. intros b' E. injection E as <-. exact L.
    - unfold ret in H1. injection H1 as <- _. unfold buffers_sized. rewrite K0, R0, S0.
      repeat split; discriminate || auto. }
  destruct I1 as ((Bk & _ & _) & R1 & S1 & Er & Es & Fr & Fs).
  (* after the ramdisk *)
  assert (I2 : buffers_sized i2 /\ second i2 = None /\
               second_size (header i2) = second_size (header img) /\
               second_fname i2 = second_fname img).
  { destruct (ramdisk_fname i1).
    - apply bind_Done in H2. destruct H2 as ([sz b] & f0 & L & H2).
      apply load_file_sized in L. unfold ret in H2. injection H2 as <- _.
      unfold buffers_sized. cbn. rewrite S1.
      repeat split; try discriminate; auto. intros b' E. injection E as <-. exact L.
    - destruct (kernel i1) as [k |] eqn:K1.
      + apply bind_Done in H2. destruct H2 as ([b j] & f0 & C & H2).
        apply carry_over_sized in C. destruct C as (L & Eh & Ek & _ & Esd & Efs).
        unfold ret in H2. injection H2 as <- _. unfold buffers_sized. cbn.
        rewrite ?Eh, ?Ek, ?Esd, ?S1, ?Efs, ?K1.
        repeat split; try discriminate; auto;
          intros b' E; injection E as <-;
          first [apply Bk; assumption | rewrite Er; exact L].
      + unfold ret in H2. injection H2 as <- _. unfold buffers_sized. rewrite K1, R1, S1.
        repeat split; discriminate || auto. }
  destruct I2 as ((Bk2 & Br2 & _) & S2 & Es2 & Fs2).
  (* after the second stage *)
  destruct (second_fname i2).
  - apply bind_Done in H3. destruct H3 as ([sz b] & f0 & L & H3).
    apply load_file_sized in L. unfold ret in H3. injection H3 as <- _.
    unfold buffers_sized. cbn. repeat split; auto.
    intros b' E. injection E as <-. exact L.
  - destruct (ramdisk i2) as [r |] eqn:R2.
    + destruct (second_size (header i2) =? 0).
      * unfold ret in H3. injection H3 as <- _. unfold buffers_sized. rewrite S2.
        repeat split; auto; intros b' E;
          first [discriminate E | apply Bk2; exact E | rewrite R2 in E; apply Br2; exact E].
      * apply bind_Done in H3. destruct H3 as ([b j] & f0 & C & H3).
        apply carry_over_sized in C. destruct C as (L & Eh & Ek & Erd & _ & _).
        unfold ret in H3. injection H3 as <- _. unfold buffers_sized. cbn.
        rewrite ?Eh, ?Ek, ?Erd. repeat split; auto; intros b' E;
          first [apply Bk2; exact E | rewrite R2 in E; apply Br2; exact E
                | injection E as <-; rewrite Es2; exact L].
    + unfold ret in H3. injection H3 as <- _. unfold buffers_sized. rewrite S2, R2.
      repeat split; auto; intros b' E;
        first [discriminate E | apply Bk2; exact E | rewrite R2 in E; apply Br2; exact E].
Qed.

(** Every buffer that [update_images] fills has exactly the size the
    header then gives for its segment, be it read from a replacement file
    or carried over from the image; the page size and the size of the
    image are not touched. *)
Theorem resolved_buffers_have_header_sizes {A : c_abi}
    (img : t_akbootimg) (fs : filesystem) (img1 : t_akbootimg) (fs1 : filesystem) :
  kernel img = None -> ramdisk img = None -> second img = None ->
  resolve_segments img fs = Done img1 fs1 ->
  buffers_sized img1 /\
  page_size (header img1) = page_size (header img) /\ size img1 = size img.
Proof. exact (resolve_segments_sized img fs img1 fs1). Qed.

Lemma resolved_buffers_have_header_sizes_witness :
  @resolve_segments lp64 img_update_tight fs_k3_r2 = Done img_update_resolved fs_k3_r2 /\
  buffers_sized img_update_resolved.
Proof.
  assert (R : @resolve_segments lp64 img_update_tight fs_k3_r2 =
              Done img_update_resolved fs_k3_r2) by (vm_compute; reflexivity).
  split; [exact R |].
  exact (proj1 (@resolved_buffers_have_header_sizes lp64 img_update_tight fs_k3_r2
                  img_update_resolved fs_k3_r2 (eq_refl None) (eq_refl None) (eq_refl None) R)).
Defined.

(** ** Runs that cannot complete *)

Lemma resolve_segments_nothing {A : c_abi} img fs img1 fs1 :
  kernel_fname img = None -> ramdisk_fname img = None -> second_fname img = None ->
  kernel img = None -> ramdisk img = None ->
  resolve_segments img fs = Done img1 fs1 -> img1 = img.
Proof.
  intros Fk Fr Fs K R H. unfold resolve_segments in H.
  destruct (page_size (header img) =? 0); [discriminate |].
  rewrite Fk in H. unfold bind at 1 in H. unfold ret at 1 in H.
  rewrite Fr, K in H. unfold bind at 1 in H. unfold ret at 1 in H.
  rewrite Fs, R in H. unfold ret in H. now injection H as <- _.
Qed.

(** An update that is given no kernel, ramdisk or second-stage file
    completes only on an image without a second stage: [write_bootimg]
    writes the second stage whenever its size is not 0, and no buffer was
    filled for it. *)
Theorem update_of_header_only_needs_no_second_stage {A : c_abi} {B : bootimg_h}
    (cfg : list ascii) (name : string) (config : option string) (fs fs' : filesystem)
    (f : file) (buf : list ascii) :
  main update cfg (parsed_args name config None None None) fs = Done tt fs' ->
  fs name = Some f -> file_read f 0 sizeof_hdr = Some buf ->
  second_size (hdr_of_bytes buf) = 0.
Proof.
  intros H F R. cbn [main] in H. apply bind_Done in H. destruct H as (img & fs1 & S & W).
  unfold update_steps in S.
  apply bind_Done in S. destruct S as (i1 & f1 & S1 & S).
  apply bind_Done in S. destruct S as (i2 & f2 & S2 & S).
  apply bind_Done in S. destruct S as (i3 & f3 & S3 & S4).
  cbn in S1. rewrite F in S1. injection S1 as <- <-.
  apply read_header_Done in S2.
  destruct S2 as (-> & st & g & b & g2 & St & G & Rb & _ & -> & _).
  cbn in St. injection St as <-. cbn in G, Rb. rewrite F in G. injection G as <-.
  rewrite R in Rb. injection Rb as <-.
  pose proof (update_header_same _ _ _ _ _ S3) as SS.
  assert (f3 = fs) by (eapply never_writes_Done, S3; apply never_writes_update_header).
  subst f3. unfold same_segments in SS. cbn in SS.
  destruct SS as (Sf & _ & Sk & Sr & Ss & Sst & Kk & Kr & Ks & _ & _ & _ & Z2).
  apply update_images_Done in S4. destruct S4 as (-> & img1 & Rs & E & _).
  apply resolve_segments_nothing in Rs; try assumption. subst img1.
  assert (Hs : second img = None /\ second_size (header img) = second_size (hdr_of_bytes buf) /\
               stream img = stream i3).
  { subst img. destruct (size i3 =? 0); cbn; auto. }
  destruct Hs as (Hs & Hz & Hst).
  destruct (Z.eq_dec (second_size (hdr_of_bytes buf)) 0) as [| N]; [assumption | exfalso].
  rewrite Sst in Hst.
  assert (F' : fs (f_path (mk_FILE name (0 + sizeof_hdr) true true)) = Some f) by exact F.
  destruct (write_bootimg_Done _ _ _ _ _ W Hst F') as (_ & _ & _ & Q).
  apply Q; [rewrite Hz; exact N | exact Hs].
Qed.

Lemma update_of_header_only_needs_no_second_stage_witness :
  @main lp64 aosp update [] args_update_nothing fs_k3_r2 =
    Done tt (outcome_fs (@main lp64 aosp update [] args_update_nothing fs_k3_r2)) /\
  fs_k3_r2 "boot.img"%string = Some image_k3_r2 /\
  second_size (aosp_hdr_of_bytes (aosp_hdr_bytes hdr_k3_r2)) = 0.
Proof.
  assert (E : @main lp64 aosp update [] args_update_nothing fs_k3_r2 =
              Done tt (outcome_fs (@main lp64 aosp update [] args_update_nothing fs_k3_r2)))
    by (apply outcome_ok_Done; vm_compute; reflexivity).
  assert (R : file_read image_k3_r2 0 (@sizeof_hdr aosp) = Some (aosp_hdr_bytes hdr_k3_r2))
    by (vm_compute; reflexivity).
  split; [exact E |]. split; [reflexivity |].
  exact (@update_of_header_only_needs_no_second_stage lp64 aosp [] "boot.img" None
           fs_k3_r2 _ image_k3_r2 _ E eq_refl R).
Defined.

Lemma carry_over_unreadable {A : c_abi} img off sz fs st :
  stream img = Some st -> f_readable st = false ->
  exists e, carry_over img off sz fs = Aborted e fs.
Proof.
  intros S R. unfold carry_over, bind, the_stream. rewrite S. cbn.
  unfold fseek. destruct (off <? _); cbn; [| eauto].
  unfold fread. cbn. rewrite R. eauto.
Qed.

Lemma update_images_unreadable {A : c_abi} img fs st :
  kernel_fname img <> None -> ramdisk_fname img = None ->
  stream img = Some st -> f_readable st = false ->
  exists e, update_images img fs = Aborted e fs.
Proof.
  intros Hk Hr S R.
  destruct (update_images img fs) as [img' fs' | e fs'] eqn:E.
  2: { exists e. f_equal. eapply never_writes_Aborted, E. apply never_writes_update_images. }
  exfalso. unfold update_images in E. apply bind_Done in E.
  destruct E as (img1 & fs1 & E & _). unfold resolve_segments in E.
  destruct (page_size (header img) =? 0); [discriminate |].
  apply bind_Done in E. destruct E as (i1 & f1 & E1 & E).
  apply bind_Done in E. destruct E as (i2 & f2 & E2 & _).
  destruct (kernel_fname img) as [kf |]; [| contradiction].
  apply bind_Done in E1. destruct E1 as (r & f0 & _ & E1).
  unfold ret in E1. injection E1 as <- <-.
  cbn in E2. rewrite Hr in E2. apply bind_Done in E2. destruct E2 as (r2 & f3 & E2 & _).
  match type of E2 with
  | carry_over ?i ?o ?z ?f = _ =>
      destruct (carry_over_unreadable i o z f st S R) as (e & C)
  end.
  rewrite C in E2. discriminate.
Qed.

(** A create that is given a kernel and no ramdisk never writes an image:
    with the kernel buffer set and no ramdisk file, [update_images] goes
    to carry the ramdisk over from the image, which [open_bootimg] has
    just emptied and opened for writing only; the run aborts and leaves
    the image file empty. *)
Theorem create_without_ramdisk_aborts {A : c_abi} {B : bootimg_h}
    (cfg : list ascii) (name : string) (config : option string) (kernel_f : string)
    (second_f : option string) (fs : filesystem) :
  exists e,
    main create cfg (parsed_args name config (Some kernel_f) None second_f) fs =
      Aborted e (fs_set fs name empty_file).
Proof.
  set (img0 := parsed_args name config (Some kernel_f) None second_f).
  assert (S : exists e, create_steps cfg img0 fs = Aborted e (fs_set fs name empty_file)).
  { destruct (create_steps cfg img0 fs) as [img' fs1 | e fs1] eqn:E.
    2: { exists e. f_equal. unfold create_steps, bind at 1 in E. cbn [open_bootimg] in E.
         eapply never_writes_Aborted, E. apply never_writes_after_open. }
    exfalso. unfold create_steps in E.
    apply bind_Done in E. destruct E as (i1 & f1 & E1 & E).
    apply bind_Done in E. destruct E as (i2 & f2 & E2 & E).
    apply bind_Done in E. destruct E as (i3 & f3 & E3 & _).
    cbn in E1. injection E1 as <- <-.
    pose proof (update_header_same _ _ _ _ _ E2) as SS.
    unfold same_segments in SS. cbn in SS.
    destruct SS as (_ & _ & Sk & Sr & _ & Sst & _).
    destruct (update_images_unreadable i2 f2 (mk_FILE name 0 false true)) as (e & C).
    - rewrite Sk. discriminate.
    - exact Sr.
    - exact Sst.
    - reflexivity.
    - rewrite C in E3. discriminate. }
  destruct S as (e & S). exists e. cbn [main]. subst img0. cbn [parsed_args kernel_fname].
  unfold bind. fold (parsed_args name config (Some kernel_f) None second_f). rewrite S.
  reflexivity.
Qed.

(** ** The extraction *)

Lemma extract_kernel_Done {A : c_abi} img fs img' fs' :
  extract_kernel img fs = Done img' fs' ->
  exists st f kb name,
    stream img = Some st /\ fs (f_path st) = Some f /\ kernel_fname img = Some name /\
    file_read f (page_size (header img)) (kernel_size (header img)) = Some kb /\
    fs' = fs_set fs name (file_of_bytes kb) /\
    img' = set_stream img (Some (mk_FILE (f_path st)
                                   (page_size (header img) + kernel_size (header img))
                                   (f_readable st) (f_writable st))).
Proof.
  unfold extract_kernel. intros H.
  apply bind_Done in H. destruct H as ([kb j] & f1 & C & H).
  apply carry_over_Done in C. destruct C as (-> & st & f & S & F & R & ->).
  cbn [fst snd] in H. destruct (kernel_fname img) as [name |]; [| discriminate].
  unfold bind, store_file, ret in H. injection H as <- <-.
  exists st, f, kb, name. repeat split; auto.
Qed.

Lemma extract_ramdisk_Done {A : c_abi} img fs img' fs' :
  extract_ramdisk img fs = Done img' fs' ->
  exists st f rb name,
    stream img = Some st /\ fs (f_path st) = Some f /\ ramdisk_fname img = Some name /\
    file_read f (extract_ramdisk_roffset (header img)) (ramdisk_size (header img)) = Some rb /\
    fs' = fs_set fs name (file_of_bytes rb) /\
    img' = set_stream img (Some (mk_FILE (f_path st)
                                   (extract_ramdisk_roffset (header img) +
                                    ramdisk_size (header img))
                                   (f_readable st) (f_writable st))).
Proof.
  unfold extract_ramdisk. intros H.
  apply bind_Done in H. destruct H as ([rb j] & f1 & C & H).
  apply carry_over_Done in C. destruct C as (-> & st & f & S & F & R & ->).
  cbn [fst snd] in H. destruct (ramdisk_fname img) as [name |]; [| discriminate].
  unfold bind, store_file, ret in H. injection H as <- <-.
  exists st, f, rb, name. repeat split; auto.
Qed.

(** The extraction of an image whose header has a ramdisk size of 0 never
    completes: [extract_ramdisk] reads one item of 0 bytes and takes the
    0 that [fread] returns for a failure. *)
Theorem extract_without_ramdisk_aborts {A : c_abi} {B : bootimg_h}
    (cfg : list ascii) (bootimg : t_akbootimg) (fs : filesystem) :
  (forall f buf, fs (fname bootimg) = Some f -> file_read f 0 sizeof_hdr = Some buf ->
                 ramdisk_size (hdr_of_bytes buf) = 0) ->
  exists e fs', main extract cfg bootimg fs = Aborted e fs'.
Proof.
  intros Hz. destruct (main extract cfg bootimg fs) as [[] fs' | e fs'] eqn:E; [| eauto].
  exfalso. cbn [main] in E.
  apply bind_Done in E. destruct E as (i1 & f1 & E1 & E).
  apply bind_Done in E. destruct E as (i2 & f2 & E2 & E).
  apply bind_Done in E. destruct E as ([] & f3 & _ & E).
  apply bind_Done in E. destruct E as (i4 & f4 & E4 & E).
  apply bind_Done in E. destruct E as (i5 & f5 & E5 & _).
  cbn in E1. destruct (fs (fname bootimg)) as [f |] eqn:F; [| discriminate].
  injection E1 as <- <-.
  apply read_header_Done in E2.
  destruct E2 as (-> & st & g & buf & g2 & S & G & R & _ & -> & _).
  cbn in S. injection S as <-. cbn in G, R. rewrite F in G. injection G as <-.
  pose proof (Hz f buf eq_refl R) as Z0.
  apply extract_kernel_Done in E4. destruct E4 as (st4 & g4 & kb & nm & _ & _ & _ & _ & _ & ->).
  unfold extract_ramdisk in E5. cbn [header set_stream set_is_blkdev set_size set_header] in E5.
  rewrite Z0 in E5. apply bind_Done in E5. destruct E5 as (r5 & f6 & C & _).
  match type of C with
  | carry_over ?i ?o 0 ?f = _ => destruct (carry_over_zero i o f) as (e & C')
  end.
  rewrite C' in C. discriminate.
Qed.

Lemma extract_without_ramdisk_aborts_witness :
  (forall f buf, fs_k3_r0_only (fname args_extract) = Some f ->
                 file_read f 0 (@sizeof_hdr aosp) = Some buf ->
                 ramdisk_size (@hdr_of_bytes aosp buf) = 0) /\
  exists e fs', @main lp64 aosp extract [] args_extract fs_k3_r0_only = Aborted e fs'.
Proof.
  assert (H : forall f buf, fs_k3_r0_only (fname args_extract) = Some f ->
                            file_read f 0 (@sizeof_hdr aosp) = Some buf ->
                            ramdisk_size (@hdr_of_bytes aosp buf) = 0).
  { intros f buf F R. cbn in F. injection F as <-. vm_compute in R. injection R as <-.
    reflexivity. }
  split; [exact H |].
  exact (@extract_without_ramdisk_aborts lp64 aosp [] args_extract fs_k3_r0_only H).
Defined.

Lemma fs_set_same fs path f : fs_set fs path f path = Some f.
Proof. unfold fs_set. rewrite String.eqb_refl. reflexivity. Qed.

Ltac fs_lookup :=
  repeat (rewrite fs_set_same || (rewrite fs_set_other by congruence));
  try reflexivity; try assumption.

Lemma extract_files {A : c_abi} {B : bootimg_h}
    (cfg : list ascii) (bootimg : t_akbootimg) (fs fs' : filesystem)
    (c k r s : string) :
  main extract cfg bootimg fs = Done tt fs' ->
  config_fname bootimg = Some c -> kernel_fname bootimg = Some k ->
  ramdisk_fname bootimg = Some r -> second_fname bootimg = Some s ->
  NoDup [fname bootimg; c; k; r; s] ->
  exists f buf kb rb,
    let h := hdr_of_bytes buf in
    fs (fname bootimg) = Some f /\ file_read f 0 sizeof_hdr = Some buf /\
    file_read f (page_size h) (kernel_size h) = Some kb /\
    file_read f (extract_ramdisk_roffset h) (ramdisk_size h) = Some rb /\
    fs' (fname bootimg) = Some f /\
    fs' c = Some (file_of_bytes (bootimg_config_text h)) /\
    fs' k = Some (file_of_bytes kb) /\
    fs' r = Some (file_of_bytes rb) /\
    (if second_size h =? 0 then fs' s = fs s
     else exists sb, file_read f (extract_second_soffset h) (second_size h) = Some sb /\
                     fs' s = Some (file_of_bytes sb)) /\
    (forall p, ~ In p [c; k; r; s] -> fs' p = fs p).
Proof.
  intros E Nc Nk Nr Ns D.
  assert (D' : fname bootimg <> c /\ fname bootimg <> k /\ fname bootimg <> r /\
               fname bootimg <> s /\ c <> k /\ c <> r /\ c <> s /\ k <> r /\ k <> s /\
               r <> s).
  { repeat match goal with
           | H : NoDup (_ :: _) |- _ => inversion H; subst; clear H
           end.
    cbn [In] in *. intuition congruence. }
  destruct D' as (d1 & d2 & d3 & d4 & d5 & d6 & d7 & d8 & d9 & d10). clear D.
  cbn [main] in E.
  apply bind_Done in E. destruct E as (i1 & f1 & E1 & E).
  apply bind_Done in E. destruct E as (i2 & f2 & E2 & E).
  apply bind_Done in E. destruct E as ([] & f3 & E3 & E).
  apply bind_Done in E. destruct E as (i4 & f4 & E4 & E).
  apply bind_Done in E. destruct E as (i5 & f5 & E5 & E).
  apply bind_Done in E. destruct E as (i6 & f6 & E6 & E).
  unfold ret in E. injection E as <-.
  cbn in E1. destruct (fs (fname bootimg)) as [f |] eqn:F; [| discriminate].
  injection E1 as <- <-.
  apply read_header_Done in E2.
  destruct E2 as (-> & st & g & buf & g2 & S & G & R & _ & -> & _).
  cbn in S. injection S as <-. cbn in G, R. rewrite F in G. injection G as <-.
  unfold write_bootimg_config in E3.
  cbn [config_fname header set_is_blkdev set_size set_stream set_header] in E3.
  rewrite Nc in E3. unfold store_file in E3. injection E3 as <-.
  fold (file_of_bytes (bootimg_config_text (hdr_of_bytes buf))) in *.
  apply extract_kernel_Done in E4.
  destruct E4 as (st4 & g4 & kb & nk & S4 & G4 & K4 & R4 & -> & ->).
  cbn in S4. injection S4 as <-. cbn in G4, K4, R4.
  rewrite fs_set_other in G4 by congruence. rewrite F in G4. injection G4 as <-.
  rewrite Nk in K4. injection K4 as <-.
  apply extract_ramdisk_Done in E5.
  destruct E5 as (st5 & g5 & rb & nr & S5 & G5 & K5 & R5 & -> & ->).
  cbn in S5. injection S5 as <-. cbn in G5, K5, R5.
  rewrite !fs_set_other in G5 by congruence. rewrite F in G5. injection G5 as <-.
  rewrite Nr in K5. injection K5 as <-.
  exists f, buf, kb, rb. cbn zeta.
  unfold extract_second in E6. cbn in E6.
  destruct (second_size (hdr_of_bytes buf) =? 0) eqn:Z0.
  - unfold ret in E6. injection E6 as _ <-.
    repeat (split; [solve [fs_lookup] |]).
    intros p P. cbn [In] in P.
    assert (p <> c /\ p <> k /\ p <> r /\ p <> s) as (p1 & p2 & p3 & p4)
      by (repeat split; intros ->; apply P; auto).
    fs_lookup.
  - destruct (kernel_size (hdr_of_bytes buf) <? second_size (hdr_of_bytes buf));
      [discriminate |].
    apply bind_Done in E6. destruct E6 as ([sb j] & f7 & C & E6).
    apply carry_over_Done in C. destruct C as (-> & st6 & g6 & S6 & G6 & R6 & ->).
    cbn in S6. injection S6 as <-. cbn in G6, R6.
    rewrite !fs_set_other in G6 by congruence. rewrite F in G6. injection G6 as <-.
    rewrite Ns in E6. cbn [fst snd] in E6. unfold bind, store_file, ret in E6.
    injection E6 as _ <-.
    repeat (split; [solve [fs_lookup] |]).
    split.
    + exists sb. split; [exact R6 | fs_lookup].
    + intros p P. cbn [In] in P.
      assert (p <> c /\ p <> k /\ p <> r /\ p <> s) as (p1 & p2 & p3 & p4)
        by (repeat split; intros ->; apply P; auto).
      fs_lookup.
Qed.



(** ** The image that [write_bootimg] leaves *)

Lemma holds_nil f off : 0 <= off -> off <= f_len f -> holds f off [].
Proof.
  intros H1 H2. unfold holds. cbn [List.length].
  split; [lia |]. split; [lia |]. intros i Hi. inversion Hi.
Qed.

Lemma holds_write_padding f off count :
  0 <= off -> 0 <= count -> off <= f_len f ->
  holds (file_write f off count of_padding) off (repeat NUL (Z.to_nat count)).
Proof.
  intros H1 H2 H3. unfold holds, file_write. rewrite repeat_length.
  destruct (count <=? 0) eqn:C.
  - apply Z.leb_le in C. replace count with 0 by lia. cbn.
    split; [lia |]. split; [lia |]. intros i Hi. inversion Hi.
  - apply Z.leb_gt in C. cbn [f_len f_data].
    split; [lia |]. split; [lia |]. intros i Hi.
    replace ((off <=? off + Z.of_nat i) && (off + Z.of_nat i <? off + count)) with true.
    + unfold of_padding. symmetry. apply nth_repeat.
    + symmetry. apply andb_true_iff. split; [apply Z.leb_le | apply Z.ltb_lt]; lia.
Qed.

Lemma image_layout_after_write {A : c_abi} {B : bootimg_h}
    (img : t_akbootimg) (fs fs' : filesystem) (st : FILE) (f0 : file) :
  abi_ok A -> bootimg_h_ok B ->
  write_bootimg img fs = Done tt fs' ->
  stream img = Some st -> fs (f_path st) = Some f0 ->
  hdr_u32 (header img) -> buffers_sized img ->
  Z.of_nat (List.length (hdr_bytes (header img))) = sizeof_hdr ->
  sizeof_hdr <= page_size (header img) ->
  layout_fits (page_size (header img)) (kernel_size (header img))
              (ramdisk_size (header img)) (second_size (header img)) ->
  hdr_total_size (header img) <= size img ->
  exists out,
    let h := header img in
    let p := page_size h in
    fs' (f_path st) = Some out /\
    holds out 0 (hdr_bytes h) /\
    holds out sizeof_hdr (repeat NUL (Z.to_nat (p - sizeof_hdr))) /\
    (forall k, kernel img = Some k -> holds out p k) /\
    (forall r, ramdisk img = Some r ->
               holds out (spec_ramdisk_offset p (kernel_size h)) r) /\
    (forall s, second img = Some s -> second_size h <> 0 ->
               holds out (spec_second_offset p (kernel_size h) (ramdisk_size h)) s).
Proof.
  intros HA HB HW Hs Hf HU (Bk & Br & Bs) HL HP HF HT.
  destruct (write_bootimg_Done _ _ _ _ _ HW Hs Hf) as (O & Pnz & _ & _).
  exists (image_after_write img f0). cbn zeta. split; [exact O |].
  destruct HU as (Uk & _ & Ur & _ & Us & _ & _ & Up).
  destruct HB as (_ & _ & _ & Hh).
  set (h := header img) in *.
  set (p := page_size h) in *. set (ksz := kernel_size h) in *.
  set (rsz := ramdisk_size h) in *. set (ssz := second_size h) in *.
  unfold is_u32 in Uk, Ur, Us, Up.
  assert (Hp : 0 < p) by lia.
  assert (Cn := ceil_div_nonneg p ksz Hp ltac:(lia)).
  assert (Cm := ceil_div_nonneg p rsz Hp ltac:(lia)).
  assert (Co := ceil_div_nonneg p ssz Hp ltac:(lia)).
  assert (Gn := ceil_div_mul_ge p ksz Hp).
  assert (Gm := ceil_div_mul_ge p rsz Hp).
  assert (Go := ceil_div_mul_ge p ssz Hp).
  destruct (layout_fits_bounds p ksz rsz ssz Hp ltac:(lia) ltac:(lia) ltac:(lia) HF)
    as (Xk & Xr & Xs).
  assert (Tx : hdr_total_size h = spec_total_size p ksz rsz ssz)
    by (apply total_size_exact; lia || assumption).
  rewrite Tx in HT. unfold layout_fits in HF. unfold spec_total_size in HT, HF.
  assert (Ro : write_bootimg_roffset h = spec_ramdisk_offset p ksz).
  { unfold write_bootimg_roffset, spec_ramdisk_offset. fold p ksz.
    rewrite npages_exact by lia. apply u32_small. unfold is_u32. nia. }
  assert (So : write_bootimg_soffset h = spec_second_offset p ksz rsz).
  { unfold write_bootimg_soffset, spec_second_offset. fold p ksz rsz.
    rewrite !npages_exact by lia. apply u32_small. unfold is_u32. nia. }
  assert (Pad : header_padding_len h = p - sizeof_hdr).
  { unfold header_padding_len. fold p. apply Z.mod_small.
    assert (2 ^ 32 <= 2 ^ LONG_BITS)
      by (destruct HA as [-> | ->]; cbn; lia).
    lia. }
  unfold image_after_write. cbn zeta. fold h p ksz rsz ssz.
  rewrite Ro, So, Pad. replace (sizeof_hdr + (p - sizeof_hdr)) with p by lia.
  unfold spec_ramdisk_offset, spec_second_offset.
  set (roff := (1 + ceil_div ksz p) * p).
  set (soff := (1 + ceil_div ksz p + ceil_div rsz p) * p).
  assert (Or : p + ksz <= roff) by (unfold roff; nia).
  assert (Os : roff + rsz <= soff) by (unfold roff, soff; nia).
  assert (Ot : soff + ssz <= size img) by (unfold soff; nia).
  set (f1 := file_write f0 0 sizeof_hdr (of_buf (hdr_bytes h))).
  set (f2 := file_write f1 sizeof_hdr (p - sizeof_hdr) of_padding).
  set (f3 := match kernel img with
             | Some k => segment_written f2 p k p ksz
             | None => f2
             end).
  set (f4 := match ramdisk img with
             | Some r => segment_written f3 roff r p rsz
             | None => f3
             end).
  set (f5 := match second img with
             | Some s => if ssz =? 0 then f4 else segment_written f4 soff s p ssz
             | None => f4
             end).
  assert (A5 : forall off buf, holds f5 off buf ->
                 off + Z.of_nat (List.length buf) <= size img ->
                 holds (file_truncate f5 (size img)) off buf)
    by (intros; apply holds_truncate; assumption).
  assert (A4 : forall off buf, holds f4 off buf ->
                 off + Z.of_nat (List.length buf) <= soff -> holds f5 off buf).
  { intros off buf H L. unfold f5. destruct (second img); [| exact H].
    destruct (ssz =? 0); [exact H |]. apply holds_segment_after; [exact H | exact L | lia]. }
  assert (A3 : forall off buf, holds f3 off buf ->
                 off + Z.of_nat (List.length buf) <= roff -> holds f4 off buf).
  { intros off buf H L. unfold f4. destruct (ramdisk img); [| exact H].
    apply holds_segment_after; [exact H | exact L | lia]. }
  assert (A2 : forall off buf, holds f2 off buf ->
                 off + Z.of_nat (List.length buf) <= p -> holds f3 off buf).
  { intros off buf H L. unfold f3. destruct (kernel img); [| exact H].
    apply holds_segment_after; [exact H | exact L | lia]. }
  assert (E : forall off, 0 <= off -> off <= size img ->
                holds (file_truncate f5 (size img)) off [])
    by (intros; apply holds_nil; cbn; lia).
  split.
  { apply A5; [| lia]. apply A4; [| lia]. apply A3; [| lia]. apply A2; [| lia].
    unfold f2. apply holds_write_after; [| lia].
    unfold f1. rewrite <- HL at 1. apply holds_write_same; [lia |].
    intros N. rewrite N in HL. cbn in HL. lia. }
  split.
  { assert (L : Z.of_nat (List.length (repeat NUL (Z.to_nat (p - sizeof_hdr)))) =
                p - sizeof_hdr) by (rewrite repeat_length; lia).
    apply A5; [| lia]. apply A4; [| lia]. apply A3; [| lia]. apply A2; [| lia].
    unfold f2. apply holds_write_padding; try lia.
    unfold f1, file_write. destruct (sizeof_hdr <=? 0) eqn:C; [apply Z.leb_le in C; lia |].
    cbn. lia. }
  split.
  { intros k K. pose proof (Bk k K) as L. fold h ksz in L.
    destruct k as [| c k']; [apply E; lia |].
    apply A5; [| lia]. apply A4; [| lia]. apply A3; [| lia].
    unfold f3. rewrite K, <- L. apply holds_segment_written; [lia | discriminate]. }
  split.
  { intros r R. pose proof (Br r R) as L. fold h rsz in L.
    destruct r as [| c r']; [apply E; unfold roff; nia |].
    apply A5; [| lia]. apply A4; [| lia].
    unfold f4. rewrite R, <- L. apply holds_segment_written; [unfold roff; nia | discriminate]. }
  intros s S Z. pose proof (Bs s S) as L. fold h ssz in L.
  destruct s as [| c s']; [apply E; unfold soff; nia |].
  apply A5; [| lia].
  unfold f5. rewrite S. destruct (ssz =? 0) eqn:Z0; [apply Z.eqb_eq in Z0; contradiction |].
  rewrite <- L. apply holds_segment_written; [unfold soff; nia | discriminate].
Qed.

(** The layout that [write_bootimg] leaves when the page holds the header
    record and the page counts do not wrap: the record at 0, zero bytes up
    to the page size, and each buffer that is there at the offset of its
    segment (the kernel at one page, the ramdisk after the pages of the
    kernel, the second stage after those of the ramdisk). *)
Theorem written_image_layout {A : c_abi} {B : bootimg_h}
    (img : t_akbootimg) (fs fs' : filesystem) (st : FILE) (f0 : file) :
  abi_ok A -> bootimg_h_ok B ->
  write_bootimg img fs = Done tt fs' ->
  stream img = Some st -> fs (f_path st) = Some f0 ->
  hdr_u32 (header img) -> buffers_sized img ->
  Z.of_nat (List.length (hdr_bytes (header img))) = sizeof_hdr ->
  sizeof_hdr <= page_size (header img) ->
  layout_fits (page_size (header img)) (kernel_size (header img))
              (ramdisk_size (header img)) (second_size (header img)) ->
  hdr_total_size (header img) <= size img ->
  exists out,
    let h := header img in
    let p := page_size h in
    fs' (f_path st) = Some out /\
    holds out 0 (hdr_bytes h) /\
    holds out sizeof_hdr (repeat NUL (Z.to_nat (p - sizeof_hdr))) /\
    (forall k, kernel img = Some k -> holds out p k) /\
    (forall r, ramdisk img = Some r ->
               holds out (spec_ramdisk_offset p (kernel_size h)) r) /\
    (forall s, second img = Some s -> second_size h <> 0 ->
               holds out (spec_second_offset p (kernel_size h) (ramdisk_size h)) s).
Proof. exact (image_layout_after_write img fs fs' st f0). Qed.

Lemma written_image_layout_witness :
  let fs' := outcome_fs (@write_bootimg lp64 aosp img_update_done fs_k3_r2) in
  @write_bootimg lp64 aosp img_update_done fs_k3_r2 = Done tt fs' /\
  hdr_u32 (header img_update_done) /\ buffers_sized img_update_done /\
  @sizeof_hdr aosp <= page_size (header img_update_done) /\
  hdr_total_size (header img_update_done) <= size img_update_done /\
  exists out,
    fs' "boot.img"%string = Some out /\
    holds out 0 (@hdr_bytes aosp (header img_update_done)) /\
    holds out 608 (repeat NUL 1440) /\
    holds out 2048 (cs "NEWKK") /\ holds out 4096 (cs "RR").
Proof.
  cbv zeta.
  set (fs' := outcome_fs (@write_bootimg lp64 aosp img_update_done fs_k3_r2)).
  assert (W : @write_bootimg lp64 aosp img_update_done fs_k3_r2 = Done tt fs')
    by (apply outcome_ok_Done; vm_compute; reflexivity).
  assert (HU : hdr_u32 (header img_update_done))
    by (unfold hdr_u32, is_u32; cbn; repeat split; lia).
  assert (HB : buffers_sized img_update_done).
  { split; [| split]; intros b E; cbn in E; try discriminate E;
      injection E as <-; reflexivity. }
  assert (HP : @sizeof_hdr aosp <= page_size (header img_update_done))
    by (cbn; lia).
  assert (HT : hdr_total_size (header img_update_done) <= size img_update_done)
    by (vm_compute; discriminate).
  split; [exact W |]. split; [exact HU |]. split; [exact HB |]. split; [exact HP |].
  split; [exact HT |].
  destruct (@written_image_layout lp64 aosp img_update_done fs_k3_r2 fs'
              (mk_FILE "boot.img" 4098 true true) image_k3_r2
              (or_intror eq_refl) aosp_ok W eq_refl eq_refl HU HB eq_refl HP eq_refl HT)
    as (out & O & H0 & H1 & Hk & Hr & _).
  exists out. split; [exact O |]. split; [exact H0 |]. split; [exact H1 |].
  split; [exact (Hk _ eq_refl) | exact (Hr _ eq_refl)].
Defined.

(** ** From [create] to [extract] *)

Lemma outcome_value_Done {T} (o : outcome T) (t : T) :
  outcome_value o = Some t -> o = Done t (outcome_fs o).
Proof. destruct o as [t' fs | e fs]; cbn; intros H; [injection H as -> | discriminate]; reflexivity. Qed.

Lemma load_file_not_empty name fs :
  fs name = Some empty_file -> forall r fs', load_file name fs <> Done r fs'.
Proof.
  intros E [sz b] fs' H. apply load_file_Done in H. destruct H as (_ & f & F & _ & R).
  rewrite E in F. injection F as <-.
  apply file_read_Some in R. cbn in R. unfold u32 in R. cbn in R. lia.
Qed.

Lemma resolve_segments_loaded {A : c_abi} img fs img1 fs1 kf rf :
  kernel_fname img = Some kf -> ramdisk_fname img = Some rf ->
  resolve_segments img fs = Done img1 fs1 ->
  exists fk kb fr rb,
    fs kf = Some fk /\ file_read fk 0 (u32 (f_len fk)) = Some kb /\
    fs rf = Some fr /\ file_read fr 0 (u32 (f_len fr)) = Some rb /\
    kernel img1 = Some kb /\ ramdisk img1 = Some rb.
Proof.
  intros K R H. unfold resolve_segments in H.
  destruct (page_size (header img) =? 0); [discriminate |].
  rewrite K in H.
  apply bind_Done in H. destruct H as (i1 & f1 & H1 & H).
  apply bind_Done in H1. destruct H1 as ([ksz kb] & f0 & L1 & H1).
  apply load_file_Done in L1. destruct L1 as (-> & fk & Fk & -> & Rk).
  unfold ret in H1. injection H1 as <- <-.
  cbn [ramdisk_fname set_kernel set_header] in H. rewrite R in H.
  apply bind_Done in H. destruct H as (i2 & f2 & H2 & H).
  apply bind_Done in H2. destruct H2 as ([rsz rb] & f0 & L2 & H2).
  apply load_file_Done in L2. destruct L2 as (-> & fr & Fr & -> & Rr).
  unfold ret in H2. injection H2 as <- <-.
  exists fk, kb, fr, rb. repeat (split; [assumption |]).
  cbn [second_fname set_ramdisk set_kernel set_header ramdisk] in H.
  destruct (second_fname img).
  - apply bind_Done in H. destruct H as ([ssz sb] & f0 & L3 & H).
    unfold ret in H. injection H as <- _. split; reflexivity.
  - match type of H with context [if ?c then _ else _] => destruct c end.
    + unfold ret in H. injection H as <- _. split; reflexivity.
    + apply bind_Done in H. destruct H as ([sb j] & f0 & C & H).
      apply carry_over_Done in C. destruct C as (_ & st & f & _ & _ & _ & ->).
      unfold ret in H. injection H as <- _. split; reflexivity.
Qed.

Lemma create_steps_image {A : c_abi} {B : bootimg_h}
    cfg name config kf rf sf fs img fs0 :
  create_steps cfg (parsed_args name config (Some kf) (Some rf) sf) fs = Done img fs0 ->
  fs0 = fs_set fs name empty_file /\
  snd (check_boot_img_header img) = 0 /\
  hdr_total_size (header img) <= size img /\ buffers_sized img /\
  (exists st, stream img = Some st /\ f_path st = name) /\
  exists fk kb fr rb,
    fs kf = Some fk /\ file_read fk 0 (u32 (f_len fk)) = Some kb /\
    fs rf = Some fr /\ file_read fr 0 (u32 (f_len fr)) = Some rb /\
    kernel img = Some kb /\ ramdisk img = Some rb.
Proof.
  intros H. unfold create_steps in H.
  apply bind_Done in H. destruct H as (i0 & fa & H0 & H).
  cbn in H0. injection H0 as <- <-.
  apply bind_Done in H. destruct H as (i1 & fb & H1 & H).
  pose proof (never_writes_Done _ _ _ _ (never_writes_update_header _ _) H1) as ->.
  apply update_header_same in H1.
  destruct H1 as (_ & _ & Kf & Rf & _ & St & K0 & R0 & S0 & _).
  cbn in Kf, Rf, St, K0, R0, S0.
  apply bind_Done in H. destruct H as (i2 & fc & H2 & H).
  apply update_images_Done in H2. destruct H2 as (-> & img1 & RS & E & T).
  destruct (snd (check_boot_img_header i2) =? 0) eqn:CK; [| discriminate].
  apply Z.eqb_eq in CK.
  unfold ret in H. injection H as <- <-.
  split; [reflexivity |]. split; [exact CK |]. split; [exact T |].
  destruct (resolve_segments_sized _ _ _ _ K0 R0 S0 RS) as (BS & _ & _).
  destruct (resolve_segments_target _ _ _ _ RS) as (_ & (_ & _ & _ & _ & _ & Tp & _) & _).
  rewrite St in Tp. cbn in Tp.
  destruct (resolve_segments_loaded _ _ _ _ _ _ Kf Rf RS)
    as (fk & kb & fr & rb & Fk & Rk & Fr & Rr & K1 & R1).
  assert (EH : header i2 = header img1 /\ kernel i2 = kernel img1 /\
               ramdisk i2 = ramdisk img1 /\ second i2 = second img1 /\
               stream i2 = stream img1)
    by (subst i2; destruct (size img1 =? 0); cbn; auto).
  destruct EH as (Eh & Ek & Er & Es & Est).
  split.
  { unfold buffers_sized. rewrite Eh, Ek, Er, Es. exact BS. }
  split.
  { rewrite Est. destruct (stream img1) as [st' |]; [| discriminate].
    cbn in Tp. injection Tp as Tp. eauto. }
  assert (Nk : kf <> name).
  { intros ->. rewrite fs_set_same in Fk. injection Fk as <-.
    apply file_read_Some in Rk. cbn in Rk. lia. }
  assert (Nr : rf <> name).
  { intros ->. rewrite fs_set_same in Fr. injection Fr as <-.
    apply file_read_Some in Rr. cbn in Rr. lia. }
  rewrite fs_set_other in Fk by exact Nk. rewrite fs_set_other in Fr by exact Nr.
  exists fk, kb, fr, rb. rewrite Ek, Er. auto 10.
Qed.

Lemma extract_ramdisk_roffset_exact h :
  hdr_u32 h -> page_size h <> 0 ->
  layout_fits (page_size h) (kernel_size h) (ramdisk_size h) (second_size h) ->
  extract_ramdisk_roffset h = spec_ramdisk_offset (page_size h) (kernel_size h).
Proof.
  intros (Uk & _ & Ur & _ & Us & _ & _ & Up) Pz HF. unfold is_u32 in *.
  assert (Hp : 0 < page_size h) by lia.
  destruct (layout_fits_bounds (page_size h) (kernel_size h) (ramdisk_size h)
              (second_size h) Hp ltac:(lia) ltac:(lia) ltac:(lia) HF) as (Xk & _ & _).
  assert (Cn := ceil_div_nonneg (page_size h) (kernel_size h) Hp ltac:(lia)).
  assert (Cm := ceil_div_nonneg (page_size h) (ramdisk_size h) Hp ltac:(lia)).
  assert (Co := ceil_div_nonneg (page_size h) (second_size h) Hp ltac:(lia)).
  unfold extract_ramdisk_roffset, spec_ramdisk_offset.
  rewrite npages_exact by lia. apply u32_small.
  unfold layout_fits, spec_total_size, is_u32 in *. nia.
Qed.

(** An image that [create] writes from a kernel file and a ramdisk file is
    taken apart again by [extract]: the kernel file and the ramdisk file of
    the extraction hold the bytes that were read from the two input files.
    The header is one that the page holds and that the record layout
    encodes without loss; the five file names of the extraction differ. *)
Theorem create_then_extract {A : c_abi} {B : bootimg_h}
    (cfg cfg' : list ascii) (name : string) (config : option string)
    (kf rf : string) (sf : option string) (bootimg' : t_akbootimg)
    (fs : filesystem) (img : t_akbootimg) (fs0 fs1 fs2 : filesystem)
    (c k r s : string) :
  abi_ok A -> bootimg_h_ok B ->
  create_steps cfg (parsed_args name config (Some kf) (Some rf) sf) fs = Done img fs0 ->
  write_bootimg img fs0 = Done tt fs1 ->
  main extract cfg' bootimg' fs1 = Done tt fs2 ->
  fname bootimg' = name ->
  config_fname bootimg' = Some c -> kernel_fname bootimg' = Some k ->
  ramdisk_fname bootimg' = Some r -> second_fname bootimg' = Some s ->
  NoDup [name; c; k; r; s] ->
  hdr_u32 (header img) ->
  Z.of_nat (List.length (hdr_bytes (header img))) = sizeof_hdr ->
  hdr_of_bytes (hdr_bytes (header img)) = header img ->
  sizeof_hdr <= page_size (header img) ->
  layout_fits (page_size (header img)) (kernel_size (header img))
              (ramdisk_size (header img)) (second_size (header img)) ->
  exists fk kb fr rb,
    fs kf = Some fk /\ file_read fk 0 (u32 (f_len fk)) = Some kb /\
    fs rf = Some fr /\ file_read fr 0 (u32 (f_len fr)) = Some rb /\
    fs2 k = Some (file_of_bytes kb) /\ fs2 r = Some (file_of_bytes rb).
Proof.
  intros HA HB HC HW HX <- Nc Nk Nr Ns D HU HL HR HP HF.
  destruct (create_steps_image _ _ _ _ _ _ _ _ _ HC)
    as (-> & _ & T & BS & (st & St & Pst) & fk & kb & fr & rb & Fk & Rk & Fr & Rr & K & R).
  exists fk, kb, fr, rb. repeat (split; [assumption |]).
  assert (F0 : fs_set fs (fname bootimg') empty_file (f_path st) = Some empty_file)
    by (rewrite Pst; apply fs_set_same).
  destruct (image_layout_after_write _ _ _ _ _ HA HB HW St F0 HU BS HL HP HF T)
    as (out & O & H0 & _ & Hk & Hr & _).
  cbn zeta in O, H0, Hk, Hr. rewrite Pst in O.
  destruct (extract_files _ _ _ _ _ _ _ _ HX Nc Nk Nr Ns D)
    as (f & buf & kb' & rb' & F & Rb & Rk' & Rr' & _ & _ & Ok' & Or' & _).
  cbn zeta in Rk', Rr'. rewrite O in F. injection F as <-.
  destruct BS as (Bk & Br & _).
  destruct (write_bootimg_Done _ _ _ _ _ HW St F0) as (_ & Pz & _ & _).
  assert (Eb : buf = hdr_bytes (header img)).
  { assert (N : hdr_bytes (header img) <> []).
    { intros N. rewrite N in HL. cbn in HL. destruct HB as (_ & _ & _ & Hh). lia. }
    pose proof (holds_read _ _ _ H0 N) as X. rewrite HL in X. congruence. }
  subst buf. rewrite HR in Rk', Rr'.
  destruct (file_read_Some _ _ _ _ Rk) as (Kpos & _ & Klen & _).
  destruct (file_read_Some _ _ _ _ Rr) as (Rpos & _ & Rlen & _).
  assert (Ek : kb' = kb).
  { assert (N : kb <> []) by (intros ->; cbn in Klen; lia).
    pose proof (holds_read _ _ _ (Hk _ K) N) as X. rewrite (Bk _ K) in X. congruence. }
  assert (Er : rb' = rb).
  { assert (N : rb <> []) by (intros ->; cbn in Rlen; lia).
    pose proof (holds_read _ _ _ (Hr _ R) N) as X. rewrite (Br _ R) in X.
    rewrite (extract_ramdisk_roffset_exact _ HU Pz HF) in Rr'. congruence. }
  subst kb' rb'. split; assumption.
Qed.

Lemma create_then_extract_witness :
  let fs0 := outcome_fs (@create_steps lp64 aosp [] args_create fs_k3_r2) in
  let fs1 := outcome_fs (@write_bootimg lp64 aosp img_create_done fs0) in
  let fs2 := outcome_fs (@main lp64 aosp extract [] args_extract fs1) in
  @create_steps lp64 aosp [] args_create fs_k3_r2 = Done img_create_done fs0 /\
  @write_bootimg lp64 aosp img_create_done fs0 = Done tt fs1 /\
  @main lp64 aosp extract [] args_extract fs1 = Done tt fs2 /\
  @hdr_of_bytes aosp (@hdr_bytes aosp (header img_create_done)) = header img_create_done /\
  exists fk kb fr rb,
    fs_k3_r2 "zImage"%string = Some fk /\ file_read fk 0 (u32 (f_len fk)) = Some kb /\
    fs_k3_r2 "zImage"%string = Some fr /\ file_read fr 0 (u32 (f_len fr)) = Some rb /\
    fs2 "Image"%string = Some (file_of_bytes kb) /\
    fs2 "ramdisk.img"%string = Some (file_of_bytes rb).
Proof.
  cbv zeta.
  set (fs0 := outcome_fs (@create_steps lp64 aosp [] args_create fs_k3_r2)).
  set (fs1 := outcome_fs (@write_bootimg lp64 aosp img_create_done fs0)).
  set (fs2 := outcome_fs (@main lp64 aosp extract [] args_extract fs1)).
  assert (HC : @create_steps lp64 aosp [] args_create fs_k3_r2 = Done img_create_done fs0)
    by (apply outcome_value_Done; vm_compute; reflexivity).
  assert (HW : @write_bootimg lp64 aosp img_create_done fs0 = Done tt fs1)
    by (apply outcome_ok_Done; vm_compute; reflexivity).
  assert (HX : @main lp64 aosp extract [] args_extract fs1 = Done tt fs2)
    by (apply outcome_ok_Done; vm_compute; reflexivity).
  assert (HR : @hdr_of_bytes aosp (@hdr_bytes aosp (header img_create_done)) =
               header img_create_done) by (vm_compute; reflexivity).
  assert (D : NoDup ["boot.img"; "boot.info"; "Image"; "ramdisk.img"; "stage2.img"]%string)
    by (repeat constructor; cbn; intuition discriminate).
  assert (HU : hdr_u32 (header img_create_done))
    by (vm_compute; repeat split; solve [discriminate | reflexivity]).
  assert (HP : @sizeof_hdr aosp <= page_size (header img_create_done))
    by (vm_compute; discriminate).
  split; [exact HC |]. split; [exact HW |]. split; [exact HX |]. split; [exact HR |].
  exact (@create_then_extract lp64 aosp [] [] "boot.img" None "zImage" "zImage" None
           args_extract fs_k3_r2 img_create_done fs0 fs1 fs2
           "boot.info" "Image" "ramdisk.img" "stage2.img"
           (or_intror eq_refl) aosp_ok HC HW HX eq_refl eq_refl eq_refl eq_refl eq_refl D
           HU eq_refl HR HP eq_refl).
Defined.







(** ** An update of the header alone *)

Lemma update_steps_nothing {A : c_abi} {B : bootimg_h} cfg name config fs img fs0 :
  update_steps cfg (parsed_args name config None None None) fs = Done img fs0 ->
  fs0 = fs /\ kernel img = None /\ ramdisk img = None /\ second img = None /\
  stream img = Some (mk_FILE name (0 + sizeof_hdr) true true).
Proof.
  intros S. unfold update_steps in S.
  apply bind_Done in S. destruct S as (i1 & f1 & S1 & S).
  apply bind_Done in S. destruct S as (i2 & f2 & S2 & S).
  apply bind_Done in S. destruct S as (i3 & f3 & S3 & S4).
  cbn in S1. destruct (fs name) as [f |] eqn:F; [| discriminate].
  injection S1 as <- <-.
  apply read_header_Done in S2.
  destruct S2 as (-> & st & g & b & g2 & St & _ & _ & _ & -> & _).
  cbn in St. injection St as <-.
  pose proof (update_header_same _ _ _ _ _ S3) as SS.
  assert (f3 = fs) by (eapply never_writes_Done, S3; apply never_writes_update_header).
  subst f3. unfold same_segments in SS. cbn in SS.
  destruct SS as (_ & _ & Sk & Sr & Ss & Sst & Kk & Kr & Ks & _).
  apply update_images_Done in S4. destruct S4 as (-> & img1 & Rs & E & _).
  apply resolve_segments_nothing in Rs; try assumption. subst img1.
  split; [reflexivity |].
  subst img. destruct (size i3 =? 0); cbn; auto.
Qed.

(** An update that names no kernel, no ramdisk and no second stage writes
    the first page only: with a page that holds the header record, every
    byte of the image from the page size on is the byte that was there,
    as far as the old file and the new size reach. *)
Theorem header_update_keeps_the_segments {A : c_abi} {B : bootimg_h}
    (cfg : list ascii) (name : string) (config : option string)
    (fs : filesystem) (img : t_akbootimg) (fs0 fs1 : filesystem) (f : file) :
  abi_ok A ->
  update_steps cfg (parsed_args name config None None None) fs = Done img fs0 ->
  write_bootimg img fs0 = Done tt fs1 ->
  fs name = Some f ->
  is_u32 (page_size (header img)) -> 0 <= sizeof_hdr <= page_size (header img) ->
  exists out,
    fs1 name = Some out /\
    forall i, page_size (header img) <= i -> i < f_len f -> i < size img ->
              f_data out i = f_data f i.
Proof.
  intros HA HS HW F Up HP.
  destruct (update_steps_nothing _ _ _ _ _ _ HS) as (-> & K & R & S & St).
  assert (F' : fs (f_path (mk_FILE name (0 + sizeof_hdr) true true)) = Some f) by exact F.
  destruct (write_bootimg_Done _ _ _ _ _ HW St F') as (O & _ & _ & _).
  cbn [f_path] in O. exists (image_after_write img f). split; [exact O |].
  intros i I1 I2 I3.
  assert (Pad : header_padding_len (header img) = page_size (header img) - sizeof_hdr).
  { unfold header_padding_len. apply Z.mod_small. unfold is_u32 in Up.
    assert (2 ^ 32 <= 2 ^ LONG_BITS) by (destruct HA as [-> | ->]; cbn; lia).
    lia. }
  unfold image_after_write. cbn zeta. rewrite K, R, S, Pad.
  set (p := page_size (header img)) in *.
  unfold file_truncate, file_write.
  destruct (sizeof_hdr <=? 0) eqn:C1; destruct (p - sizeof_hdr <=? 0) eqn:C2;
    cbn [f_len f_data];
    repeat match goal with
           | |- context [if ?c then _ else _] =>
               let E := fresh "E" in
               destruct c eqn:E;
               try (apply andb_true_iff in E; destruct E as (? & ?));
               try (apply andb_false_iff in E)
           end;
    try reflexivity;
    repeat match goal with
           | H : (_ <=? _) = true |- _ => apply Z.leb_le in H
           | H : (_ <=? _) = false |- _ => apply Z.leb_gt in H
           | H : (_ <? _) = true |- _ => apply Z.ltb_lt in H
           | H : (_ <? _) = false |- _ => apply Z.ltb_ge in H
           | H : _ \/ _ |- _ => destruct H
           end;
    lia.
Qed.

Lemma header_update_keeps_the_segments_witness :
  let fs1 := outcome_fs (@write_bootimg lp64 aosp img_update_nothing_done fs_k3_r2) in
  @update_steps lp64 aosp [] args_update_nothing fs_k3_r2 =
    Done img_update_nothing_done fs_k3_r2 /\
  @write_bootimg lp64 aosp img_update_nothing_done fs_k3_r2 = Done tt fs1 /\
  exists out,
    fs1 "boot.img"%string = Some out /\
    forall i, 2048 <= i -> i < 10000 -> i < 10000 -> f_data out i = f_data image_k3_r2 i.
Proof.
  cbv zeta.
  set (fs1 := outcome_fs (@write_bootimg lp64 aosp img_update_nothing_done fs_k3_r2)).
  assert (HS : @update_steps lp64 aosp [] args_update_nothing fs_k3_r2 =
               Done img_update_nothing_done fs_k3_r2).
  { assert (H0 : @update_steps lp64 aosp [] args_update_nothing fs_k3_r2 =
                 Done img_update_nothing_done
                      (outcome_fs (@update_steps lp64 aosp [] args_update_nothing fs_k3_r2)))
      by (apply outcome_value_Done; vm_compute; reflexivity).
    pose proof (never_writes_Done _ _ _ _
                  (never_writes_update_steps [] args_update_nothing) H0) as E.
    rewrite E in H0. exact H0. }
  assert (HW : @write_bootimg lp64 aosp img_update_nothing_done fs_k3_r2 = Done tt fs1)
    by (apply outcome_ok_Done; vm_compute; reflexivity).
  split; [exact HS |]. split; [exact HW |].
  exact (@header_update_keeps_the_segments lp64 aosp [] "boot.img" None fs_k3_r2
           img_update_nothing_done fs_k3_r2 fs1 image_k3_r2
           (or_intror eq_refl) HS HW eq_refl
           ltac:(vm_compute; split; solve [discriminate | reflexivity])
           ltac:(vm_compute; split; discriminate)).
Defined.

(** ** The names of an extraction *)

(** [-x] with at most four names after the image: the names that are given
    replace, in the order configuration, kernel, ramdisk, second stage, the
    names that [new_bootimg] set; the others stay [boot.info], [Image],
    [ramdisk.img] and [stage2.img]. *)
Theorem extract_names_default {A : c_abi} {B : bootimg_h}
    (prog name : string) (outs : list string) :
  (List.length outs <= 4)%nat ->
  exists img,
    parse_args (prog :: "-x"%string :: name :: outs) new_bootimg [] =
      Ok (extract, img, []) /\
    fname img = name /\
    config_fname img = Some (nth 0 outs "boot.info"%string) /\
    kernel_fname img = Some (nth 1 outs "Image"%string) /\
    ramdisk_fname img = Some (nth 2 outs "ramdisk.img"%string) /\
    second_fname img = Some (nth 3 outs "stage2.img"%string).
Proof.
  intros L. unfold parse_args.
  change (String.eqb "-x" "-h") with false. change (String.eqb "-x" "-x") with true.
  cbv iota.
  replace (4 <? List.length outs)%nat with false
    by (symmetry; apply Nat.ltb_ge; exact L).
  eexists. split; [reflexivity |].
  destruct outs as [| o1 [| o2 [| o3 [| o4 [| o5 outs]]]]];
    cbn in L; try lia; repeat split.
Qed.

Lemma extract_names_default_witness :
  exists img,
    @parse_args lp64 ["abootimg"; "-x"; "boot.img"; "cfg"; "kernel"]%string
                (@new_bootimg aosp) [] = Ok (extract, img, []) /\
    fname img = "boot.img"%string /\
    config_fname img = Some "cfg"%string /\
    kernel_fname img = Some "kernel"%string /\
    ramdisk_fname img = Some "ramdisk.img"%string /\
    second_fname img = Some "stage2.img"%string.
Proof.
  exact (@extract_names_default lp64 aosp "abootimg" "boot.img" ["cfg"; "kernel"]%string
           ltac:(cbn; lia)).
Defined.
